(** * Analogical Insight Extractor: staging, hashing and vault logic

    A shallow embedding of the TypeScript sources of the study aid:
    - [firebase.ts]      (hashing, duplicate check, vault writes and reads),
    - [geminiService.ts] (API-key gate and response parsing),
    - [App.tsx]          (staging area, scan, duplicate prompt, processing),
    - [VaultView.tsx]    (client-side filtering of the vault),
    - [index.tsx]        (the single-file variant of the same application).

    The application is embedded on texts of code units in the range
    U+0000..U+00FF, modelled by [string].  On that range the built-ins used
    by the sources ([trim], [toLowerCase], [includes], [split], [match],
    [replace], [TextEncoder.encode]) are modelled exactly as ECMAScript
    defines them.  The question hash is embedded a second time on strings
    of arbitrary UTF-16 code units ([UString]), and the first embedding is
    proved to be its restriction to that range. *)

From Stdlib Require Import ZArith NArith Ascii String List Lia Bool.
From Stdlib Require Strings.Byte.
From stdpp Require Import base strings gmap list sorting.

Open Scope string_scope.

(** ** ECMAScript built-ins on strings *)

Module JS.

(** [WhiteSpace] and [LineTerminator] code units below U+0100: TAB, LF, VT,
    FF, CR, SP and NBSP.  This is the set stripped by [trim] and matched by
    the regular-expression class [\s]. *)
Definition isWhiteSpace (c : ascii) : bool :=
  let n := N_of_ascii c in
  ((n =? 9) || (n =? 10) || (n =? 11) || (n =? 12) || (n =? 13)
   || (n =? 32) || (n =? 160))%N.

Fixpoint trimStart (s : string) : string :=
  match s with
  | String c s' => if isWhiteSpace c then trimStart s' else s
  | EmptyString => EmptyString
  end.

Fixpoint trimEnd (s : string) : string :=
  match s with
  | String c s' =>
      match trimEnd s' with
      | EmptyString => if isWhiteSpace c then EmptyString else String c EmptyString
      | t => String c t
      end
  | EmptyString => EmptyString
  end.

(** [String.prototype.trim] *)
Definition trim (s : string) : string := trimEnd (trimStart s).

(** Upper-case letters below U+0100 are A..Z, U+00C0..U+00D6 and
    U+00D8..U+00DE; each maps to the code unit 32 above it. *)
Definition isUpper (c : ascii) : bool :=
  let n := N_of_ascii c in
  ((65 <=? n) && (n <=? 90) || (192 <=? n) && (n <=? 222) && negb (n =? 215))%N.

Definition toLowerChar (c : ascii) : ascii :=
  if isUpper c then ascii_of_N (N_of_ascii c + 32) else c.

(** [String.prototype.toLowerCase] *)
Fixpoint toLowerCase (s : string) : string :=
  match s with
  | String c s' => String (toLowerChar c) (toLowerCase s')
  | EmptyString => EmptyString
  end.

(** [Canonicalize] of a regular expression with the [i] flag and without the
    [u] flag: the upper-case mapping of a single code unit, kept only when
    it does not send a code unit above U+007F into ASCII.  The result can
    leave the range of [ascii] (U+00FF maps to U+0178, U+00B5 to U+039C),
    hence the codomain [N]; U+00DF has a two-unit upper case and is kept. *)
Definition canonicalize (c : ascii) : N :=
  let n := N_of_ascii c in
  if ((97 <=? n) && (n <=? 122))%N then (n - 32)%N
  else if ((224 <=? n) && (n <=? 254) && negb (n =? 247))%N then (n - 32)%N
  else if (n =? 255)%N then 376%N
  else if (n =? 181)%N then 924%N
  else n.

(** How a literal pattern character is compared with an input code unit:
    exactly, or after [canonicalize] when the [i] flag is set. *)
Definition charMatches (ignoreCase : bool) (p c : ascii) : bool :=
  if ignoreCase then (canonicalize p =? canonicalize c)%N
  else bool_decide (p = c).

(** Does the literal pattern [pat] match at the start of [s]?  On success
    the matched text and the remaining input are returned. *)
Fixpoint matchLiteral (ignoreCase : bool) (pat s : string) : option (string * string) :=
  match pat with
  | EmptyString => Some (EmptyString, s)
  | String p pat' =>
      match s with
      | String c s' =>
          if charMatches ignoreCase p c then
            match matchLiteral ignoreCase pat' s' with
            | Some (m, r) => Some (String c m, r)
            | None => None
            end
          else None
      | EmptyString => None
      end
  end.

Definition startsWith (s pat : string) : bool :=
  match matchLiteral false pat s with Some _ => true | None => false end.

(** [String.prototype.includes] *)
Fixpoint includes (s pat : string) : bool :=
  startsWith s pat ||
  match s with
  | String _ s' => includes s' pat
  | EmptyString => false
  end.

(** The matches of a global regular expression whose source is a non-empty
    literal, scanning left to right; after a match at index [i] of length
    [n] the scan resumes at [i + n], which [skip] counts down. *)
Fixpoint scanLiteral (ignoreCase : bool) (pat : string) (skip : nat) (s : string)
  : list string :=
  match s with
  | String _ s' =>
      match skip with
      | S k => scanLiteral ignoreCase pat k s'
      | O =>
          match matchLiteral ignoreCase pat s with
          | Some (m, _) => m :: scanLiteral ignoreCase pat (String.length m - 1) s'
          | None => scanLiteral ignoreCase pat 0 s'
          end
      end
  | EmptyString => []
  end.

(** [s.match(/pat/g)] and [s.match(/pat/gi)] for a non-empty literal [pat]:
    [null] (here [None]) when nothing matches, else the matched texts. *)
Definition match_g (ignoreCase : bool) (pat s : string) : option (list string) :=
  match scanLiteral ignoreCase pat 0 s with
  | [] => None
  | ms => Some ms
  end.

(** Length of the match of [/\n\s*\n/] at the start of [s], if any.  [\s*]
    is greedy and backtracks, so a match that starts at a line feed ends at
    the last line feed of the white-space run that follows it. *)
Fixpoint lastLineFeed (pos : nat) (s : string) : option nat :=
  match s with
  | String c s' =>
      if isWhiteSpace c then
        match lastLineFeed (S pos) s' with
        | Some e => Some e
        | None => if bool_decide (c = "010"%char) then Some (S pos) else None
        end
      else None
  | EmptyString => None
  end.

Definition matchBlankLine (s : string) : option nat :=
  match s with
  | String c s' => if bool_decide (c = "010"%char) then lastLineFeed 1 s' else None
  | EmptyString => None
  end.

(** [s.split(/\n\s*\n/)] on a non-empty [s]: [cur] holds the current piece
    in reverse and [skip] the code units of a separator still to drop. *)
Fixpoint splitGo (skip : nat) (cur : string) (s : string) : list string :=
  match s with
  | String c s' =>
      match skip with
      | S k => splitGo k cur s'
      | O =>
          match matchBlankLine s with
          | Some n => String.rev cur :: splitGo (n - 1) EmptyString s'
          | None => splitGo 0 (String c cur) s'
          end
      end
  | EmptyString => [String.rev cur]
  end.

Definition split_blank_lines (s : string) : list string :=
  splitGo 0 EmptyString s.

(** [xs.slice(0, n)] *)
Definition slice0 {A} (n : nat) (xs : list A) : list A := firstn n xs.

End JS.

(** ** SHA-256 (FIPS 180-4), the algorithm behind [crypto.subtle.digest] *)

Module Sha256.
Local Open Scope N_scope.

Definition mask32 : N := 0xFFFFFFFF.
Definition add32 (a b : N) : N := N.land (a + b) mask32.
Definition rotr (n x : N) : N :=
  N.lor (N.shiftr x n) (N.land (N.shiftl x (32 - n)) mask32).
Definition shr (n x : N) : N := N.shiftr x n.
Definition not32 (x : N) : N := N.lxor x mask32.

Definition Ch (x y z : N) : N := N.lxor (N.land x y) (N.land (not32 x) z).
Definition Maj (x y z : N) : N :=
  N.lxor (N.land x y) (N.lxor (N.land x z) (N.land y z)).
Definition Sigma0 (x : N) : N := N.lxor (rotr 2 x) (N.lxor (rotr 13 x) (rotr 22 x)).
Definition Sigma1 (x : N) : N := N.lxor (rotr 6 x) (N.lxor (rotr 11 x) (rotr 25 x)).
Definition sigma0 (x : N) : N := N.lxor (rotr 7 x) (N.lxor (rotr 18 x) (shr 3 x)).
Definition sigma1 (x : N) : N := N.lxor (rotr 17 x) (N.lxor (rotr 19 x) (shr 10 x)).

(** The first [n] primes, by trial division. *)
Fixpoint has_divisor (fuel : nat) (d p : N) : bool :=
  match fuel with
  | O => false
  | S f => if p <? d * d then false
           else if p mod d =? 0 then true
           else has_divisor f (d + 1) p
  end.

Fixpoint primes_from (fuel n : nat) (p : N) : list N :=
  match fuel, n with
  | S f, S n' =>
      if has_divisor (N.to_nat p) 2 p then primes_from f n (p + 1)
      else p :: primes_from f n' (p + 1)
  | _, _ => []
  end.

Definition first_primes (n : nat) : list N := primes_from 400 n 2.

(** The largest [r] below [2 ^ bits] with [r ^ 3 <= x]. *)
Fixpoint cube_root (bits : nat) (x r : N) : N :=
  match bits with
  | O => r
  | S b =>
      let c := r + 2 ^ N.of_nat b in
      if c * c * c <=? x then cube_root b x c else cube_root b x r
  end.

(** The round constants: the first 32 bits of the fractional parts of the
    cube roots of the first 64 primes. *)
Definition K : list N :=
  Eval vm_compute in
    map (fun p => N.land (cube_root 36 (p * 2 ^ 96) 0) mask32) (first_primes 64).

Record state := State { ha : N; hb : N; hc : N; hd : N; he : N; hf : N; hg : N; hh : N }.

(** The initial hash value: the first 32 bits of the fractional parts of
    the square roots of the first 8 primes. *)
Definition frac_sqrt (p : N) : N := N.land (N.sqrt (p * 2 ^ 64)) mask32.

Definition H0 : state :=
  Eval vm_compute in
    State (frac_sqrt 2) (frac_sqrt 3) (frac_sqrt 5) (frac_sqrt 7)
          (frac_sqrt 11) (frac_sqrt 13) (frac_sqrt 17) (frac_sqrt 19).

(** The low eight bits of [n] as a byte. *)
Definition low_byte (n : N) : Byte.byte := byte_of_ascii (ascii_of_N n).

(** Padding: a one bit, zeros up to 56 modulo 64 bytes, then the bit
    length on eight bytes, most significant first. *)
Definition pad (msg : list Byte.byte) : list Byte.byte :=
  let len := N.of_nat (length msg) in
  let zeros := N.to_nat ((119 - len mod 64) mod 64) in
  let bits := len * 8 in
  msg ++ [Byte.x80] ++ repeat Byte.x00 zeros
      ++ map (fun i => low_byte (N.shiftr bits (8 * i))) [7; 6; 5; 4; 3; 2; 1; 0].

Definition word_of_bytes (bs : list Byte.byte) : N :=
  fold_left (fun acc b => acc * 256 + Byte.to_N b) bs 0.

Definition bytes_of_word (w : N) : list Byte.byte :=
  map (fun i => low_byte (N.shiftr w (8 * i))) [3; 2; 1; 0].

(** The list cut into pieces of [k] elements: at most [fuel] pieces. *)
Fixpoint chunks {A} (fuel k : nat) (l : list A) : list (list A) :=
  match fuel, l with
  | S f, _ :: _ => firstn k l :: chunks f k (skipn k l)
  | _, _ => []
  end.

(** The message schedule, most recent word first. *)
Fixpoint schedule (n : nat) (w : list N) : list N :=
  match n with
  | O => w
  | S n' =>
      let x := add32 (add32 (sigma1 (nth 1 w 0)) (nth 6 w 0))
                     (add32 (sigma0 (nth 14 w 0)) (nth 15 w 0)) in
      schedule n' (x :: w)
  end.

Definition round (s : state) (kw : N * N) : state :=
  let '(k, w) := kw in
  let t1 := add32 (add32 (add32 (hh s) (Sigma1 (he s))) (add32 (Ch (he s) (hf s) (hg s)) k)) w in
  let t2 := add32 (Sigma0 (ha s)) (Maj (ha s) (hb s) (hc s)) in
  State (add32 t1 t2) (ha s) (hb s) (hc s) (add32 (hd s) t1) (he s) (hf s) (hg s).

Definition compress (s : state) (block : list Byte.byte) : state :=
  let w16 := map word_of_bytes (chunks 16 4 block) in
  let w := rev (schedule 48 (rev w16)) in
  let r := fold_left round (combine K w) s in
  State (add32 (ha s) (ha r)) (add32 (hb s) (hb r)) (add32 (hc s) (hc r)) (add32 (hd s) (hd r))
        (add32 (he s) (he r)) (add32 (hf s) (hf r)) (add32 (hg s) (hg r)) (add32 (hh s) (hh r)).

Definition digest (msg : list Byte.byte) : list Byte.byte :=
  let p := pad msg in
  let s := fold_left compress (chunks (length p) 64 p) H0 in
  bytes_of_word (ha s) ++ bytes_of_word (hb s) ++ bytes_of_word (hc s) ++ bytes_of_word (hd s)
  ++ bytes_of_word (he s) ++ bytes_of_word (hf s) ++ bytes_of_word (hg s) ++ bytes_of_word (hh s).

End Sha256.

(** ** [types.ts] *)

Module Types.

Record AZ104Question := {
  az_text : string;
  az_correctAnswer : string;
  az_explanation : option string
}.

Record ExtractedQuestion := {
  id : string;
  text : string;
  correctAnswer : string;
  explanation : string
}.

Record GroundingSource := { title : string; uri : string }.

Record InsightBlock := {
  foundationalRule : string;
  whyItWorks : string;
  analogy : string;
  analogousFoundationalConcept : string;
  commonConfusion : string;
  examEliminationCue : string;
  memoryHook : string
}.

Record ExtractionResult := {
  domain : string;
  blocks : list InsightBlock;
  sources : list GroundingSource
}.

Inductive ProcessingStatus := IDLE | LOADING | SUCCESS | ERROR.

End Types.

(** ** The browser and the two hosted services

    The code runs against mutable surroundings: local storage and the build
    environment, the Firestore collection, the generative-AI endpoint, the
    clock and the console.  [World] holds them; an effectful computation is
    a function of the world that completes normally or throws. *)

Module Runtime.

(** [interface VaultItem] of [firebase.ts]: the shape of a vault document. *)
Record VaultItem := {
  hash : string;
  domain : string;
  foundationalRule : string;
  masteredAt : string
}.

(** The one field of the Firebase configuration that the sources read;
    the empty string stands for an absent or empty [projectId]. *)
Record FirebaseConfig := { projectId : string }.

(** What a request to the document store meets. *)
Inductive StoreOutcome := Served | Unreachable | Rejected.

Record GroundingChunk := { web_title : string; web_uri : string }.

(** What a request to the AI endpoint meets: a failure with its message, or
    a response with its text (empty when absent) and grounding chunks. *)
Inductive AiReply :=
| AiFails (message : string)
| AiResponds (text : string) (chunks : list GroundingChunk).

Inductive Request :=
| CleanPdfRequest (data : string)
| CleanTextRequest (rawText : string)
| InsightRequest (questions : list Types.AZ104Question).

(** Observable actions, in the order they happen. *)
Inductive Event :=
| EvGetDoc (id : string)
| EvSetDoc (id : string) (data : VaultItem)
| EvGetDocs
| EvGenerateContent (model : string) (req : Request)
| EvConsole (msg : string)
| EvAlert (msg : string).

Record World := {
  localStorage : gmap string string;
  env : gmap string string;
  dbInstance : bool;
  vault : gmap string VaultItem;
  storeOutcomes : list StoreOutcome;
  aiReplies : list AiReply;
  now : string;
  events : list Event
}.

(** The parts of the platform left abstract: [JSON.parse] at the three
    types it is used at ([None] when it throws), the message of the
    [SyntaxError] it then throws, and the offset of local time from UTC in
    milliseconds. *)
Class Platform := {
  JSON_parse_config : string -> option FirebaseConfig;
  JSON_parse_questions : string -> option (list Types.ExtractedQuestion);
  JSON_parse_result : string -> option Types.ExtractionResult;
  JSON_error_message : string -> string;
  LocalTZA : Z
}.

Record Error := { message : string }.

Inductive Completion (A : Type) :=
| Normal (a : A)
| Throw (e : Error).
Arguments Normal {A} a.
Arguments Throw {A} e.

Definition Eff (A : Type) : Type := World -> Completion A * World.

Definition ret {A} (a : A) : Eff A := fun w => (Normal a, w).

Definition bind {A B} (m : Eff A) (k : A -> Eff B) : Eff B :=
  fun w =>
    match m w with
    | (Normal a, w') => k a w'
    | (Throw e, w') => (Throw e, w')
    end.

Definition throw {A} (msg : string) : Eff A := fun w => (Throw {| message := msg |}, w).

(** [try { m } catch (e) { handler e }] *)
Definition try_catch {A} (m : Eff A) (handler : Error -> Eff A) : Eff A :=
  fun w =>
    match m w with
    | (Normal a, w') => (Normal a, w')
    | (Throw e, w') => handler e w'
    end.

Declare Scope eff_scope.
Delimit Scope eff_scope with eff.
Notation "'let!' x ':=' m 'in' k" := (bind m (fun x => k))
  (at level 10, x pattern, m at level 100, k at level 200) : eff_scope.
Notation "m ';;;' k" := (bind m (fun _ => k))
  (at level 100, k at level 200, right associativity) : eff_scope.

Local Open Scope eff_scope.

(** [await Promise.all(xs.map(f))] and sequential loops alike: the calls are
    begun in list order. *)
Fixpoint mapM {A B} (f : A -> Eff B) (xs : list A) : Eff (list B) :=
  match xs with
  | [] => ret []
  | x :: xs' => let! y := f x in let! ys := mapM f xs' in ret (y :: ys)
  end.

Definition emit (e : Event) : Eff unit :=
  fun w =>
    (Normal tt,
     {| localStorage := localStorage w; env := env w; dbInstance := dbInstance w;
        vault := vault w; storeOutcomes := storeOutcomes w; aiReplies := aiReplies w;
        now := now w; events := events w ++ [e] |}).

Definition truthy (s : option string) : bool :=
  match s with
  | Some (String _ _) => true
  | _ => false
  end.

(** [a || b] on strings that may be absent *)
Definition or_else (s : option string) (d : string) : string :=
  match s with
  | Some (String c s') => String c s'
  | _ => d
  end.

Definition localStorage_getItem (key : string) : Eff (option string) :=
  fun w => (Normal (localStorage w !! key), w).

Definition getenv (key : string) : Eff (option string) :=
  fun w => (Normal (env w !! key), w).

Definition store_error (o : StoreOutcome) : string :=
  match o with
  | Served => ""
  | Unreachable => "Failed to get document because the client is offline."
  | Rejected => "Missing or insufficient permissions."
  end.

(** The next request to the document store takes the next outcome of the
    world; once the list is used up every request is served.  In the model
    every request settles: one that is not served fails at once.  Firestore
    fails a lookup made while the store cannot be reached, but it queues a
    write made then and leaves its promise pending; what is stated about
    the way a handler ends is therefore stated for worlds in which every
    request is answered ([StoreSpec.answered]). *)
Definition store_request : Eff unit :=
  fun w =>
    match storeOutcomes w with
    | [] => (Normal tt, w)
    | o :: os =>
        let w' :=
          {| localStorage := localStorage w; env := env w; dbInstance := dbInstance w;
             vault := vault w; storeOutcomes := os; aiReplies := aiReplies w;
             now := now w; events := events w |} in
        match o with
        | Served => (Normal tt, w')
        | _ => (Throw {| message := store_error o |}, w')
        end
    end.

(** [getDoc(doc(db, COLLECTION_NAME, id))]; [Some] when [exists()] holds. *)
Definition getDoc (id : string) : Eff (option VaultItem) :=
  emit (EvGetDoc id) ;;;
  store_request ;;;
  fun w => (Normal (vault w !! id), w).

(** [setDoc(doc(db, COLLECTION_NAME, id), data)] without merge options: the
    document under [id] is created or overwritten. *)
Definition setDoc (id : string) (data : VaultItem) : Eff unit :=
  emit (EvSetDoc id data) ;;;
  store_request ;;;
  fun w =>
    (Normal tt,
     {| localStorage := localStorage w; env := env w; dbInstance := dbInstance w;
        vault := <[id := data]> (vault w); storeOutcomes := storeOutcomes w;
        aiReplies := aiReplies w; now := now w; events := events w |}).

(** Order of [orderBy("masteredAt", "desc")]: later timestamps first, and
    among equal timestamps larger document names first. *)
Definition newer_first (a b : string * VaultItem) : Prop :=
  String.ltb (masteredAt a.2) (masteredAt b.2) = false /\
  (masteredAt a.2 = masteredAt b.2 -> String.ltb a.1 b.1 = false).

#[global] Instance newer_first_dec a b : Decision (newer_first a b).
Proof. unfold newer_first. apply _. Defined.

(** [getDocs(query(collection(db, COLLECTION_NAME), orderBy("masteredAt", "desc")))] *)
Definition getDocs_by_masteredAt_desc : Eff (list VaultItem) :=
  emit EvGetDocs ;;;
  store_request ;;;
  fun w => (Normal (map snd (merge_sort newer_first (map_to_list (vault w)))), w).

(** [ai.models.generateContent]: the next reply of the endpoint; with no
    reply left the request fails. *)
Definition generateContent (model : string) (req : Request) : Eff (string * list GroundingChunk) :=
  emit (EvGenerateContent model req) ;;;
  fun w =>
    match aiReplies w with
    | [] => (Throw {| message := "Failed to fetch" |}, w)
    | r :: rs =>
        let w' :=
          {| localStorage := localStorage w; env := env w; dbInstance := dbInstance w;
             vault := vault w; storeOutcomes := storeOutcomes w; aiReplies := rs;
             now := now w; events := events w |} in
        match r with
        | AiFails msg => (Throw {| message := msg |}, w')
        | AiResponds t cs => (Normal (t, cs), w')
        end
    end.

Definition set_dbInstance (b : bool) : Eff unit :=
  fun w =>
    (Normal tt,
     {| localStorage := localStorage w; env := env w; dbInstance := b;
        vault := vault w; storeOutcomes := storeOutcomes w; aiReplies := aiReplies w;
        now := now w; events := events w |}).

(** [new Date().toISOString()] *)
Definition Date_now_toISOString : Eff string := fun w => (Normal (now w), w).

Definition console (msg : string) : Eff unit := emit (EvConsole msg).
Definition alert (msg : string) : Eff unit := emit (EvAlert msg).

End Runtime.

(** ** [firebase.ts] *)

Module Firebase.
Import Runtime.
Local Open Scope eff_scope.

Section WithPlatform.
Context `{Platform}.

Definition getFirebaseConfig : Eff FirebaseConfig :=
  let! local := localStorage_getItem "vault_firebase_config" in
  if truthy local then
    match JSON_parse_config (or_else local "") with
    | Some config => ret config
    | None => throw (JSON_error_message (or_else local ""))
    end
  else
    let! p := getenv "FIREBASE_PROJECT_ID" in
    ret {| projectId := or_else p "" |}.

(** The Firestore handle is cached in [dbInstance]; the handle itself
    carries no information, so [getDb] returns [tt]. *)
Definition getDb : Eff unit :=
  fun w =>
    if dbInstance w then (Normal tt, w)
    else
      (let! config := getFirebaseConfig in
       if bool_decide (projectId config = "") then throw "Firebase not configured"
       else set_dbInstance true) w.

(** [new TextEncoder().encode]: UTF-8; a code unit above U+007F takes two
    bytes. *)
Definition encode_unit (c : ascii) : list Byte.byte :=
  let n := N_of_ascii c in
  if (n <? 128)%N then [byte_of_ascii c]
  else [Sha256.low_byte (192 + n / 64); Sha256.low_byte (128 + n mod 64)].

Fixpoint TextEncoder_encode (s : string) : list Byte.byte :=
  match s with
  | String c s' => encode_unit c ++ TextEncoder_encode s'
  | EmptyString => []
  end.

Definition hexDigit (n : N) : ascii :=
  nth (N.to_nat n) (list_ascii_of_string "0123456789abcdef") "0"%char.

(** [n.toString(16)] for a non-negative integer *)
Fixpoint toString16_go (fuel : nat) (n : N) (acc : string) : string :=
  match fuel with
  | O => acc
  | S f =>
      let acc' := String (hexDigit (n mod 16)) acc in
      if (n / 16 =? 0)%N then acc' else toString16_go f (n / 16) acc'
  end.

Definition Number_toString16 (n : N) : string :=
  toString16_go (S (N.size_nat n)) n "".

(** [s.padStart(target, fill)] for a one-character [fill] *)
Definition padStart (target : nat) (fill : ascii) (s : string) : string :=
  string_of_list_ascii (repeat fill (target - String.length s)) ++ s.

Definition getQuestionHash (text : string) : string :=
  let msgUint8 := TextEncoder_encode (JS.toLowerCase (JS.trim text)) in
  let hashBuffer := Sha256.digest msgUint8 in
  let hashArray := hashBuffer in
  String.concat ""
    (map (fun b => padStart 2 "0"%char (Number_toString16 (Byte.to_N b))) hashArray).

Definition checkDuplicate (hash : string) : Eff bool :=
  try_catch
    (getDb ;;;
     let! docSnap := getDoc hash in
     ret (bool_decide (is_Some docSnap)))
    (fun e => ret false).

Definition saveToVault (hash domain rule : string) : Eff unit :=
  try_catch
    (getDb ;;;
     let! stamp := Date_now_toISOString in
     setDoc hash
       {| Runtime.masteredAt := stamp;
          Runtime.domain := domain;
          Runtime.foundationalRule := rule;
          Runtime.hash := hash |})
    (fun e => ret tt).

Definition fetchVault : Eff (list VaultItem) :=
  try_catch
    (getDb ;;;
     getDocs_by_masteredAt_desc)
    (fun e => ret []).

End WithPlatform.
End Firebase.

(** ** [geminiService.ts] *)

Module Gemini.
Import Runtime.
Local Open Scope eff_scope.

Definition LF : string := String "010"%char EmptyString.
Definition fence : string := "```".

(** Length of the match of [/```json\n?|\n?```/] at the start of [s]. *)
Definition matchFence (s : string) : option nat :=
  match JS.matchLiteral false (fence ++ "json") s with
  | Some (_, r) => if JS.startsWith r LF then Some 8 else Some 7
  | None =>
      if JS.startsWith s (LF ++ fence) then Some 4
      else if JS.startsWith s fence then Some 3
      else None
  end.

(** [s.replace(/```json\n?|\n?```/g, '')] *)
Fixpoint stripFences (skip : nat) (s : string) : string :=
  match s with
  | String c s' =>
      match skip with
      | S k => stripFences k s'
      | O =>
          match matchFence s with
          | Some n => stripFences (n - 1) s'
          | None => String c (stripFences 0 s')
          end
      end
  | EmptyString => EmptyString
  end.

Definition no_api_key : string :=
  "No API key configured. Please add your Gemini API key in Settings.".
Definition invalid_structure : string :=
  "Invalid structure returned from AI. Try a smaller batch.".

Section WithPlatform.
Context `{Platform}.

Definition getApiKey : Eff string :=
  let! localKey := localStorage_getItem "gemini_api_key" in
  if truthy localKey then ret (or_else localKey "")
  else
    let! envKey := getenv "VITE_API_KEY" in
    ret (or_else envKey "").

Definition cleanAndExtractAnswers (rawText : string) (pdfBase64 : option string)
  : Eff (list Types.ExtractedQuestion) :=
  let! apiKey := getApiKey in
  if bool_decide (apiKey = "") then throw no_api_key
  else
    let model := "gemini-2.0-flash-exp" in
    let req :=
      if truthy pdfBase64 then CleanPdfRequest (or_else pdfBase64 "")
      else CleanTextRequest ("RAW INPUT DATA:" ++ LF ++ rawText) in
    let! response := generateContent model req in
    let text := or_else (Some response.1) "[]" in
    match JSON_parse_questions text with
    | Some qs => ret qs
    | None => throw (JSON_error_message text)
    end.

Definition groundingSources (chunks : list GroundingChunk) : list Types.GroundingSource :=
  map (fun c => {| Types.title := web_title c; Types.uri := web_uri c |})
      (filter (fun c => web_uri c <> "" /\ web_title c <> "") chunks).

Definition processInsights (questions : list Types.AZ104Question)
  : Eff Types.ExtractionResult :=
  let! apiKey := getApiKey in
  if bool_decide (apiKey = "") then throw no_api_key
  else
    let model := "gemini-2.0-flash-thinking-exp-01-21" in
    let! response := generateContent model (InsightRequest questions) in
    let sources := groundingSources response.2 in
    let textOutput := or_else (Some response.1) "{}" in
    let jsonStr := JS.trim (stripFences 0 textOutput) in
    match JSON_parse_result jsonStr with
    | Some result =>
        ret {| Types.domain := Types.domain result;
               Types.blocks := Types.blocks result;
               Types.sources := sources |}
    | None => throw invalid_structure
    end.

End WithPlatform.
End Gemini.

(** ** [App.tsx] *)

Module App.
Import Runtime.
Local Open Scope eff_scope.

Record PendingBatch := {
  questions : list string;
  hashes : list string;
  duplicateIndices : list Z
}.

Record AppState := {
  inputText : string;
  result : option Types.ExtractionResult;
  status : Types.ProcessingStatus;
  error : option string;
  pendingBatch : option PendingBatch;
  isApiKeySet : bool
}.

Definition setInputText (v : string) (st : AppState) : AppState :=
  {| inputText := v; result := result st; status := status st; error := error st;
     pendingBatch := pendingBatch st; isApiKeySet := isApiKeySet st |}.
Definition setResult (v : option Types.ExtractionResult) (st : AppState) : AppState :=
  {| inputText := inputText st; result := v; status := status st; error := error st;
     pendingBatch := pendingBatch st; isApiKeySet := isApiKeySet st |}.
Definition setStatus (v : Types.ProcessingStatus) (st : AppState) : AppState :=
  {| inputText := inputText st; result := result st; status := v; error := error st;
     pendingBatch := pendingBatch st; isApiKeySet := isApiKeySet st |}.
Definition setError (v : option string) (st : AppState) : AppState :=
  {| inputText := inputText st; result := result st; status := status st; error := v;
     pendingBatch := pendingBatch st; isApiKeySet := isApiKeySet st |}.
Definition setPendingBatch (v : option PendingBatch) (st : AppState) : AppState :=
  {| inputText := inputText st; result := result st; status := status st; error := error st;
     pendingBatch := v; isApiKeySet := isApiKeySet st |}.
Definition setIsApiKeySet (v : bool) (st : AppState) : AppState :=
  {| inputText := inputText st; result := result st; status := status st; error := error st;
     pendingBatch := pendingBatch st; isApiKeySet := v |}.

(** [(inputText.match(/Question: /g) || []).length] *)
Definition stagedCount (inputText : string) : nat :=
  length (default [] (JS.match_g false "Question: " inputText)).

Definition isStagingFull (inputText : string) : bool := (6 <=? stagedCount inputText)%nat.

Definition LF : string := Gemini.LF.

Definition formatQuestion (q : Types.ExtractedQuestion) : string :=
  "Question: " ++ Types.text q ++ LF ++ "Correct Answer: " ++ Types.correctAnswer q
  ++ LF ++ "Explanation: " ++ Types.explanation q.

Definition limit_reached : string :=
  "Generator limit reached! (Max 6 questions). Clear the staging area or process the current batch.".

Definition handlePushToEngine (q : Types.ExtractedQuestion) (st : AppState) : Eff AppState :=
  let currentCount := length (default [] (JS.match_g false "Question: " (inputText st))) in
  if (6 <=? currentCount)%nat then
    alert limit_reached ;;;
    ret st
  else
    let formatted := formatQuestion q in
    let prev := inputText st in
    ret (setInputText
           (if bool_decide (prev = EmptyString) then formatted
            else prev ++ LF ++ LF ++ formatted) st).

Definition checkApiKey : Eff bool :=
  let! localKey := localStorage_getItem "gemini_api_key" in
  let! envKey := getenv "VITE_API_KEY" in
  ret (truthy localKey || truthy envKey).

Section WithPlatform.
Context `{Platform}.

(** The loop that stores one vault item per returned block, [i] being the
    index of the first block of [blocks] in the extraction. *)
Fixpoint saveBlocks (i : nat) (blocks : list Types.InsightBlock) (domain : string)
  (hashes : list string) : Eff unit :=
  match blocks with
  | [] => ret tt
  | b :: bs =>
      (if truthy (hashes !! i)
       then Firebase.saveToVault (or_else (hashes !! i) EmptyString) domain
              (Types.foundationalRule b)
       else ret tt) ;;;
      saveBlocks (S i) bs domain hashes
  end.

Definition executeProcessing (batch hashes : list string) (st : AppState) : Eff AppState :=
  if bool_decide (length batch = 0) then
    ret (setPendingBatch None (setStatus Types.IDLE
          (setError (Some "No new questions to process.") st)))
  else if negb (isApiKeySet st) then
    ret (setStatus Types.ERROR
          (setError (Some "AI Logic Engine is offline. Please configure your API key.") st))
  else
    let st1 := setPendingBatch None (setError None (setStatus Types.LOADING st)) in
    try_catch
      (let formattedQuestions :=
         map (fun rq => {| Types.az_text := rq;
                           Types.az_correctAnswer := "Verified";
                           Types.az_explanation := Some "Verified" |}) batch in
       let! extraction := Gemini.processInsights formattedQuestions in
       try_catch
         (saveBlocks 0 (Types.blocks extraction) (Types.domain extraction) hashes)
         (fun vaultErr =>
            console "Vault sync failed. Check Firebase config in Integration center.") ;;;
       ret (setStatus Types.SUCCESS (setResult (Some extraction) st1)))
      (fun err =>
         ret (setStatus Types.ERROR
               (setError (Some (or_else (Some (message err))
                                  "Processing failed. Try a smaller batch.")) st1))).

(** [inputText.trim().split(/\n\s*\n/).filter(c => c.includes("Question:")).slice(0, 6)] *)
Definition rawQuestions (inputText : string) : list string :=
  JS.slice0 6
    (filter (fun c => JS.includes c "Question:" = true)
            (JS.split_blank_lines (JS.trim inputText))).

(** [duplicates.map((d, i) => d ? i : -1).filter(i => i !== -1)] *)
Definition duplicateIndicesOf (duplicates : list bool) : list Z :=
  filter (fun i => i <> (-1)%Z)
         (imap (fun i (d : bool) => if d then Z.of_nat i else (-1)%Z) duplicates).

Definition handleInitialScan (st : AppState) : Eff AppState :=
  if bool_decide (JS.trim (inputText st) = EmptyString) then ret st
  else
    let st1 := setError None (setStatus Types.LOADING st) in
    try_catch
      (let rawQuestions := rawQuestions (inputText st) in
       if bool_decide (length rawQuestions = 0) then
         throw "No valid questions detected. Ensure you push questions from the Scraper first."
       else
         let hashes := map Firebase.getQuestionHash rawQuestions in
         let! duplicates :=
           try_catch
             (mapM Firebase.checkDuplicate hashes)
             (fun e =>
                console "Skipping duplicate check (Firebase not configured)" ;;;
                ret (repeat false (length hashes))) in
         let duplicateIndices := duplicateIndicesOf duplicates in
         if bool_decide (0 < length duplicateIndices)%nat then
           ret (setStatus Types.IDLE
                 (setPendingBatch
                    (Some {| questions := rawQuestions; hashes := hashes;
                             duplicateIndices := duplicateIndices |}) st1))
         else executeProcessing rawQuestions hashes st1)
      (fun err => ret (setStatus Types.ERROR (setError (Some (message err)) st1))).

(** [xs.filter((_, i) => !duplicateIndices.includes(i))] *)
Definition dropIndices {A} (idx : list Z) (xs : list A) : list A :=
  map snd (filter (fun p => ~ (Z.of_nat p.1 ∈ idx)) (imap (fun i x => (i, x)) xs)).

(** The two buttons of the duplicate prompt; the prompt is rendered only
    while a pending batch with duplicates is held. *)
Definition onSkipDuplicates (st : AppState) : Eff AppState :=
  match pendingBatch st with
  | Some pb =>
      executeProcessing (dropIndices (duplicateIndices pb) (questions pb))
                        (dropIndices (duplicateIndices pb) (hashes pb)) st
  | None => ret st
  end.

Definition onProcessAll (st : AppState) : Eff AppState :=
  match pendingBatch st with
  | Some pb => executeProcessing (questions pb) (hashes pb) st
  | None => ret st
  end.

Definition handleReset (st : AppState) : AppState :=
  setPendingBatch None (setError None (setStatus Types.IDLE
    (setResult None (setInputText EmptyString st)))).

(** What the user and the timers can make the application do. *)
Inductive Action :=
| Type_ (newText : string)
| Push (q : Types.ExtractedQuestion)
| Scan
| SkipDuplicates
| ProcessAll
| Reset
| PollApiKey
| LoadVault.

Definition step (a : Action) (st : AppState) : Eff AppState :=
  match a with
  | Type_ v => ret (setInputText v st)
  | Push q => handlePushToEngine q st
  | Scan => handleInitialScan st
  | SkipDuplicates => onSkipDuplicates st
  | ProcessAll => onProcessAll st
  | Reset => ret (handleReset st)
  | PollApiKey => let! b := checkApiKey in ret (setIsApiKeySet b st)
  | LoadVault => Firebase.fetchVault ;;; ret st
  end.

(** A session: the actions are handled one after the other. *)
Fixpoint run (actions : list Action) (st : AppState) : Eff AppState :=
  match actions with
  | [] => ret st
  | a :: rest => let! st' := step a st in run rest st'
  end.

End WithPlatform.
End App.

(** ** ECMAScript dates

    Time values are milliseconds since the epoch, [NaN] for an invalid
    date.  Local time is UTC plus the fixed offset [LocalTZA]. *)

Module JSDate.
Local Open Scope Z_scope.

(** A value of type [number | null]. *)
Inductive number := null | NaN | Num (z : Z).

Definition truthy (v : number) : bool :=
  match v with
  | Num z => negb (z =? 0)
  | _ => false
  end.

(** [a >= b] and [a <= b] on numbers: false as soon as one side is [NaN]. *)
Definition ge (a b : number) : bool :=
  match a, b with
  | Num x, Num y => y <=? x
  | _, _ => false
  end.

Definition le (a b : number) : bool :=
  match a, b with
  | Num x, Num y => x <=? y
  | _, _ => false
  end.

Definition msPerDay : Z := 86400000.

Definition digit (c : ascii) : option Z :=
  let n := Z.of_N (N_of_ascii c) in
  if (48 <=? n) && (n <=? 57) then Some (n - 48) else None.

(** The decimal number written by [s], every character being a digit. *)
Fixpoint digits (acc : Z) (s : string) : option Z :=
  match s with
  | String c s' =>
      match digit c with
      | Some d => digits (10 * acc + d) s'
      | None => None
      end
  | EmptyString => Some acc
  end.

Definition field (from len : nat) (s : string) : option Z :=
  digits 0 (String.substring from len s).

Definition isLeap (y : Z) : bool :=
  (y mod 4 =? 0) && (negb (y mod 100 =? 0) || (y mod 400 =? 0)).

Definition daysInMonth (y m : Z) : Z :=
  if m =? 2 then (if isLeap y then 29 else 28)
  else if (m =? 4) || (m =? 6) || (m =? 9) || (m =? 11) then 30
  else 31.

(** Day number of a civil date, day 0 being 1970-01-01. *)
Definition days_from_civil (y m d : Z) : Z :=
  let y' := if m <=? 2 then y - 1 else y in
  let era := y' / 400 in
  let yoe := y' - era * 400 in
  let mp := if 2 <? m then m - 3 else m + 9 in
  let doy := (153 * mp + 2) / 5 + d - 1 in
  let doe := yoe * 365 + yoe / 4 - yoe / 100 + doy in
  era * 146097 + doe - 719468.

Definition sep (at_ : nat) (c : ascii) (s : string) : bool :=
  bool_decide (String.get at_ s = Some c).

(** The date part [YYYY-MM-DD] at the start of [s], as a day number. *)
Definition parseDay (s : string) : option Z :=
  match field 0 4 s, field 5 2 s, field 8 2 s with
  | Some y, Some m, Some d =>
      if sep 4 "-" s && sep 7 "-" s && (1 <=? m) && (m <=? 12)
         && (1 <=? d) && (d <=? daysInMonth y m)
      then Some (days_from_civil y m d) else None
  | _, _, _ => None
  end.

(** The time part [THH:mm:ss.sssZ] that follows the date part. *)
Definition parseTime (s : string) : option Z :=
  match field 11 2 s, field 14 2 s, field 17 2 s, field 20 3 s with
  | Some h, Some mi, Some sec, Some ms =>
      if sep 10 "T" s && sep 13 ":" s && sep 16 ":" s && sep 19 "." s && sep 23 "Z" s
         && (h <=? 23) && (mi <=? 59) && (sec <=? 59)
      then Some (h * 3600000 + mi * 60000 + sec * 1000 + ms) else None
  | _, _, _, _ => None
  end.

(** [new Date(s).getTime()] for the two forms the application meets: the
    date-only form of a date input, which is a UTC midnight, and the form
    written by [toISOString].  Any other text is an invalid date here. *)
Definition Date_parse (s : string) : number :=
  if bool_decide (String.length s = 10%nat) then
    match parseDay s with
    | Some day => Num (day * msPerDay)
    | None => NaN
    end
  else if bool_decide (String.length s = 24%nat) then
    match parseDay s, parseTime s with
    | Some day, Some t => Num (day * msPerDay + t)
    | _, _ => NaN
    end
  else NaN.

(** [date.setHours(h, m, s, ms)]: the same local day, at the given local
    time of day; the new time value is returned. *)
Definition setHours (tza : Z) (h m s ms : Z) (t : number) : number :=
  match t with
  | Num t =>
      let day := (t + tza) / msPerDay in
      Num (day * msPerDay + (h * 3600000 + m * 60000 + s * 1000 + ms) - tza)
  | _ => NaN
  end.

End JSDate.

(** ** [VaultView.tsx] *)

Module VaultView.
Import Runtime.

Section WithPlatform.
Context `{Platform}.

Definition shown (search startDate endDate : string) (item : VaultItem) : bool :=
  let matchesSearch :=
    JS.includes (JS.toLowerCase (foundationalRule item)) (JS.toLowerCase search)
    || JS.includes (JS.toLowerCase (domain item)) (JS.toLowerCase search) in
  let itemDate := JSDate.Date_parse (masteredAt item) in
  let start :=
    if bool_decide (startDate = EmptyString) then JSDate.null
    else JSDate.setHours LocalTZA 0 0 0 0 (JSDate.Date_parse startDate) in
  let end_ :=
    if bool_decide (endDate = EmptyString) then JSDate.null
    else JSDate.setHours LocalTZA 23 59 59 999 (JSDate.Date_parse endDate) in
  let matchesStartDate := if JSDate.truthy start then JSDate.ge itemDate start else true in
  let matchesEndDate := if JSDate.truthy end_ then JSDate.le itemDate end_ else true in
  matchesSearch && matchesStartDate && matchesEndDate.

Definition filteredItems (items : list VaultItem) (search startDate endDate : string)
  : list VaultItem :=
  filter (fun item => shown search startDate endDate item = true) items.

End WithPlatform.
End VaultView.

(** ** [index.tsx]: the single-file variant *)

Module Index.
Import Runtime.
Local Open Scope eff_scope.

Record AppState := {
  inputText : string;
  result : option Types.ExtractionResult;
  status : Types.ProcessingStatus
}.

(** [(inputText.match(/Question:/gi) || []).length] *)
Definition currentStagedCount (inputText : string) : nat :=
  length (default [] (JS.match_g true "Question:" inputText)).

(** The updater that [handlePushToEngine] passes to [setInputText]. *)
Definition handlePushToEngine (q : Types.ExtractedQuestion) (prev : string) : string :=
  let currentCount := length (default [] (JS.match_g true "Question:" prev)) in
  if (6 <=? currentCount)%nat then prev
  else
    let formatted := App.formatQuestion q in
    if bool_decide (JS.trim prev = EmptyString) then formatted
    else JS.trim prev ++ App.LF ++ App.LF ++ formatted.

(** [inputText.trim().split(/\n\s*\n/).filter(c => c.toLowerCase().includes("question:")).slice(0, 6)] *)
Definition raw (inputText : string) : list string :=
  JS.slice0 6
    (filter (fun c => JS.includes (JS.toLowerCase c) "question:" = true)
            (JS.split_blank_lines (JS.trim inputText))).

Section WithPlatform.
Context `{Platform}.

(** [getDb] returns [null], here [false], when no project is configured. *)
Definition getDb : Eff bool :=
  let! config := Firebase.getFirebaseConfig in
  ret (negb (bool_decide (projectId config = EmptyString))).

Definition saveToVault (hash domain rule : string) : Eff unit :=
  try_catch
    (let! db := getDb in
     if negb db then ret tt
     else
       let! stamp := Date_now_toISOString in
       setDoc hash
         {| Runtime.masteredAt := stamp;
            Runtime.domain := domain;
            Runtime.foundationalRule := rule;
            Runtime.hash := hash |})
    (fun e => ret tt).

Definition processInsights (questions : list Types.AZ104Question)
  : Eff Types.ExtractionResult :=
  let! response := generateContent "gemini-3-pro-preview" (InsightRequest questions) in
  let text := or_else (Some response.1) "{}" in
  match JSON_parse_result text with
  | Some result =>
      ret {| Types.domain := Types.domain result;
             Types.blocks := Types.blocks result;
             Types.sources :=
               map (fun c => {| Types.title := web_title c; Types.uri := web_uri c |})
                   response.2 |}
  | None => throw (JSON_error_message text)
  end.

Fixpoint saveBlocks (i : nat) (blocks : list Types.InsightBlock) (domain : string)
  (hashes : list string) : Eff unit :=
  match blocks with
  | [] => ret tt
  | b :: bs =>
      (if truthy (hashes !! i)
       then saveToVault (or_else (hashes !! i) EmptyString) domain (Types.foundationalRule b)
       else ret tt) ;;;
      saveBlocks (S i) bs domain hashes
  end.

Definition handleProcess (st : AppState) : Eff AppState :=
  if bool_decide (JS.trim (inputText st) = EmptyString) then ret st
  else
    let st1 := {| inputText := inputText st; result := result st; status := Types.LOADING |} in
    try_catch
      (let raw := raw (inputText st) in
       let! extraction :=
         processInsights
           (map (fun rq => {| Types.az_text := rq;
                              Types.az_correctAnswer := "Verified";
                              Types.az_explanation := None |}) raw) in
       let hashes := map Firebase.getQuestionHash raw in
       saveBlocks 0 (Types.blocks extraction) (Types.domain extraction) hashes ;;;
       ret {| inputText := inputText st; result := Some extraction;
              status := Types.SUCCESS |})
      (fun err =>
         ret {| inputText := inputText st; result := result st; status := Types.ERROR |}).

End WithPlatform.
End Index.

(** ** Notions used to state the properties *)

Module Spec.
Import JS.

(** The value a pattern character is compared by. *)
Definition canon (ignoreCase : bool) (c : ascii) : N :=
  if ignoreCase then canonicalize c else N_of_ascii c.

(** No character of [s] is compared equal to [c]. *)
Fixpoint avoids (ic : bool) (c : ascii) (s : string) : bool :=
  match s with
  | String x s' => negb (canon ic x =? canon ic c)%N && avoids ic c s'
  | EmptyString => true
  end.

Definition matchesAt (ic : bool) (pat s : string) : bool :=
  match matchLiteral ic pat s with Some _ => true | None => false end.

(** The first [k] characters of [s] do not compare equal to [c]. *)
Fixpoint headAvoids (ic : bool) (c : ascii) (k : nat) (s : string) : bool :=
  match k, s with
  | S k', String x s' => negb (canon ic x =? canon ic c)%N && headAvoids ic c k' s'
  | _, _ => true
  end.

(** The number of positions of [s] at which [pat] matches: the number of
    occurrences of [pat] in [s]. *)
Fixpoint occurrences (ic : bool) (pat s : string) : nat :=
  (if matchesAt ic pat s then 1 else 0) +
  match s with
  | String _ s' => occurrences ic pat s'
  | EmptyString => 0
  end.

(** Every character of [s] is white space. *)
Fixpoint allWhite (s : string) : bool :=
  match s with
  | String c s' => isWhiteSpace c && allWhite s'
  | EmptyString => true
  end.

(** Every character of [s] satisfies [P]. *)
Fixpoint allChars (P : ascii -> bool) (s : string) : bool :=
  match s with
  | String c s' => P c && allChars P s'
  | EmptyString => true
  end.

(** The digits of lower-case hexadecimal and their values. *)
Definition hexValue (c : ascii) : option N :=
  let n := N_of_ascii c in
  if ((48 <=? n) && (n <=? 57))%N then Some (n - 48)%N
  else if ((97 <=? n) && (n <=? 102))%N then Some (n - 87)%N
  else None.

Definition isLowerHex (c : ascii) : bool :=
  match hexValue c with Some _ => true | None => false end.

(** Reading back a lower-case hexadecimal encoding, two digits a byte. *)
Fixpoint hex_decode (s : string) : option (list Byte.byte) :=
  match s with
  | EmptyString => Some []
  | String a (String b s') =>
      match hexValue a, hexValue b with
      | Some hi, Some lo =>
          match hex_decode s' with
          | Some bs => Some (Sha256.low_byte (16 * hi + lo) :: bs)
          | None => None
          end
      | _, _ => None
      end
  | String _ EmptyString => None
  end.

(** The line feed. *)
Definition LFc : ascii := "010"%char.

(** A byte as [getQuestionHash] writes it, and a list of bytes. *)
Definition hex2 (b : Byte.byte) : string :=
  Firebase.padStart 2 "0"%char (Firebase.Number_toString16 (Byte.to_N b)).

Definition hex (bs : list Byte.byte) : string := String.concat EmptyString (map hex2 bs).

(** Two characters that are the same letter: equal, or one the lower-case
    form of the other. *)
Definition sameLetter (a b : ascii) : bool :=
  bool_decide (a = b)
  || (isUpper a && bool_decide (toLowerChar a = b))
  || (isUpper b && bool_decide (toLowerChar b = a)).

(** Two texts that differ in letter case only. *)
Fixpoint differOnlyInCase (s t : string) : bool :=
  match s, t with
  | EmptyString, EmptyString => true
  | String a s', String b t' => sameLetter a b && differOnlyInCase s' t'
  | _, _ => false
  end.

(** Two texts that differ only in letter case and in the white space
    around them. *)
Definition sameQuestionText (s t : string) : Prop :=
  exists l1 r1 l2 r2 s' t',
    s = l1 ++ s' ++ r1 /\ t = l2 ++ t' ++ r2 /\
    allWhite l1 = true /\ allWhite r1 = true /\
    allWhite l2 = true /\ allWhite r2 = true /\
    differOnlyInCase s' t' = true.

End Spec.

(** ** Notions about the store used to state the properties *)

Module StoreSpec.
Import Runtime.

Section WithPlatform.
Context `{Platform}.

(** A Firestore handle can be had: one is cached already, or the stored
    configuration (else the build environment) names a project. *)
Definition configured (w : World) : bool :=
  dbInstance w ||
  match localStorage w !! "vault_firebase_config" with
  | Some (String c s) =>
      match JSON_parse_config (String c s) with
      | Some config => negb (bool_decide (projectId config = EmptyString))
      | None => false
      end
  | _ => negb (bool_decide (or_else (env w !! "FIREBASE_PROJECT_ID") EmptyString = EmptyString))
  end.

End WithPlatform.

(** The outcome that the next request to the store will meet. *)
Definition next_outcome (w : World) : StoreOutcome :=
  match storeOutcomes w with
  | o :: _ => o
  | [] => Served
  end.

Definition served (o : StoreOutcome) : bool :=
  match o with Served => true | _ => false end.

(** The store works: a handle can be had and every request is served. *)
Definition healthy `{Platform} (w : World) : Prop :=
  configured w = true /\ Forall (fun o => o = Served) (storeOutcomes w).

(** The store answers: every request is served or rejected, none is left
    waiting for a store that cannot be reached. *)
Definition answered (w : World) : Prop :=
  Forall (fun o => o <> Unreachable) (storeOutcomes w).

(** What the application cannot change: local storage, the environment,
    the replies of the AI endpoint still to come, and the clock. *)
Definition surroundings (w : World) :=
  (localStorage w, env w, aiReplies w, now w).

Definition after_request (w : World) : list StoreOutcome := tail (storeOutcomes w).

Definition normal {A} (c : Completion A) : bool :=
  match c with Normal _ => true | Throw _ => false end.

(** The world after a computation, and the events it added. *)
Definition extends (P : Event -> Prop) (w w' : World) : Prop :=
  exists evs : list Event, events w' = (events w ++ evs)%list /\ Forall P evs.

Definition isLookup (e : Event) : Prop :=
  match e with EvGetDoc _ => True | _ => False end.

Definition isConsole (e : Event) : Prop :=
  match e with EvConsole _ => True | _ => False end.

Definition isNetwork (e : Event) : Prop :=
  match e with
  | EvGetDoc _ | EvSetDoc _ _ | EvGetDocs | EvGenerateContent _ _ => True
  | _ => False
  end.

(** An insight request carries at most [n] questions. *)
Definition batchWithin (n : nat) (e : Event) : Prop :=
  match e with
  | EvGenerateContent _ (InsightRequest qs) => length qs <= n
  | _ => True
  end.

Definition same_vault (w w' : World) : Prop := vault w' = vault w.

(** The key that [getApiKey] finds. *)
Definition apiKey (w : World) : string :=
  if truthy (localStorage w !! "gemini_api_key")
  then or_else (localStorage w !! "gemini_api_key") EmptyString
  else or_else (env w !! "VITE_API_KEY") EmptyString.

(** The text [h] is the hash of some question text. *)
Definition isQuestionHash (h : string) : Prop :=
  exists q, h = Firebase.getQuestionHash q.

(** A write stores, under the hash of some question text, a document that
    records that hash. *)
Definition hashedWrite (e : Event) : Prop :=
  match e with
  | EvSetDoc id d => hash d = id /\ isQuestionHash id
  | _ => True
  end.

(** What every event of a session satisfies. *)
Definition orderly (e : Event) : Prop := batchWithin 6 e /\ hashedWrite e.

(** No document is removed, and a document that is new or changed is
    stored under the hash it records. *)
Definition vault_kept (w w' : World) : Prop :=
  (forall h, is_Some (vault w !! h) -> is_Some (vault w' !! h)) /\
  (forall h d', vault w' !! h = Some d' -> vault w !! h = Some d' \/ hash d' = h).

(** Every document is stored under the hash it records. *)
Definition keyed_by_hash (w : World) : Prop :=
  forall h d, vault w !! h = Some d -> hash d = h.

(** The document that [saveToVault] writes. *)
Definition vaultItem (w : World) (hash domain rule : string) : VaultItem :=
  {| Runtime.hash := hash; Runtime.domain := domain;
     Runtime.foundationalRule := rule; Runtime.masteredAt := now w |}.

(** *** Frames *)

(** A computation [keeps] a relation between worlds when the world it
    leaves is related to the one it started in, however it completes. *)
Definition keeps (R : World -> World -> Prop) {A} (m : Eff A) : Prop :=
  forall w, R w (m w).2.

(** A computation is [quiet] when it adds no event and leaves the vault. *)
Definition quiet {A} (m : Eff A) : Prop :=
  forall w, events (m w).2 = events w /\ vault (m w).2 = vault w.

End StoreSpec.

(** ** Notions about the application state *)

Module AppSpec.

(** A held batch has at most six questions, and its hashes are hashes of
    question texts. *)
Definition pending_ok (st : App.AppState) : Prop :=
  forall pb, App.pendingBatch st = Some pb ->
    length (App.questions pb) <= 6 /\ Forall StoreSpec.isQuestionHash (App.hashes pb).

(** The questions as [executeProcessing] sends them. *)
Definition verified (batch : list string) : list Types.AZ104Question :=
  map (fun rq => {| Types.az_text := rq;
                    Types.az_correctAnswer := "Verified";
                    Types.az_explanation := Some "Verified" |}) batch.

(** The actions that process no batch. *)
Definition passive (a : App.Action) : bool :=
  match a with
  | App.Scan | App.SkipDuplicates | App.ProcessAll => false
  | _ => true
  end.

End AppSpec.

(** ** The vault filter as the specification words it *)

Module ViewSpec.
Import Runtime.
Local Open Scope Z_scope.

(** Local midnight of the calendar day numbered [day], and the last
    millisecond of that day. *)
Definition startOfDay (tza day : Z) : Z := day * JSDate.msPerDay - tza.
Definition endOfDay (tza day : Z) : Z := day * JSDate.msPerDay + (JSDate.msPerDay - 1) - tza.

(** An item mastered at [time] is displayed when its rule or its domain
    contains the search text, letter case apart, and [time] is neither
    before the start of the day selected as [from] nor after the end of
    the day selected as [to]; an empty field ([None]) sets no bound. *)
Definition displayed (tza : Z) (search : string) (from to : option Z)
  (item : VaultItem) (time : Z) : bool :=
  (JS.includes (JS.toLowerCase (foundationalRule item)) (JS.toLowerCase search)
   || JS.includes (JS.toLowerCase (domain item)) (JS.toLowerCase search))
  && match from with Some d => startOfDay tza d <=? time | None => true end
  && match to with Some d => time <=? endOfDay tza d | None => true end.

(** The text of a date field selects the day [d]: the field is empty and
    nothing is selected, or it holds the date of day [d]. *)
Definition selects (field : string) (d : option Z) : Prop :=
  match d with
  | None => field = EmptyString
  | Some day =>
      field <> EmptyString /\ JSDate.Date_parse field = JSDate.Num (day * JSDate.msPerDay)
  end.

(** No item of the list is older than the item before it. *)
Definition newest_first (items : list VaultItem) : Prop :=
  Sorted (fun x y => String.ltb (masteredAt x) (masteredAt y) = false) items.

End ViewSpec.

(** ** Sample data for the worked examples *)

Module Examples.
Import Runtime.

Definition LF : string := Gemini.LF.

Definition q0 : Types.ExtractedQuestion :=
  {| Types.id := "q-1";
     Types.text := "Which peering is transitive?";
     Types.correctAnswer := "None";
     Types.explanation := "Peering is never transitive." |}.

(** A question whose own text quotes the marker of the staging format. *)
Definition q_marker : Types.ExtractedQuestion :=
  {| Types.id := "q-2";
     Types.text := "What follows the line Question: in the export?";
     Types.correctAnswer := "The text";
     Types.explanation := "It is a label." |}.

(** A question that mentions the marker in lower case only. *)
Definition q_lower : Types.ExtractedQuestion :=
  {| Types.id := "q-3";
     Types.text := "Open question: is peering transitive?";
     Types.correctAnswer := "No";
     Types.explanation := "Never." |}.

(** Six labels typed by hand, nothing pushed. *)
Definition typed6 : string :=
  "Question: a Question: b Question: c Question: d Question: e Question: f".

(** Pasted text that starts with an empty line. *)
Definition pasted : string := LF ++ "Question: x".

Definition w_blank : World :=
  {| localStorage := ∅; env := ∅; dbInstance := false; vault := ∅;
     storeOutcomes := []; aiReplies := []; now := "2024-03-10T12:00:00.000Z";
     events := [] |}.

Definition staged (inputText : string) : App.AppState :=
  {| App.inputText := inputText; App.result := None; App.status := Types.IDLE;
     App.error := None; App.pendingBatch := None; App.isApiKeySet := true |}.

End Examples.

(** ** Sample worlds and a sample platform *)

Module Scenario.
Import Runtime.

Definition quote : string := String (ascii_of_nat 34) EmptyString.

(** [{"projectId":"az104-vault"}] *)
Definition config_json : string :=
  "{" ++ quote ++ "projectId" ++ quote ++ ":" ++ quote ++ "az104-vault" ++ quote ++ "}".

(** [{"domain":"Networking","blocks":[{"foundationalRule":"Peering is not transitive."}]}] *)
Definition result_json : string :=
  "{" ++ quote ++ "domain" ++ quote ++ ":" ++ quote ++ "Networking" ++ quote ++ ","
  ++ quote ++ "blocks" ++ quote ++ ":[{" ++ quote ++ "foundationalRule" ++ quote ++ ":"
  ++ quote ++ "Peering is not transitive." ++ quote ++ "}]}".

Definition block (rule : string) : Types.InsightBlock :=
  {| Types.foundationalRule := rule; Types.whyItWorks := EmptyString;
     Types.analogy := EmptyString; Types.analogousFoundationalConcept := EmptyString;
     Types.commonConfusion := EmptyString; Types.examEliminationCue := EmptyString;
     Types.memoryHook := EmptyString |}.

Definition parsed_result : Types.ExtractionResult :=
  {| Types.domain := "Networking";
     Types.blocks := [block "Peering is not transitive."];
     Types.sources := [] |}.

(** A platform that knows [JSON.parse] on the texts of the scenarios and
    takes every other text for malformed; [tza] is its offset from UTC. *)
Definition platform (tza : Z) : Platform :=
  {| JSON_parse_config s :=
       if bool_decide (s = config_json)
       then Some {| projectId := "az104-vault" |} else None;
     JSON_parse_questions s := if bool_decide (s = "[]") then Some [] else None;
     JSON_parse_result s :=
       if bool_decide (s = result_json) then Some parsed_result
       else if bool_decide (s = "{}")
            then Some {| Types.domain := EmptyString; Types.blocks := [];
                         Types.sources := [] |}
            else None;
     JSON_error_message s := "Unexpected token in JSON";
     LocalTZA := tza |}.

(** The answer of the AI: the result in a fenced block. *)
Definition fenced_reply : AiReply :=
  AiResponds (Gemini.fence ++ "json" ++ Gemini.LF ++ result_json ++ Gemini.LF ++ Gemini.fence) [].

(** One staged question and its hash. *)
Definition one_question : string := App.formatQuestion Examples.q0.
Definition h0 : string := Eval vm_compute in Firebase.getQuestionHash one_question.

Definition old_item : VaultItem :=
  {| hash := h0; domain := "Networking"; foundationalRule := "Peering needs a gateway.";
     masteredAt := "2024-01-05T08:30:00.000Z" |}.

Definition new_item : VaultItem :=
  {| hash := h0; domain := "Networking"; foundationalRule := "Peering is not transitive.";
     masteredAt := "2024-03-10T12:00:00.000Z" |}.

(** A browser with both services configured; the vault holds [docs], the
    store meets [outcomes], and the AI has one answer ready. *)
Definition world (docs : gmap string VaultItem) (outcomes : list StoreOutcome)
  (replies : list AiReply) : World :=
  {| localStorage :=
       {[ "vault_firebase_config" := config_json; "gemini_api_key" := "AIza-demo" ]};
     env := ∅; dbInstance := false; vault := docs; storeOutcomes := outcomes;
     aiReplies := replies; now := "2024-03-10T12:00:00.000Z"; events := [] |}.

(** The question is in the vault already. *)
Definition w_known : World := world {[ h0 := old_item ]} [] [fenced_reply].

(** The question is in the vault, and the first request is not served. *)
Definition w_offline : World := world {[ h0 := old_item ]} [Unreachable] [fenced_reply].

(** An empty vault that rejects the write that follows the lookup. *)
Definition w_rejecting : World := world ∅ [Served; Rejected] [fenced_reply].

(** The AI answers with text that is not JSON. *)
Definition w_garbled : World := world ∅ [] [AiResponds "Sorry, I cannot help." []].

Definition insight_request : Event :=
  EvGenerateContent "gemini-2.0-flash-thinking-exp-01-21"
    (InsightRequest (AppSpec.verified [one_question])).

(** A vault item mastered on 9 March 2024 at noon UTC. *)
Definition item_9_march : VaultItem :=
  {| hash := h0; domain := "Networking"; foundationalRule := "Peering is not transitive.";
     masteredAt := "2024-03-09T12:00:00.000Z" |}.

(** New York in winter: five hours behind UTC. *)
Definition new_york : Z := (-18000000)%Z.

(** Eight labelled chunks in the staging area. *)
Definition eight_chunks : string :=
  "Question: 1" ++ App.LF ++ App.LF ++ "Question: 2" ++ App.LF ++ App.LF ++
  "Question: 3" ++ App.LF ++ App.LF ++ "Question: 4" ++ App.LF ++ App.LF ++
  "Question: 5" ++ App.LF ++ App.LF ++ "Question: 6" ++ App.LF ++ App.LF ++
  "Question: 7" ++ App.LF ++ App.LF ++ "Question: 8".

End Scenario.

(** ** Writes to local storage, and the reload of the page *)

Module Storage.
Import Runtime.

(** [localStorage.setItem(key, value)]; the storage is taken to have room. *)
Definition localStorage_setItem (key value : string) : Eff unit :=
  fun w =>
    (Normal tt,
     {| localStorage := <[key := value]> (localStorage w); env := env w;
        dbInstance := dbInstance w; vault := vault w; storeOutcomes := storeOutcomes w;
        aiReplies := aiReplies w; now := now w; events := events w |}).

(** [localStorage.removeItem(key)] *)
Definition localStorage_removeItem (key : string) : Eff unit :=
  fun w =>
    (Normal tt,
     {| localStorage := delete key (localStorage w); env := env w;
        dbInstance := dbInstance w; vault := vault w; storeOutcomes := storeOutcomes w;
        aiReplies := aiReplies w; now := now w; events := events w |}).

(** [window.location.reload()]: the modules are loaded anew, so the
    variable [dbInstance] of [firebase.ts] is [null] again. *)
Definition location_reload : Eff unit := set_dbInstance false.

End Storage.

(** ** [SettingsDrawer.tsx] *)

Module SettingsDrawer.
Import Runtime Storage.
Local Open Scope eff_scope.

(** The four fields of the Firebase form. *)
Record Config := {
  projectId : string;
  apiKey : string;
  authDomain : string;
  appId : string
}.

(** [JSON.stringify] at the type of the form. *)
Class Stringify := { JSON_stringify_config : Config -> string }.

Record State := { geminiApiKey : string; config : Config }.

Definition configuration_saved : string :=
  "Configuration saved. Refreshing application state...".

(** [useState(() => localStorage.getItem('gemini_api_key') || '')] *)
Definition initialGeminiApiKey : Eff string :=
  let! k := localStorage_getItem "gemini_api_key" in
  ret (or_else k EmptyString).

Definition save `{Stringify} (s : State) : Eff unit :=
  (if bool_decide (JS.trim (geminiApiKey s) = EmptyString)
   then localStorage_removeItem "gemini_api_key"
   else localStorage_setItem "gemini_api_key" (JS.trim (geminiApiKey s))) ;;;
  localStorage_setItem "vault_firebase_config" (JSON_stringify_config (config s)) ;;;
  alert configuration_saved ;;;
  location_reload.

End SettingsDrawer.

(** ** [App.tsx]: the staging text kept in local storage *)

Module AppSession.
Import Runtime Storage.
Local Open Scope eff_scope.

Definition STORAGE_KEY_INPUT : string := "analogical_insight_input".

Section WithPlatform.
Context `{Platform}.

(** The effect [localStorage.setItem(STORAGE_KEY_INPUT, inputText)]. *)
Definition persistInput (st : App.AppState) : Eff unit :=
  localStorage_setItem STORAGE_KEY_INPUT (App.inputText st).

(** The first render: the initial values of the state variables, then the
    effect that depends on [inputText]. *)
Definition mount : Eff App.AppState :=
  let! saved := localStorage_getItem STORAGE_KEY_INPUT in
  let! key := App.checkApiKey in
  let st :=
    {| App.inputText := or_else saved EmptyString; App.result := None;
       App.status := Types.IDLE; App.error := None; App.pendingBatch := None;
       App.isApiKeySet := key |} in
  persistInput st ;;;
  ret st.

(** [handleReset] with its last statement,
    [localStorage.removeItem(STORAGE_KEY_INPUT)]. *)
Definition handleReset (st : App.AppState) : Eff App.AppState :=
  localStorage_removeItem STORAGE_KEY_INPUT ;;;
  ret (App.handleReset st).

(** An action, followed by the render it causes: the effect runs when
    [inputText] has changed. *)
Definition dispatch (a : App.Action) (st : App.AppState) : Eff App.AppState :=
  let! st' :=
    match a with
    | App.Reset => handleReset st
    | _ => App.step a st
    end in
  (if bool_decide (App.inputText st' = App.inputText st) then ret tt
   else persistInput st') ;;;
  ret st'.

Fixpoint session (actions : list App.Action) (st : App.AppState) : Eff App.AppState :=
  match actions with
  | [] => ret st
  | a :: rest => let! st' := dispatch a st in session rest st'
  end.

(** The page is reloaded and the application mounts again. *)
Definition restart : Eff App.AppState :=
  location_reload ;;;
  mount.

End WithPlatform.
End AppSession.

(** ** [InputSection.tsx] and the properties [App.tsx] passes to it *)

Module InputSection.
Import Runtime.

Record Props := {
  value : string;
  loading : bool;
  error : option string;
  duplicateCount : nat;
  stagedCount : nat
}.

#[global] Instance ProcessingStatus_eq_dec : EqDecision Types.ProcessingStatus.
Proof. solve_decision. Defined.

Definition hasDuplicates (p : Props) : bool := (0 <? duplicateCount p)%nat.

(** [{hasDuplicates && !loading && (...)}]: the prompt with the two buttons *)
Definition duplicatePrompt (p : Props) : bool := hasDuplicates p && negb (loading p).

(** [{error && (...)}] *)
Definition errorBanner (p : Props) : bool := truthy (error p).

(** [{!hasDuplicates && (...)}]: the button that starts the scan *)
Definition analyzeButton (p : Props) : bool := negb (hasDuplicates p).

(** [disabled={loading || stagedCount === 0}] *)
Definition analyzeDisabled (p : Props) : bool := loading p || (stagedCount p =? 0)%nat.

(** The properties of [<InputSection ... />] in [App.tsx]. *)
Definition props (st : App.AppState) : Props :=
  {| value := App.inputText st;
     loading := bool_decide (App.status st = Types.LOADING);
     error := App.error st;
     duplicateCount :=
       match App.pendingBatch st with
       | Some pb => length (App.duplicateIndices pb)
       | None => 0
       end;
     stagedCount := App.stagedCount (App.inputText st) |}.

(** The scan can be started from the page: the staging area is on display
    ([result] is [null]) with its button, and the button is enabled. *)
Definition canAnalyze (st : App.AppState) : bool :=
  match App.result st with None => true | Some _ => false end
  && analyzeButton (props st) && negb (analyzeDisabled (props st)).

End InputSection.

(** ** [AnswerExtractor.tsx] *)

Module AnswerExtractor.
Import Runtime.
Local Open Scope eff_scope.

Record State := {
  input : string;
  pdfData : option string;
  pdfName : option string;
  loading : bool;
  results : list Types.ExtractedQuestion;
  pushedIds : gset string;
  error : option string
}.

Definition setLoading (v : bool) (s : State) : State :=
  {| input := input s; pdfData := pdfData s; pdfName := pdfName s; loading := v;
     results := results s; pushedIds := pushedIds s; error := error s |}.
Definition setResults (v : list Types.ExtractedQuestion) (s : State) : State :=
  {| input := input s; pdfData := pdfData s; pdfName := pdfName s; loading := loading s;
     results := v; pushedIds := pushedIds s; error := error s |}.
Definition setPushedIds (v : gset string) (s : State) : State :=
  {| input := input s; pdfData := pdfData s; pdfName := pdfName s; loading := loading s;
     results := results s; pushedIds := v; error := error s |}.
Definition setError (v : option string) (s : State) : State :=
  {| input := input s; pdfData := pdfData s; pdfName := pdfName s; loading := loading s;
     results := results s; pushedIds := pushedIds s; error := v |}.
Definition setPdf (data name : option string) (s : State) : State :=
  {| input := input s; pdfData := data; pdfName := name; loading := loading s;
     results := results s; pushedIds := pushedIds s; error := error s |}.

(** [q.id || q.text] *)
Definition pushKey (q : Types.ExtractedQuestion) : string :=
  or_else (Some (Types.id q)) (Types.text q).

(** [pushedIds.has(q.id || q.text)] *)
Definition isPushed (q : Types.ExtractedQuestion) (s : State) : bool :=
  bool_decide (pushKey q ∈ pushedIds s).

(** [disabled={buttonDisabled}] of the button of a result *)
Definition buttonDisabled (isStagingFull : bool) (q : Types.ExtractedQuestion) (s : State)
  : bool :=
  isPushed q s || isStagingFull.

Section WithPlatform.
Context `{Platform}.

Definition handleExtract (isApiKeySet : bool) (s : State) : Eff State :=
  if (bool_decide (JS.trim (input s) = EmptyString) && negb (truthy (pdfData s)))
     || negb isApiKeySet
  then ret s
  else
    let s1 := setPushedIds ∅ (setError None (setLoading true s)) in
    let! s2 :=
      try_catch
        (let! questions :=
           Gemini.cleanAndExtractAnswers (input s)
             (if truthy (pdfData s) then pdfData s else None) in
         ret (setResults questions s1))
        (fun err =>
           ret (setError (Some (or_else (Some (message err)) "Extraction failed.")) s1)) in
    ret (setLoading false s2).

End WithPlatform.

(** [handlePushClick], [onPush] acting on the state [S] of the parent. *)
Definition handlePushClick {S : Type} (isStagingFull : bool)
  (onPush : Types.ExtractedQuestion -> S -> Eff S)
  (q : Types.ExtractedQuestion) (s : State) (parent : S) : Eff (State * S) :=
  if isStagingFull then ret (s, parent)
  else
    let! parent' := onPush q parent in
    ret (setPushedIds (pushedIds s ∪ {[ pushKey q ]}) s, parent').

Definition clearStagedFile (s : State) : State := setPdf None None s.

(** The button of a result as [App.tsx] wires it: [isStagingFull] is the
    value derived from the staging text, [onPush] is [handlePushToEngine]. *)
Definition pushFromApp (q : Types.ExtractedQuestion) (s : State) (st : App.AppState)
  : Eff (State * App.AppState) :=
  handlePushClick (App.isStagingFull (App.inputText st)) App.handlePushToEngine q s st.

End AnswerExtractor.

(** ** [VaultView.tsx]: the three filter fields *)

Module VaultFilters.
Import Runtime.

Record Filters := { search : string; startDate : string; endDate : string }.

Definition clearFilters (f : Filters) : Filters :=
  {| search := EmptyString; startDate := EmptyString; endDate := EmptyString |}.

(** The items on display under the filters [f]. *)
Definition filteredItems `{Platform} (items : list VaultItem) (f : Filters) : list VaultItem :=
  VaultView.filteredItems items (search f) (startDate f) (endDate f).

End VaultFilters.

(** ** [index.tsx]: reading the vault *)

Module IndexVault.
Import Runtime.
Local Open Scope eff_scope.

Section WithPlatform.
Context `{Platform}.

Definition fetchVault : Eff (list VaultItem) :=
  try_catch
    (let! db := Index.getDb in
     if negb db then ret []
     else getDocs_by_masteredAt_desc)
    (fun e => ret []).

End WithPlatform.
End IndexVault.

(** ** Further notions used to state properties *)

Module TextSpec.
Import JS Spec.

(** The text after its first [k] characters. *)
Fixpoint skipChars (k : nat) (s : string) : string :=
  match k, s with
  | S k', String _ s' => skipChars k' s'
  | _, _ => s
  end.

(** The occurrences of [pat] in the chunks of a list, added up. *)
Definition occurrencesIn (ic : bool) (pat : string) (chunks : list string) : nat :=
  list_sum (map (occurrences ic pat) chunks).

(** No character of the pattern is white space. *)
Definition solid (ic : bool) (pat : string) : Prop :=
  forall c, isWhiteSpace c = true -> avoids ic c pat = true.

(** The backtick, and a text that holds none. *)
Definition tick : ascii := "`"%char.
Definition noBacktick (s : string) : bool := avoids false tick s.

(** Reading back UTF-8 that encodes code points below U+0100: one byte
    below 0x80, or a lead byte 0xC2 or 0xC3 and a continuation byte. *)
Fixpoint utf8_decode (bs : list Byte.byte) : option string :=
  match bs with
  | [] => Some EmptyString
  | b :: bs' =>
      let n := Byte.to_N b in
      if (n <? 128)%N then
        match utf8_decode bs' with
        | Some s => Some (String (ascii_of_N n) s)
        | None => None
        end
      else
        match bs' with
        | b2 :: bs'' =>
            let m := Byte.to_N b2 in
            if ((194 <=? n) && (n <=? 195) && (128 <=? m) && (m <=? 191))%N then
              match utf8_decode bs'' with
              | Some s => Some (String (ascii_of_N ((n - 192) * 64 + (m - 128))) s)
              | None => None
              end
            else None
        | [] => None
        end
  end.

End TextSpec.

Module SessionSpec.
Import Runtime.

(** A batch as a scan holds it: up to six questions that carry the marker,
    their hashes in the same order, and at least one index of a duplicate,
    every index being a position of the batch. *)
Definition held (pb : App.PendingBatch) : Prop :=
  App.questions pb <> []
  /\ length (App.questions pb) <= 6
  /\ Forall (fun c => JS.includes c "Question:" = true) (App.questions pb)
  /\ App.hashes pb = map Firebase.getQuestionHash (App.questions pb)
  /\ App.duplicateIndices pb <> []
  /\ Forall (fun i => (0 <= i < Z.of_nat (length (App.questions pb)))%Z)
            (App.duplicateIndices pb).


(** The event is no request to the AI and no write to the vault. *)
Definition harmless (e : Event) : Prop :=
  match e with
  | EvGenerateContent _ _ | EvSetDoc _ _ => False
  | _ => True
  end.

(** The event is no lookup of a document. *)
Definition noLookup (e : Event) : Prop :=
  match e with
  | EvGetDoc _ => False
  | _ => True
  end.

(** A write goes under the hash of a question of the batch that stands at a
    position outside [idx]. *)
Definition writesOutside (idx : list Z) (hashes : list string) (e : Event) : Prop :=
  match e with
  | EvSetDoc id _ => exists n, hashes !! n = Some id /\ Z.of_nat n ∉ idx
  | _ => True
  end.

(** The writes that store the blocks of an answer: block [k] under hash
    [k], as far as both lists go. *)
Definition blockWrites (w : World) (domain : string) (hashes : list string)
  (blocks : list Types.InsightBlock) : list (string * VaultItem) :=
  map (fun p : string * Types.InsightBlock =>
         (p.1, StoreSpec.vaultItem w p.1 domain (Types.foundationalRule p.2)))
      (filter (fun p : string * Types.InsightBlock => p.1 <> EmptyString)
              (zip hashes blocks)).

(** The event is no write to the vault. *)
Definition noWrite (e : Event) : Prop :=
  match e with
  | EvSetDoc _ _ => False
  | _ => True
  end.

(** The local storage is as it was. *)
Definition sameStorage (w w' : World) : Prop := localStorage w' = localStorage w.

(** The staging text is the one in local storage. *)
Definition stored (w : World) (st : App.AppState) : Prop :=
  or_else (localStorage w !! AppSession.STORAGE_KEY_INPUT) EmptyString = App.inputText st.

(** The local storage has the same entries apart from the one under [key]. *)
Definition sameStorageBut (key : string) (w w' : World) : Prop :=
  forall k, k <> key -> localStorage w' !! k = localStorage w !! k.

End SessionSpec.

(** ** Sample data for the further properties *)

Module Samples.
Import Runtime.

(** A form that names a project, or none when [project] is empty. *)
Definition form (project : string) : SettingsDrawer.Config :=
  {| SettingsDrawer.projectId := project; SettingsDrawer.apiKey := EmptyString;
     SettingsDrawer.authDomain := EmptyString; SettingsDrawer.appId := EmptyString |}.

Definition quoted (s : string) : string := Scenario.quote ++ s ++ Scenario.quote.

(** [JSON.stringify] of a form whose fields need no escaping. *)
Definition stringify (c : SettingsDrawer.Config) : string :=
  "{" ++ quoted "projectId" ++ ":" ++ quoted (SettingsDrawer.projectId c) ++ ","
  ++ quoted "apiKey" ++ ":" ++ quoted (SettingsDrawer.apiKey c) ++ ","
  ++ quoted "authDomain" ++ ":" ++ quoted (SettingsDrawer.authDomain c) ++ ","
  ++ quoted "appId" ++ ":" ++ quoted (SettingsDrawer.appId c) ++ "}".

Definition writer : SettingsDrawer.Stringify :=
  {| SettingsDrawer.JSON_stringify_config := stringify |}.

(** The text up to the next double quote. *)
Fixpoint untilQuote (s : string) : string :=
  match s with
  | String c s' =>
      if bool_decide (c = ascii_of_nat 34) then EmptyString else String c (untilQuote s')
  | EmptyString => EmptyString
  end.

(** A platform that reads the project of a configuration whose first field
    it is, and that is the platform of the scenarios otherwise. *)
Definition browser (tza : Z) : Platform :=
  {| JSON_parse_config s :=
       match JS.matchLiteral false ("{" ++ quoted "projectId" ++ ":" ++ Scenario.quote) s with
       | Some (_, r) => Some {| Runtime.projectId := untilQuote r |}
       | None => None
       end;
     JSON_parse_questions := @JSON_parse_questions (Scenario.platform tza);
     JSON_parse_result := @JSON_parse_result (Scenario.platform tza);
     JSON_error_message := @JSON_error_message (Scenario.platform tza);
     LocalTZA := tza |}.

(** A browser whose build environment names a Firebase project and a key. *)
Definition w_env : World :=
  {| localStorage := ∅;
     env := {[ "FIREBASE_PROJECT_ID" := "az104-build"; "VITE_API_KEY" := "AIza-build" ]};
     dbInstance := false; vault := ∅; storeOutcomes := []; aiReplies := [];
     now := "2024-03-10T12:00:00.000Z"; events := [] |}.

(** A second question, and a batch of two held by a scan that found the
    first one in the vault. *)
Definition other_question : string :=
  App.formatQuestion
    {| Types.id := "q-4"; Types.text := "What does a route table hold?";
       Types.correctAnswer := "Routes"; Types.explanation := "It holds routes." |}.

Definition batch_of_two : App.PendingBatch :=
  {| App.questions := [Scenario.one_question; other_question];
     App.hashes := map Firebase.getQuestionHash [Scenario.one_question; other_question];
     App.duplicateIndices := [0%Z] |}.

Definition prompted (pb : App.PendingBatch) : App.AppState :=
  {| App.inputText := Scenario.one_question; App.result := None; App.status := Types.IDLE;
     App.error := None; App.pendingBatch := Some pb; App.isApiKeySet := true |}.

(** The batch of the scenarios, whose one question is a duplicate. *)
Definition batch_of_one : App.PendingBatch :=
  {| App.questions := [Scenario.one_question]; App.hashes := [Scenario.h0];
     App.duplicateIndices := [0%Z] |}.

(** The scraper with text pasted in and nothing extracted yet. *)
Definition scraper (text : string) : AnswerExtractor.State :=
  {| AnswerExtractor.input := text; AnswerExtractor.pdfData := None;
     AnswerExtractor.pdfName := None; AnswerExtractor.loading := false;
     AnswerExtractor.results := []; AnswerExtractor.pushedIds := ∅;
     AnswerExtractor.error := None |}.

End Samples.

(** ** JavaScript strings in full: sequences of UTF-16 code units

    [getQuestionHash] is applied to whatever text is staged.  Here it is
    embedded once more on strings of arbitrary code units, with the
    built-ins it calls in full: [trim] with the whole of [WhiteSpace] and
    [LineTerminator], [toLowerCase] with the two mappings of
    [SpecialCasing.txt] that do not depend on the language, and
    [TextEncoder.encode] with surrogate pairs and lone surrogates. *)

Module UString.
Local Open Scope N_scope.

(** A string is a list of code units; each code unit of a string is below
    [2^16]. *)
Definition ustring : Type := list N.

Definition isString (s : ustring) : Prop := Forall (fun u => u < 65536) s.

(** The characters of a text of code units below U+0100. *)
Definition ofString (s : string) : ustring :=
  map N_of_ascii (list_ascii_of_string s).

(** [WhiteSpace] (TAB, VT, FF, ZWNBSP and the category [Zs]) and
    [LineTerminator] (LF, CR, LS, PS). *)
Definition isWhiteSpace (u : N) : bool :=
  (u =? 0x9) || (u =? 0xA) || (u =? 0xB) || (u =? 0xC) || (u =? 0xD)
  || (u =? 0x20) || (u =? 0xA0) || (u =? 0x1680)
  || ((0x2000 <=? u) && (u <=? 0x200A))
  || (u =? 0x2028) || (u =? 0x2029) || (u =? 0x202F) || (u =? 0x205F)
  || (u =? 0x3000) || (u =? 0xFEFF).

Fixpoint trimStart (s : ustring) : ustring :=
  match s with
  | u :: s' => if isWhiteSpace u then trimStart s' else s
  | [] => []
  end.

Fixpoint trimEnd (s : ustring) : ustring :=
  match s with
  | u :: s' =>
      match trimEnd s' with
      | [] => if isWhiteSpace u then [] else [u]
      | t => u :: t
      end
  | [] => []
  end.

(** [String.prototype.trim] *)
Definition trim (s : ustring) : ustring := trimEnd (trimStart s).

Definition isLeadSurrogate (u : N) : bool := (0xD800 <=? u) && (u <=? 0xDBFF).
Definition isTrailSurrogate (u : N) : bool := (0xDC00 <=? u) && (u <=? 0xDFFF).
Definition isSurrogate (c : N) : bool := (0xD800 <=? c) && (c <=? 0xDFFF).

(** [StringToCodePoints]: a lead surrogate and the trail surrogate after
    it make one code point; every other code unit, a lone surrogate
    included, is a code point by itself. *)
Fixpoint codePoints (s : ustring) : list N :=
  match s with
  | a :: s' =>
      match s' with
      | b :: s'' =>
          if isLeadSurrogate a && isTrailSurrogate b
          then (0x10000 + (a - 0xD800) * 0x400 + (b - 0xDC00)) :: codePoints s''
          else a :: codePoints s'
      | [] => [a]
      end
  | [] => []
  end.

(** [UTF16EncodeCodePoint] *)
Definition utf16 (c : N) : ustring :=
  if c <? 0x10000 then [c]
  else [0xD800 + (c - 0x10000) / 0x400; 0xDC00 + (c - 0x10000) mod 0x400].

(** [CodePointsToString] *)
Definition ofCodePoints (cs : list N) : ustring := flat_map utf16 cs.

(** What [toLowerCase] takes from the Unicode Character Database: the
    simple lower-case mapping of [UnicodeData.txt], and the condition
    [Final_Sigma] of [SpecialCasing.txt] on the code points before a
    sigma, nearest first, and on those after it. *)
Class CaseData := {
  simpleLowercase : N -> N;
  finalSigma : list N -> list N -> bool
}.

Definition capitalSigma : N := 0x3A3.
Definition capitalIDot : N := 0x130.

Section WithCaseData.
Context `{CaseData}.

(** The lower-case mapping of one code point in its context: U+0130 has
    the two code points U+0069 U+0307, U+03A3 is the final sigma U+03C2
    or the sigma U+03C3, every other code point has its simple mapping. *)
Definition lowerCodePoint (before : list N) (c : N) (after : list N) : list N :=
  if c =? capitalIDot then [0x69; 0x307]
  else if c =? capitalSigma then (if finalSigma before after then [0x3C2] else [0x3C3])
  else [simpleLowercase c].

(** [toLowercase] of the code points, [before] holding in reverse the
    code points already passed. *)
Fixpoint lowerGo (before : list N) (cs : list N) : list N :=
  match cs with
  | c :: rest => lowerCodePoint before c rest ++ lowerGo (c :: before) rest
  | [] => []
  end.

(** [String.prototype.toLowerCase] *)
Definition toLowerCase (s : ustring) : ustring :=
  ofCodePoints (lowerGo [] (codePoints s)).

End WithCaseData.

(** The scalar value that the encoder takes for a code point: U+FFFD in
    place of a surrogate. *)
Definition scalarValue (c : N) : N := if isSurrogate c then 0xFFFD else c.

(** UTF-8 of a scalar value. *)
Definition utf8 (c : N) : list Byte.byte :=
  if c <? 0x80 then [Sha256.low_byte c]
  else if c <? 0x800 then
    [Sha256.low_byte (0xC0 + c / 0x40); Sha256.low_byte (0x80 + c mod 0x40)]
  else if c <? 0x10000 then
    [Sha256.low_byte (0xE0 + c / 0x1000);
     Sha256.low_byte (0x80 + (c / 0x40) mod 0x40);
     Sha256.low_byte (0x80 + c mod 0x40)]
  else
    [Sha256.low_byte (0xF0 + c / 0x40000);
     Sha256.low_byte (0x80 + (c / 0x1000) mod 0x40);
     Sha256.low_byte (0x80 + (c / 0x40) mod 0x40);
     Sha256.low_byte (0x80 + c mod 0x40)].

(** [new TextEncoder().encode] *)
Definition TextEncoder_encode (s : ustring) : list Byte.byte :=
  flat_map (fun c => utf8 (scalarValue c)) (codePoints s).

(** [getQuestionHash] of [firebase.ts] *)
Definition getQuestionHash `{CaseData} (text : ustring) : string :=
  let msgUint8 := TextEncoder_encode (toLowerCase (trim text)) in
  let hashBuffer := Sha256.digest msgUint8 in
  let hashArray := hashBuffer in
  String.concat ""
    (map (fun b => Firebase.padStart 2 "0"%char
                     (Firebase.Number_toString16 (Byte.to_N b))) hashArray).

End UString.

(** ** Notions used to state the properties of the hash of a string *)

Module UStringSpec.
Import UString.
Local Open Scope N_scope.

(** Every code unit of [s] is white space. *)
Definition allWhite (s : ustring) : bool := forallb isWhiteSpace s.



(** Below U+0100 the simple lower-case mapping is the one of
    [JS.toLowerChar]. *)
Definition latin1_agrees `{CaseData} : Prop :=
  forall n, n < 256 -> simpleLowercase n = N_of_ascii (JS.toLowerChar (ascii_of_N n)).

(** The scalar values that the encoder reads in a string. *)
Definition scalarValues (s : ustring) : list N := map scalarValue (codePoints s).

(** No surrogate of [s] stands alone. *)
Definition wellFormed (s : ustring) : Prop :=
  Forall (fun c => isSurrogate c = false) (codePoints s).

(** The value of a continuation byte. *)
Definition continuation (b : Byte.byte) : option N :=
  let m := Byte.to_N b in
  if (0x80 <=? m) && (m <=? 0xBF) then Some (m - 0x80) else None.

(** Reading back UTF-8 as the encoder writes it: one byte below 0x80, or
    a lead byte and one, two or three continuation bytes. *)
Fixpoint utf8_decode (bs : list Byte.byte) : option (list N) :=
  match bs with
  | [] => Some []
  | b0 :: r0 =>
      let n := Byte.to_N b0 in
      if n <? 0x80 then option_map (cons n) (utf8_decode r0)
      else if n <? 0xE0 then
        match r0 with
        | b1 :: r1 =>
            match continuation b1 with
            | Some x1 => option_map (cons ((n - 0xC0) * 0x40 + x1)) (utf8_decode r1)
            | None => None
            end
        | [] => None
        end
      else if n <? 0xF0 then
        match r0 with
        | b1 :: b2 :: r2 =>
            match continuation b1, continuation b2 with
            | Some x1, Some x2 =>
                option_map (cons ((n - 0xE0) * 0x1000 + x1 * 0x40 + x2)) (utf8_decode r2)
            | _, _ => None
            end
        | _ => None
        end
      else
        match r0 with
        | b1 :: b2 :: b3 :: r3 =>
            match continuation b1, continuation b2, continuation b3 with
            | Some x1, Some x2, Some x3 =>
                option_map (cons ((n - 0xF0) * 0x40000 + x1 * 0x1000 + x2 * 0x40 + x3))
                           (utf8_decode r3)
            | _, _, _ => None
            end
        | _ => None
        end
  end.

End UStringSpec.

(** ** Sample letters *)

Module Letters.
Import UString.
Local Open Scope N_scope.

(** The capital letters of Basic Latin, of Latin-1 and of the Greek
    alphabet (U+0391 to U+03AB) with their lower-case forms, and U+0130;
    every other code point is taken as it is. *)
Definition lower (c : N) : N :=
  if (0x41 <=? c) && (c <=? 0x5A) then c + 32
  else if (0xC0 <=? c) && (c <=? 0xDE) && negb (c =? 0xD7) then c + 32
  else if c =? 0x130 then 0x69
  else if (0x391 <=? c) && (c <=? 0x3AB) && negb (c =? 0x3A2) then c + 32
  else c.

(** The cased letters of the same ranges. *)
Definition cased (c : N) : bool :=
  (0x41 <=? c) && (c <=? 0x5A) || (0x61 <=? c) && (c <=? 0x7A)
  || (c =? 0xAA) || (c =? 0xB5) || (c =? 0xBA)
  || (0xC0 <=? c) && (c <=? 0xFF) && negb (c =? 0xD7) && negb (c =? 0xF7)
  || (0x391 <=? c) && (c <=? 0x3AB) && negb (c =? 0x3A2)
  || (0x3B1 <=? c) && (c <=? 0x3CB).

(** The case-ignorable characters below U+0100, and the combining
    diacritical marks. *)
Definition caseIgnorable (c : N) : bool :=
  (c =? 0x27) || (c =? 0x2E) || (c =? 0x3A) || (c =? 0x5E) || (c =? 0x60)
  || (c =? 0xA8) || (c =? 0xAD) || (c =? 0xAF) || (c =? 0xB4) || (c =? 0xB7)
  || (c =? 0xB8) || (0x300 <=? c) && (c <=? 0x36F).

(** Past the case-ignorable characters stands a cased letter. *)
Fixpoint reachesCased (cs : list N) : bool :=
  match cs with
  | c :: rest => if caseIgnorable c then reachesCased rest else cased c
  | [] => false
  end.

Definition caseData : CaseData :=
  {| simpleLowercase := lower;
     finalSigma before after := reachesCased before && negb (reachesCased after) |}.



End Letters.

(** * Properties *)

(** ** Facts about the string built-ins *)

Module StringFacts.
Import JS Spec.

Lemma append_cons (x : ascii) (a b : string) : String x a ++ b = String x (a ++ b).
Proof. reflexivity. Qed.

Lemma append_nil (b : string) : EmptyString ++ b = b.
Proof. reflexivity. Qed.

Lemma append_assoc (a b c : string) : (a ++ b) ++ c = a ++ (b ++ c).
Proof.
  induction a as [|x a IH]; [reflexivity|].
  rewrite !append_cons. now rewrite IH.
Qed.

Lemma append_empty_r (a : string) : a ++ EmptyString = a.
Proof.
  induction a as [|x a IH]; [reflexivity|].
  rewrite append_cons. now rewrite IH.
Qed.

Lemma length_append (a b : string) :
  String.length (a ++ b) = String.length a + String.length b.
Proof.
  induction a as [|x a IH]; [reflexivity|].
  rewrite append_cons. simpl. now rewrite IH.
Qed.

Lemma charMatches_canon ic p c :
  charMatches ic p c = (canon ic p =? canon ic c)%N.
Proof.
  unfold charMatches, canon. destruct ic; [reflexivity|].
  destruct (decide (p = c)) as [->|Hne].
  - rewrite bool_decide_eq_true_2 by reflexivity. now rewrite N.eqb_refl.
  - rewrite bool_decide_eq_false_2 by assumption.
    symmetry. apply N.eqb_neq. intros Heq. apply Hne.
    rewrite <- (ascii_N_embedding p), <- (ascii_N_embedding c). now rewrite Heq.
Qed.

Lemma matchLiteral_split ic pat s m r :
  matchLiteral ic pat s = Some (m, r) ->
  s = m ++ r /\ String.length m = String.length pat.
Proof.
  revert s m r. induction pat as [|p pat IH]; intros s m r; simpl.
  - intros [= <- <-]. split; reflexivity.
  - destruct s as [|c s]; [discriminate|].
    destruct (charMatches ic p c); [|discriminate].
    destruct (matchLiteral ic pat s) as [[m' r']|] eqn:E; [|discriminate].
    intros [= <- <-]. destruct (IH _ _ _ E) as [-> Hl].
    rewrite append_cons. simpl. split; congruence.
Qed.

(** A match compares equal to the pattern, character by character. *)
Lemma matchLiteral_avoids ic pat s m r c :
  matchLiteral ic pat s = Some (m, r) -> avoids ic c pat = true -> avoids ic c m = true.
Proof.
  revert s m r. induction pat as [|p pat IH]; intros s m r; simpl.
  - intros [= <- <-] _. reflexivity.
  - destruct s as [|x s]; [discriminate|].
    rewrite charMatches_canon.
    destruct (canon ic p =? canon ic x)%N eqn:Ec; [|discriminate].
    destruct (matchLiteral ic pat s) as [[m' r']|] eqn:E; [|discriminate].
    intros [= <- <-] Ha. apply andb_prop in Ha as [Hp Hrest].
    simpl. apply N.eqb_eq in Ec. rewrite <- Ec, Hp. simpl. eauto.
Qed.

(** A pattern in which no character compares equal to [c] matches at the
    start of [s ++ c u] exactly when it matches at the start of [s]. *)
Lemma matchesAt_before ic pat s c u :
  avoids ic c pat = true ->
  matchesAt ic pat (s ++ String c u) = matchesAt ic pat s.
Proof.
  unfold matchesAt.
  revert s. induction pat as [|p pat IH]; intros s Ha; [reflexivity|].
  simpl in Ha. apply andb_prop in Ha as [Hp Hrest]. apply negb_true_iff in Hp.
  destruct s as [|x s]; [rewrite append_nil | rewrite append_cons]; simpl.
  - now rewrite charMatches_canon, Hp.
  - destruct (charMatches ic p x); [|reflexivity].
    specialize (IH s Hrest).
    destruct (matchLiteral ic pat (s ++ String c u)) as [[? ?]|],
             (matchLiteral ic pat s) as [[? ?]|]; (reflexivity || discriminate).
Qed.

(** ** Counting the matches of a literal pattern

    [p0 :: rest] is a pattern whose first character occurs nowhere else in
    it, so that two matches never overlap. *)

Section Counting.
Variable ic : bool.
Variables (p0 : ascii) (rest : string).
Hypothesis borderless : avoids ic p0 rest = true.

Let pat : string := String p0 rest.

Lemma matchesAt_head_mismatch x s :
  (canon ic x =? canon ic p0)%N = false -> matchesAt ic pat (String x s) = false.
Proof.
  intros Hx. unfold matchesAt, pat. simpl.
  rewrite charMatches_canon, N.eqb_sym, Hx. reflexivity.
Qed.

Lemma matchesAt_empty : matchesAt ic pat EmptyString = false.
Proof. reflexivity. Qed.

Lemma headAvoids_app m r :
  avoids ic p0 m = true -> headAvoids ic p0 (String.length m) (m ++ r) = true.
Proof.
  induction m as [|x m IH]; [reflexivity|].
  rewrite append_cons. simpl. intros Ha. apply andb_prop in Ha as [-> Hm]. simpl. auto.
Qed.

Lemma scanLiteral_here q x s :
  scanLiteral ic q 0 (String x s) =
  match matchLiteral ic q (String x s) with
  | Some (m, _) => m :: scanLiteral ic q (String.length m - 1) s
  | None => scanLiteral ic q 0 s
  end.
Proof. reflexivity. Qed.

Lemma occurrences_cons q x s :
  occurrences ic q (String x s) =
  (if matchesAt ic q (String x s) then 1 else 0) + occurrences ic q s.
Proof. reflexivity. Qed.

(** The scan finds one match per position at which the pattern matches. *)
Lemma scanLiteral_length k s :
  headAvoids ic p0 k s = true ->
  length (scanLiteral ic pat k s) = occurrences ic pat s.
Proof.
  revert k. induction s as [|x s IH]; intros k Hk; [reflexivity|].
  destruct k as [|k].
  - rewrite scanLiteral_here, occurrences_cons. unfold matchesAt.
    destruct (matchLiteral ic pat (String x s)) as [[m r]|] eqn:E.
    + simpl length. simpl Nat.add. f_equal.
      unfold pat in E. simpl in E.
      destruct (charMatches ic p0 x); [|discriminate].
      destruct (matchLiteral ic rest s) as [[m' r']|] eqn:E'; [|discriminate].
      injection E as <- <-.
      replace (String.length (String x m') - 1) with (String.length m')
        by (simpl; lia).
      apply IH.
      destruct (matchLiteral_split _ _ _ _ _ E') as [-> _].
      apply headAvoids_app. eapply matchLiteral_avoids; eassumption.
    + simpl Nat.add. apply IH. reflexivity.
  - simpl in Hk. apply andb_prop in Hk as [Hx Hk]. apply negb_true_iff in Hx.
    rewrite occurrences_cons, (matchesAt_head_mismatch _ _ Hx).
    simpl. now apply IH.
Qed.

Lemma match_g_count s :
  length (default [] (match_g ic pat s)) = occurrences ic pat s.
Proof.
  unfold match_g. rewrite <- (scanLiteral_length 0 s) by reflexivity.
  now destruct (scanLiteral ic pat 0 s).
Qed.

(** Occurrences do not straddle a character foreign to the pattern. *)
Lemma occurrences_app_sep c s u :
  avoids ic c pat = true ->
  occurrences ic pat (s ++ String c u) = occurrences ic pat s + occurrences ic pat u.
Proof.
  intros Hc.
  assert (Hc0 : (canon ic c =? canon ic p0)%N = false).
  { unfold pat in Hc. simpl in Hc. apply andb_prop in Hc as [Hc _].
    apply negb_true_iff in Hc. now rewrite N.eqb_sym. }
  induction s as [|x s IH].
  - rewrite append_nil, occurrences_cons.
    now rewrite (matchesAt_head_mismatch _ _ Hc0).
  - rewrite append_cons, !occurrences_cons, <- append_cons.
    rewrite (matchesAt_before _ _ _ _ _ Hc), IH. lia.
Qed.

(** A prefix without the first character of the pattern starts no match. *)
Lemma occurrences_skip_prefix pre t :
  avoids ic p0 pre = true ->
  occurrences ic pat (pre ++ t) = occurrences ic pat t.
Proof.
  induction pre as [|x pre IH]; [reflexivity|].
  intros Ha. simpl in Ha. apply andb_prop in Ha as [Hx Hpre]. apply negb_true_iff in Hx.
  rewrite append_cons, occurrences_cons, (matchesAt_head_mismatch _ _ Hx). simpl. auto.
Qed.

Lemma occurrences_all_avoiding s :
  avoids ic p0 s = true -> occurrences ic pat s = 0.
Proof.
  intros Ha. rewrite <- (append_empty_r s), occurrences_skip_prefix by assumption.
  reflexivity.
Qed.

End Counting.

End StringFacts.

(** ** The staging area *)

Module StagingFacts.
Import JS Spec StringFacts Runtime.

Lemma LF_cons (s : string) : App.LF ++ s = String LFc s.
Proof. reflexivity. Qed.

(** The count of a pattern in a formatted question is one for its label
    plus the counts in its three fields. *)
Section Formatted.
Variable ic : bool.
Variables (p0 : ascii) (rest : string).
Hypothesis borderless : avoids ic p0 rest = true.
Hypothesis no_LF : avoids ic LFc (String p0 rest) = true.
Hypothesis label : forall t, matchesAt ic (String p0 rest) ("Question: " ++ t) = true.
Hypothesis label_tail : avoids ic p0 "uestion: " = true.
Hypothesis answer_label : avoids ic p0 "Correct Answer: " = true.
Hypothesis explanation_label : avoids ic p0 "Explanation: " = true.

Let pat : string := String p0 rest.

Lemma occurrences_formatQuestion q :
  occurrences ic pat (App.formatQuestion q) =
  1 + occurrences ic pat (Types.text q) + occurrences ic pat (Types.correctAnswer q)
    + occurrences ic pat (Types.explanation q).
Proof.
  unfold App.formatQuestion. rewrite !LF_cons.
  change ("Question: " ++ ?t) with (String "Q" ("uestion: " ++ t)).
  rewrite occurrences_cons.
  change (String "Q" ("uestion: " ++ ?t)) with ("Question: " ++ t).
  rewrite label.
  rewrite (occurrences_skip_prefix ic p0 rest) by assumption.
  rewrite (occurrences_app_sep ic p0 rest) by assumption.
  rewrite (occurrences_skip_prefix ic p0 rest) by assumption.
  rewrite (occurrences_app_sep ic p0 rest) by assumption.
  rewrite (occurrences_skip_prefix ic p0 rest) by assumption.
  fold pat. lia.
Qed.

Lemma occurrences_appended prev q :
  occurrences ic pat (prev ++ App.LF ++ App.LF ++ App.formatQuestion q) =
  occurrences ic pat prev + occurrences ic pat (App.formatQuestion q).
Proof.
  rewrite !LF_cons.
  rewrite (occurrences_app_sep ic p0 rest) by assumption.
  f_equal. rewrite occurrences_cons.
  rewrite (matchesAt_head_mismatch ic p0 rest); [reflexivity|].
  simpl in no_LF. apply andb_prop in no_LF as [E _]. apply negb_true_iff in E.
  now rewrite N.eqb_sym.
Qed.

End Formatted.

Lemma includes_occurrences s pat :
  includes s pat = negb (Nat.eqb (occurrences false pat s) 0).
Proof.
  induction s as [|x s IH].
  - simpl. unfold startsWith, matchesAt. now destruct (matchLiteral false pat "").
  - simpl includes. rewrite occurrences_cons, IH.
    unfold startsWith, matchesAt.
    destruct (matchLiteral false pat (String x s)); [reflexivity|].
    reflexivity.
Qed.

Lemma stagedCount_occurrences s :
  App.stagedCount s = occurrences false "Question: " s.
Proof. unfold App.stagedCount. now apply (match_g_count false "Q" "uestion: "). Qed.

Lemma currentStagedCount_occurrences s :
  Index.currentStagedCount s = occurrences true "Question:" s.
Proof. unfold Index.currentStagedCount. now apply (match_g_count true "Q" "uestion:"). Qed.

Lemma stagedCount_formatQuestion q :
  occurrences false "Question: " (App.formatQuestion q) =
  1 + occurrences false "Question: " (Types.text q)
    + occurrences false "Question: " (Types.correctAnswer q)
    + occurrences false "Question: " (Types.explanation q).
Proof. now apply (occurrences_formatQuestion false "Q" "uestion: "). Qed.

Lemma currentStagedCount_formatQuestion q :
  occurrences true "Question:" (App.formatQuestion q) =
  1 + occurrences true "Question:" (Types.text q)
    + occurrences true "Question:" (Types.correctAnswer q)
    + occurrences true "Question:" (Types.explanation q).
Proof. now apply (occurrences_formatQuestion true "Q" "uestion:"). Qed.

(** *** Trimming and the case-insensitive label *)

Lemma trimEnd_decomp s :
  exists tail, s = trimEnd s ++ tail /\ allWhite tail = true.
Proof.
  induction s as [|c s (tail & Hs & Hw)].
  - exists EmptyString. split; reflexivity.
  - simpl. destruct (trimEnd s) as [|y t] eqn:E.
    + rewrite append_nil in Hs. subst tail.
      destruct (isWhiteSpace c) eqn:Hc.
      * exists (String c s). split; [reflexivity|]. simpl. now rewrite Hc.
      * exists s. split; [reflexivity | assumption].
    + exists tail. split; [|assumption]. rewrite append_cons. f_equal. exact Hs.
Qed.

Lemma white_not_Q c : isWhiteSpace c = true -> (canon true c =? canon true "Q")%N = false.
Proof.
  destruct c as [[] [] [] [] [] [] [] []]; intros Hc;
    first [discriminate Hc | vm_compute; reflexivity].
Qed.

Lemma white_avoided c : isWhiteSpace c = true -> avoids true c "Question:" = true.
Proof.
  destruct c as [[] [] [] [] [] [] [] []]; intros Hc;
    first [discriminate Hc | vm_compute; reflexivity].
Qed.

Lemma allWhite_avoids s : allWhite s = true -> avoids true "Q" s = true.
Proof.
  induction s as [|c s IH]; [reflexivity|].
  intros H. simpl in H. apply andb_prop in H as [Hc Hs].
  change (avoids true "Q" (String c s))
    with (negb (canon true c =? canon true "Q")%N && avoids true "Q" s).
  rewrite (white_not_Q _ Hc). simpl. auto.
Qed.

Lemma occurrences_trimStart s :
  occurrences true "Question:" (trimStart s) = occurrences true "Question:" s.
Proof.
  induction s as [|c s IH]; [reflexivity|].
  simpl trimStart. destruct (isWhiteSpace c) eqn:Hc; [|reflexivity].
  rewrite IH, occurrences_cons.
  now rewrite (matchesAt_head_mismatch true "Q" "uestion:" c s (white_not_Q _ Hc)).
Qed.

Lemma occurrences_trimEnd s :
  occurrences true "Question:" (trimEnd s) = occurrences true "Question:" s.
Proof.
  destruct (trimEnd_decomp s) as (tail & Hs & Hw).
  rewrite Hs at 2. destruct tail as [|c u].
  - now rewrite append_empty_r.
  - simpl in Hw. apply andb_prop in Hw as [Hc Hu].
    rewrite (occurrences_app_sep true "Q" "uestion:") by (reflexivity || now apply white_avoided).
    rewrite (occurrences_all_avoiding true "Q" "uestion:" u) by now apply allWhite_avoids.
    lia.
Qed.

Lemma occurrences_trim s :
  occurrences true "Question:" (trim s) = occurrences true "Question:" s.
Proof. unfold trim. now rewrite occurrences_trimEnd, occurrences_trimStart. Qed.

End StagingFacts.

(** ** The question hash *)

Module HashFacts.
Import JS Spec StringFacts.

Lemma digest_length (msg : list Byte.byte) : length (Sha256.digest msg) = 32.
Proof.
  unfold Sha256.digest.
  generalize (fold_left Sha256.compress
                (Sha256.chunks (length (Sha256.pad msg)) 64 (Sha256.pad msg)) Sha256.H0).
  intros s. reflexivity.
Qed.

Lemma hex2_shape b :
  hex2 b = String (Firebase.hexDigit (Byte.to_N b / 16))
             (String (Firebase.hexDigit (Byte.to_N b mod 16)) EmptyString).
Proof. destruct b; reflexivity. Qed.

Lemma low_byte_to_N b : Sha256.low_byte (Byte.to_N b) = b.
Proof. destruct b; reflexivity. Qed.

Lemma to_N_bound b : (Byte.to_N b < 256)%N.
Proof. destruct b; reflexivity. Qed.

Lemma hexValue_hexDigit n : (n < 16)%N -> hexValue (Firebase.hexDigit n) = Some n.
Proof.
  intros Hn. destruct n as [|p]; [reflexivity|].
  do 4 (destruct p as [p|p|]; try reflexivity); lia.
Qed.

Lemma hex_decode_pair a b s :
  hex_decode (String a (String b s)) =
  match hexValue a, hexValue b with
  | Some hi, Some lo =>
      match hex_decode s with
      | Some bs => Some (Sha256.low_byte (16 * hi + lo) :: bs)
      | None => None
      end
  | _, _ => None
  end.
Proof. reflexivity. Qed.

Lemma hex2_digits b :
  exists hi lo,
    hex2 b = String hi (String lo EmptyString) /\
    isLowerHex hi = true /\ isLowerHex lo = true /\
    forall rest,
      hex_decode (String hi (String lo rest)) =
      match hex_decode rest with Some bs => Some (b :: bs) | None => None end.
Proof.
  pose proof (to_N_bound b) as Hb.
  assert (Hhi : (Byte.to_N b / 16 < 16)%N) by (apply N.Div0.div_lt_upper_bound; lia).
  assert (Hlo : (Byte.to_N b mod 16 < 16)%N) by (apply N.mod_lt; lia).
  exists (Firebase.hexDigit (Byte.to_N b / 16)), (Firebase.hexDigit (Byte.to_N b mod 16)).
  split; [apply hex2_shape|].
  unfold isLowerHex. rewrite !hexValue_hexDigit by assumption.
  split; [reflexivity|]. split; [reflexivity|].
  intros rest. rewrite hex_decode_pair, !hexValue_hexDigit by assumption.
  rewrite <- (N.div_mod (Byte.to_N b) 16) by lia.
  now rewrite low_byte_to_N.
Qed.

Lemma concat_cons (x : string) (xs : list string) :
  String.concat EmptyString (x :: xs) = x ++ String.concat EmptyString xs.
Proof.
  destruct xs as [|y ys]; simpl.
  - now rewrite append_empty_r.
  - reflexivity.
Qed.

Lemma hex_cons b bs : hex (b :: bs) = hex2 b ++ hex bs.
Proof. unfold hex. simpl map. apply concat_cons. Qed.

Lemma hex_length bs : String.length (hex bs) = 2 * length bs.
Proof.
  induction bs as [|b bs IH]; [reflexivity|].
  rewrite hex_cons, length_append, IH.
  destruct (hex2_digits b) as (hi & lo & -> & _). simpl. lia.
Qed.

Lemma hex_lower bs : allChars isLowerHex (hex bs) = true.
Proof.
  induction bs as [|b bs IH]; [reflexivity|].
  rewrite hex_cons.
  destruct (hex2_digits b) as (hi & lo & -> & Hhi & Hlo & _).
  rewrite !append_cons, append_nil. simpl. now rewrite Hhi, Hlo, IH.
Qed.

Lemma hex_decode_hex bs : hex_decode (hex bs) = Some bs.
Proof.
  induction bs as [|b bs IH]; [reflexivity|].
  rewrite hex_cons.
  destruct (hex2_digits b) as (hi & lo & -> & _ & _ & Hdec).
  rewrite !append_cons, append_nil. now rewrite Hdec, IH.
Qed.

Lemma getQuestionHash_hex text :
  Firebase.getQuestionHash text =
  hex (Sha256.digest (Firebase.TextEncoder_encode (toLowerCase (trim text)))).
Proof. reflexivity. Qed.

(** *** Normalisation *)

Lemma allWhite_trimStart l : allWhite l = true -> trimStart l = EmptyString.
Proof.
  induction l as [|c l IH]; [reflexivity|].
  simpl. intros H. apply andb_prop in H as [-> Hl]. auto.
Qed.

Lemma allWhite_trimEnd r : allWhite r = true -> trimEnd r = EmptyString.
Proof.
  induction r as [|c r IH]; [reflexivity|].
  simpl. intros H. apply andb_prop in H as [-> Hr]. now rewrite IH.
Qed.

Lemma trimStart_white_app l s : allWhite l = true -> trimStart (l ++ s) = trimStart s.
Proof.
  induction l as [|c l IH]; [reflexivity|].
  intros H. simpl in H. apply andb_prop in H as [Hc Hl].
  rewrite append_cons. simpl. rewrite Hc. auto.
Qed.

Lemma trimEnd_app_white s r : allWhite r = true -> trimEnd (s ++ r) = trimEnd s.
Proof.
  intros Hr. induction s as [|c s IH].
  - rewrite append_nil. now apply allWhite_trimEnd.
  - rewrite append_cons. simpl. now rewrite IH.
Qed.

Lemma trim_app_white s r : allWhite r = true -> trim (s ++ r) = trim s.
Proof.
  intros Hr. unfold trim. induction s as [|c s IH].
  - rewrite append_nil. simpl. now rewrite (allWhite_trimStart r Hr).
  - rewrite append_cons. simpl. destruct (isWhiteSpace c); [assumption|].
    rewrite <- append_cons. now apply trimEnd_app_white.
Qed.

Lemma trim_white_around l s r :
  allWhite l = true -> allWhite r = true -> trim (l ++ s ++ r) = trim s.
Proof.
  intros Hl Hr. unfold trim. rewrite trimStart_white_app by assumption.
  now apply trim_app_white.
Qed.

Lemma toLowerChar_idem a : toLowerChar (toLowerChar a) = toLowerChar a.
Proof. destruct a as [[] [] [] [] [] [] [] []]; reflexivity. Qed.

Lemma toLowerChar_white a : isWhiteSpace (toLowerChar a) = isWhiteSpace a.
Proof. destruct a as [[] [] [] [] [] [] [] []]; reflexivity. Qed.

Lemma sameLetter_cases a b :
  sameLetter a b = true -> a = b \/ toLowerChar a = b \/ toLowerChar b = a.
Proof.
  unfold sameLetter. intros H.
  apply orb_prop in H as [H | H]; [apply orb_prop in H as [H | H]|].
  - left. now apply bool_decide_eq_true in H.
  - right. left. apply andb_prop in H as [_ H]. now apply bool_decide_eq_true in H.
  - right. right. apply andb_prop in H as [_ H]. now apply bool_decide_eq_true in H.
Qed.

Lemma sameLetter_lower a b : sameLetter a b = true -> toLowerChar a = toLowerChar b.
Proof.
  intros H. destruct (sameLetter_cases a b H) as [-> | [<- | <-]];
    [reflexivity | now rewrite toLowerChar_idem | now rewrite toLowerChar_idem].
Qed.

Lemma sameLetter_white a b : sameLetter a b = true -> isWhiteSpace a = isWhiteSpace b.
Proof.
  intros H. destruct (sameLetter_cases a b H) as [-> | [<- | <-]];
    [reflexivity | now rewrite toLowerChar_white | now rewrite toLowerChar_white].
Qed.

Lemma differOnlyInCase_lower s t :
  differOnlyInCase s t = true -> toLowerCase s = toLowerCase t.
Proof.
  revert t. induction s as [|a s IH]; intros [|b t] H; try discriminate H; [reflexivity|].
  simpl in H. apply andb_prop in H as [Hab Hst].
  simpl. now rewrite (sameLetter_lower _ _ Hab), (IH _ Hst).
Qed.

Lemma differOnlyInCase_trimStart s t :
  differOnlyInCase s t = true -> differOnlyInCase (trimStart s) (trimStart t) = true.
Proof.
  revert t. induction s as [|a s IH]; intros [|b t] H; try discriminate H; [reflexivity|].
  pose proof H as H'. simpl in H'. apply andb_prop in H' as [Hab Hst].
  simpl trimStart. rewrite <- (sameLetter_white _ _ Hab).
  destruct (isWhiteSpace a); [now apply IH | assumption].
Qed.

Lemma differOnlyInCase_trimEnd s t :
  differOnlyInCase s t = true -> differOnlyInCase (trimEnd s) (trimEnd t) = true.
Proof.
  revert t. induction s as [|a s IH]; intros [|b t] H; try discriminate H; [reflexivity|].
  simpl in H. apply andb_prop in H as [Hab Hst].
  specialize (IH _ Hst). simpl trimEnd. rewrite <- (sameLetter_white _ _ Hab).
  destruct (trimEnd s) as [|x s'], (trimEnd t) as [|y t']; try discriminate IH.
  - destruct (isWhiteSpace a); [reflexivity|]. simpl. now rewrite Hab.
  - simpl. simpl in IH. now rewrite Hab, IH.
Qed.

Lemma sameQuestionText_normal s t :
  sameQuestionText s t -> toLowerCase (trim s) = toLowerCase (trim t).
Proof.
  intros (l1 & r1 & l2 & r2 & s' & t' & -> & -> & Hl1 & Hr1 & Hl2 & Hr2 & Hd).
  rewrite !trim_white_around by assumption.
  apply differOnlyInCase_lower. unfold trim.
  now apply differOnlyInCase_trimEnd, differOnlyInCase_trimStart.
Qed.

(** The implementation of SHA-256 agrees with the published test vectors:
    the empty message, a message of one block and one that needs two. *)
Example getQuestionHash_empty :
  Firebase.getQuestionHash EmptyString =
  "e3b0c44298fc1c149afbf4c8996fb92427ae41e4649b934ca495991b7852b855".
Proof. vm_compute. reflexivity. Qed.

Example getQuestionHash_abc :
  Firebase.getQuestionHash "abc" =
  "ba7816bf8f01cfea414140de5dae2223b00361a396177a9cb410ff61f20015ad".
Proof. vm_compute. reflexivity. Qed.

Example getQuestionHash_two_blocks :
  Firebase.getQuestionHash "abcdbcdecdefdefgefghfghighijhijkijkljklmklmnlmnomnopnopq" =
  "248d6a61d20638b8e5c026930c3e6039a33ce45964ff2167f6ecedd419db06c1".
Proof. vm_compute. reflexivity. Qed.

(** On texts of code units below U+0100 the question hash is the SHA-256
    digest of the trimmed, lower-cased text, written as 64 lower-case
    hexadecimal digits (reading the digits back yields the 32 bytes of the
    digest); two such texts that differ only in letter case and in
    surrounding white space have the same hash. *)
Lemma question_hash_latin1 (s t : string) :
  (String.length (Firebase.getQuestionHash s) = 64
   /\ allChars isLowerHex (Firebase.getQuestionHash s) = true
   /\ hex_decode (Firebase.getQuestionHash s) =
      Some (Sha256.digest (Firebase.TextEncoder_encode (toLowerCase (trim s))))
   /\ length (Sha256.digest (Firebase.TextEncoder_encode (toLowerCase (trim s)))) = 32)
  /\ (sameQuestionText s t -> Firebase.getQuestionHash s = Firebase.getQuestionHash t).
Proof.
  split.
  - rewrite getQuestionHash_hex. split; [|split; [|split]].
    + now rewrite hex_length, digest_length.
    + apply hex_lower.
    + apply hex_decode_hex.
    + apply digest_length.
  - intros Hsame. rewrite !getQuestionHash_hex.
    now rewrite (sameQuestionText_normal s t Hsame).
Qed.

(** Two spellings of one question, hashed alike. *)
Lemma question_hash_latin1_example :
  sameQuestionText ("  Which Peering is Transitive? " ++ Examples.LF)
                   "which peering is transitive?"
  /\ Firebase.getQuestionHash ("  Which Peering is Transitive? " ++ Examples.LF) =
     Firebase.getQuestionHash "which peering is transitive?".
Proof.
  assert (Hsame : sameQuestionText ("  Which Peering is Transitive? " ++ Examples.LF)
                                   "which peering is transitive?").
  { exists "  ", (" " ++ Examples.LF), EmptyString, EmptyString,
      "Which Peering is Transitive?", "which peering is transitive?".
    split; [reflexivity|]. split; [reflexivity|]. split; [reflexivity|].
    split; [reflexivity|]. split; [reflexivity|]. split; reflexivity. }
  split; [exact Hsame|].
  exact (proj2 (question_hash_latin1 _ _) Hsame).
Qed.

End HashFacts.

(** ** Pushing a question to the staging area *)

Module PushFacts.
Import JS Spec StringFacts StagingFacts Runtime.

Lemma App_push_refused q st w :
  6 <= App.stagedCount (App.inputText st) ->
  App.handlePushToEngine q st w = (Normal st, (alert App.limit_reached w).2).
Proof.
  intros Hfull. unfold App.handlePushToEngine. fold (App.stagedCount (App.inputText st)).
  destruct (Nat.leb_spec 6 (App.stagedCount (App.inputText st))); [reflexivity | lia].
Qed.

Lemma App_push_accepted q st w :
  App.stagedCount (App.inputText st) < 6 ->
  App.handlePushToEngine q st w =
  (Normal (App.setInputText
             (if bool_decide (App.inputText st = EmptyString) then App.formatQuestion q
              else App.inputText st ++ App.LF ++ App.LF ++ App.formatQuestion q) st), w).
Proof.
  intros Hroom. unfold App.handlePushToEngine. fold (App.stagedCount (App.inputText st)).
  destruct (Nat.leb_spec 6 (App.stagedCount (App.inputText st))); [lia | reflexivity].
Qed.

Lemma Index_push_refused q prev :
  6 <= Index.currentStagedCount prev -> Index.handlePushToEngine q prev = prev.
Proof.
  intros Hfull. unfold Index.handlePushToEngine. fold (Index.currentStagedCount prev).
  destruct (Nat.leb_spec 6 (Index.currentStagedCount prev)); [reflexivity | lia].
Qed.

Lemma Index_push_accepted q prev :
  Index.currentStagedCount prev < 6 ->
  Index.handlePushToEngine q prev =
  if bool_decide (trim prev = EmptyString) then App.formatQuestion q
  else trim prev ++ App.LF ++ App.LF ++ App.formatQuestion q.
Proof.
  intros Hroom. unfold Index.handlePushToEngine. fold (Index.currentStagedCount prev).
  destruct (Nat.leb_spec 6 (Index.currentStagedCount prev)); [lia | reflexivity].
Qed.

(** The count after an accepted push, in [App.tsx]. *)
Lemma App_push_count q st w :
  App.stagedCount (App.inputText st) < 6 ->
  exists st',
    App.handlePushToEngine q st w = (Normal st', w) /\
    App.stagedCount (App.inputText st') =
      App.stagedCount (App.inputText st) + 1
      + occurrences false "Question: " (Types.text q)
      + occurrences false "Question: " (Types.correctAnswer q)
      + occurrences false "Question: " (Types.explanation q).
Proof.
  intros Hroom. eexists. split; [now apply App_push_accepted|].
  rewrite !stagedCount_occurrences. simpl App.inputText.
  case_bool_decide as Hprev.
  - rewrite Hprev, stagedCount_formatQuestion. simpl. lia.
  - rewrite (occurrences_appended false "Q" "uestion: ") by reflexivity.
    rewrite stagedCount_formatQuestion. lia.
Qed.

(** The count after an accepted push, in [index.tsx]. *)
Lemma Index_push_count q prev :
  Index.currentStagedCount prev < 6 ->
  Index.currentStagedCount (Index.handlePushToEngine q prev) =
    Index.currentStagedCount prev + 1
    + occurrences true "Question:" (Types.text q)
    + occurrences true "Question:" (Types.correctAnswer q)
    + occurrences true "Question:" (Types.explanation q).
Proof.
  intros Hroom. rewrite Index_push_accepted by assumption.
  rewrite !currentStagedCount_occurrences, <- (occurrences_trim prev).
  case_bool_decide as Hprev.
  - rewrite Hprev, currentStagedCount_formatQuestion. simpl. lia.
  - rewrite (occurrences_appended true "Q" "uestion:") by reflexivity.
    rewrite currentStagedCount_formatQuestion. lia.
Qed.

(** C1, as amended.  The staging area takes no push once six labels are
    staged: the handler of [App.tsx] leaves the state as it is (and raises
    an alert), the updater of [index.tsx] returns the text it was given.
    Below six, the question is appended in the form
    [Question: text / Correct Answer: answer / Explanation: explanation],
    one field per line, after an empty line when there is prior text.
    [App.tsx] keeps the prior text as it is and changes no other part of the
    state; [index.tsx] first trims the prior text, and treats prior text
    that is only white space as empty. *)
Theorem C1_staging_cap (q : Types.ExtractedQuestion) :
  App.formatQuestion q =
    "Question: " ++ Types.text q ++ App.LF ++ "Correct Answer: " ++ Types.correctAnswer q
    ++ App.LF ++ "Explanation: " ++ Types.explanation q
  /\ (forall st w,
        (6 <= App.stagedCount (App.inputText st) ->
         App.handlePushToEngine q st w = (Normal st, (alert App.limit_reached w).2))
        /\
        (App.stagedCount (App.inputText st) < 6 ->
         App.handlePushToEngine q st w =
         (Normal (App.setInputText
                    (if bool_decide (App.inputText st = EmptyString)
                     then App.formatQuestion q
                     else App.inputText st ++ App.LF ++ App.LF ++ App.formatQuestion q) st),
          w)))
  /\ (forall prev,
        (6 <= Index.currentStagedCount prev -> Index.handlePushToEngine q prev = prev)
        /\
        (Index.currentStagedCount prev < 6 ->
         Index.handlePushToEngine q prev =
         if bool_decide (trim prev = EmptyString) then App.formatQuestion q
         else trim prev ++ App.LF ++ App.LF ++ App.formatQuestion q)).
Proof.
  split; [reflexivity|]. split.
  - intros st w. split; [apply App_push_refused | apply App_push_accepted].
  - intros prev. split; [apply Index_push_refused | apply Index_push_accepted].
Qed.

(** The two regimes of C1 on concrete staging texts, in both variants. *)
Lemma C1_staging_cap_witness :
  App.handlePushToEngine Examples.q0 (Examples.staged Examples.typed6) Examples.w_blank =
    (Normal (Examples.staged Examples.typed6),
     (alert App.limit_reached Examples.w_blank).2)
  /\ App.handlePushToEngine Examples.q0 (Examples.staged "Question: x") Examples.w_blank =
       (Normal (Examples.staged
                  ("Question: x" ++ App.LF ++ App.LF ++ App.formatQuestion Examples.q0)),
        Examples.w_blank)
  /\ Index.handlePushToEngine Examples.q0 Examples.typed6 = Examples.typed6
  /\ Index.handlePushToEngine Examples.q0 "Question: x" =
       "Question: x" ++ App.LF ++ App.LF ++ App.formatQuestion Examples.q0.
Proof.
  destruct (C1_staging_cap Examples.q0) as (_ & HA & HI).
  split; [|split; [|split]].
  - apply (proj1 (HA (Examples.staged Examples.typed6) Examples.w_blank)).
    vm_compute. lia.
  - apply (proj2 (HA (Examples.staged "Question: x") Examples.w_blank)).
    vm_compute. lia.
  - apply (proj1 (HI Examples.typed6)). vm_compute. lia.
  - apply (proj2 (HI "Question: x")). vm_compute. lia.
Defined.

(** C1 as stated fails on [index.tsx]: the push below the cap does not
    keep the prior text, whose leading empty line is dropped. *)
Lemma C1_counterexample_index_trims :
  Index.currentStagedCount Examples.pasted < 6 /\
  ~ (exists tail, Index.handlePushToEngine Examples.q0 Examples.pasted
                  = Examples.pasted ++ tail).
Proof.
  split; [vm_compute; lia|].
  intros [tail Htail]. vm_compute in Htail. discriminate Htail.
Qed.

(** C10, as amended.  In [App.tsx] the staged count is the number of
    occurrences of the ten characters [Question: ] in the staging text.  An
    accepted push of a question whose three fields do not contain them
    raises the count by one; if some field contains them the count rises by
    more.  Text typed into the staging area counts as well: with six
    occurrences typed and nothing pushed, a push is refused.  In
    [index.tsx] the count is the number of matches of [Question:] without
    the trailing space and in any letter case, and an accepted push raises
    it by one plus the number of such matches in the three fields. *)
Theorem C10_staged_count_counts_markers :
  (forall s, App.stagedCount s = occurrences false "Question: " s)
  /\ (forall q st w,
        App.stagedCount (App.inputText st) < 6 ->
        includes (Types.text q) "Question: " = false ->
        includes (Types.correctAnswer q) "Question: " = false ->
        includes (Types.explanation q) "Question: " = false ->
        exists st',
          App.handlePushToEngine q st w = (Normal st', w) /\
          App.stagedCount (App.inputText st') = App.stagedCount (App.inputText st) + 1)
  /\ (forall q st w,
        App.stagedCount (App.inputText st) < 6 ->
        includes (Types.text q) "Question: " = true \/
        includes (Types.correctAnswer q) "Question: " = true \/
        includes (Types.explanation q) "Question: " = true ->
        exists st',
          App.handlePushToEngine q st w = (Normal st', w) /\
          App.stagedCount (App.inputText st) + 1 < App.stagedCount (App.inputText st'))
  /\ (forall typed q st w,
        6 <= occurrences false "Question: " typed ->
        exists w',
          App.handlePushToEngine q (App.setInputText typed st) w =
          (Normal (App.setInputText typed st), w'))
  /\ (forall s, Index.currentStagedCount s = occurrences true "Question:" s)
  /\ (forall q prev,
        Index.currentStagedCount prev < 6 ->
        Index.currentStagedCount (Index.handlePushToEngine q prev) =
          Index.currentStagedCount prev + 1
          + occurrences true "Question:" (Types.text q)
          + occurrences true "Question:" (Types.correctAnswer q)
          + occurrences true "Question:" (Types.explanation q)).
Proof.
  split; [apply stagedCount_occurrences|].
  split; [|split; [|split; [|split; [apply currentStagedCount_occurrences|]]]].
  - intros q st w Hroom Ht Ha He.
    destruct (App_push_count q st w Hroom) as (st' & Hrun & Hcount).
    exists st'. split; [assumption|].
    rewrite includes_occurrences in Ht, Ha, He.
    apply negb_false_iff, Nat.eqb_eq in Ht, Ha, He. lia.
  - intros q st w Hroom Hsome.
    destruct (App_push_count q st w Hroom) as (st' & Hrun & Hcount).
    exists st'. split; [assumption|].
    rewrite !includes_occurrences in Hsome.
    destruct Hsome as [Hx | [Hx | Hx]];
      apply negb_true_iff, Nat.eqb_neq in Hx; lia.
  - intros typed q st w Hfull. eexists. apply App_push_refused.
    simpl. now rewrite stagedCount_occurrences.
  - apply Index_push_count.
Qed.

(** The regimes of C10 on concrete questions and texts. *)
Lemma C10_staged_count_witness :
  (exists st',
     App.handlePushToEngine Examples.q0 (Examples.staged "Question: x") Examples.w_blank
       = (Normal st', Examples.w_blank) /\
     App.stagedCount (App.inputText st') = 2)
  /\ (exists st',
        App.handlePushToEngine Examples.q_marker (Examples.staged "Question: x")
          Examples.w_blank = (Normal st', Examples.w_blank) /\
        2 < App.stagedCount (App.inputText st'))
  /\ (exists w',
        App.handlePushToEngine Examples.q0
          (App.setInputText Examples.typed6 (Examples.staged EmptyString)) Examples.w_blank
        = (Normal (App.setInputText Examples.typed6 (Examples.staged EmptyString)), w'))
  /\ Index.currentStagedCount (Index.handlePushToEngine Examples.q_lower "Question: x") = 3.
Proof.
  destruct C10_staged_count_counts_markers as (_ & H1 & H2 & H3 & _ & H4).
  split; [|split; [|split]].
  - apply (H1 Examples.q0 (Examples.staged "Question: x") Examples.w_blank);
      first [reflexivity | vm_compute; lia].
  - apply (H2 Examples.q_marker (Examples.staged "Question: x") Examples.w_blank);
      [vm_compute; lia | left; reflexivity].
  - apply (H3 Examples.typed6 Examples.q0 (Examples.staged EmptyString) Examples.w_blank).
    vm_compute. lia.
  - rewrite (H4 Examples.q_lower "Question: x"); [reflexivity | vm_compute; lia].
Defined.

(** C10 as stated fails on [index.tsx]: no field of the question contains
    the substring [Question: ], yet the push raises the count by two, and a
    label in lower case is counted although the substring does not occur. *)
Lemma C10_counterexample_index_counts_any_case :
  includes (Types.text Examples.q_lower) "Question: " = false
  /\ includes (Types.correctAnswer Examples.q_lower) "Question: " = false
  /\ includes (Types.explanation Examples.q_lower) "Question: " = false
  /\ Index.currentStagedCount EmptyString = 0
  /\ Index.currentStagedCount (Index.handlePushToEngine Examples.q_lower EmptyString) = 2
  /\ Index.currentStagedCount "question:" = 1
  /\ occurrences false "Question: " "question:" = 0.
Proof. repeat split; vm_compute; reflexivity. Qed.

End PushFacts.

(** ** Reasoning about effects *)

Module EffFacts.
Import Runtime StoreSpec.
Local Open Scope eff_scope.

Section Frames.
Context (R : World -> World -> Prop) `{!PreOrder R}.

Lemma keeps_ret {A} (a : A) : keeps R (ret a).
Proof. intros w. reflexivity. Qed.

Lemma keeps_throw {A} msg : keeps R (@throw A msg).
Proof. intros w. reflexivity. Qed.

Lemma keeps_bind {A B} (m : Eff A) (k : A -> Eff B) :
  keeps R m -> (forall a, keeps R (k a)) -> keeps R (bind m k).
Proof.
  intros Hm Hk w. unfold bind. specialize (Hm w).
  destruct (m w) as [[a|e] w1]; simpl in *; [|assumption].
  etransitivity; [eassumption | apply Hk].
Qed.

Lemma keeps_try_catch {A} (m : Eff A) (h : Error -> Eff A) :
  keeps R m -> (forall e, keeps R (h e)) -> keeps R (try_catch m h).
Proof.
  intros Hm Hh w. unfold try_catch. specialize (Hm w).
  destruct (m w) as [[a|e] w1]; simpl in *; [assumption|].
  etransitivity; [eassumption | apply Hh].
Qed.

Lemma keeps_mapM {A B} (f : A -> Eff B) (xs : list A) :
  (forall x, keeps R (f x)) -> keeps R (mapM f xs).
Proof.
  intros Hf. induction xs as [|x xs IH]; simpl.
  - now apply keeps_ret.
  - apply keeps_bind; [apply Hf|]. intros y.
    apply keeps_bind; [apply IH|]. intros ys. now apply keeps_ret.
Qed.

End Frames.

#[global] Instance quiet_rel_preorder :
  PreOrder (fun w w' : World => events w' = events w /\ vault w' = vault w).
Proof.
  split.
  - intros w. split; reflexivity.
  - intros a b c [E1 V1] [E2 V2]. split; congruence.
Qed.

#[global] Instance same_vault_preorder : PreOrder same_vault.
Proof.
  split.
  - intros w. reflexivity.
  - intros a b c E1 E2. unfold same_vault in *. congruence.
Qed.

#[global] Instance vault_kept_preorder : PreOrder vault_kept.
Proof.
  split.
  - intros w. split; [intros h Hh; exact Hh | intros h d' Hd; left; exact Hd].
  - intros a b c [K1 N1] [K2 N2]. split.
    + intros h Hh. apply K2, K1, Hh.
    + intros h d' Hd. destruct (N2 h d' Hd) as [Hb | Hk]; [|right; exact Hk].
      apply N1, Hb.
Qed.

#[global] Instance extends_preorder P : PreOrder (extends P).
Proof.
  split.
  - intros w. exists []. split; [now rewrite app_nil_r | constructor].
  - intros a b c (e1 & E1 & F1) (e2 & E2 & F2). exists (e1 ++ e2)%list.
    split; [rewrite E2, E1; now rewrite app_assoc | now apply Forall_app].
Qed.

(** One step of a proof that follows the structure of a computation. *)
Ltac frame_step :=
  lazymatch goal with
  | |- keeps _ (ret _) => apply keeps_ret; apply _
  | |- keeps _ (throw _) => apply keeps_throw; apply _
  | |- keeps _ (bind _ _) => apply keeps_bind; [apply _ | | intros ?]
  | |- keeps _ (try_catch _ _) => apply keeps_try_catch; [apply _ | | intros ?]
  | |- keeps _ (mapM _ _) => apply keeps_mapM; [apply _ | intros ?]
  | |- keeps _ (if ?b then _ else _) => destruct b
  | |- keeps _ (match ?x with _ => _ end) => destruct x
  end.

Lemma quiet_ret {A} (a : A) : quiet (ret a).
Proof. intros w. split; reflexivity. Qed.

Lemma quiet_throw {A} msg : quiet (@throw A msg).
Proof. intros w. split; reflexivity. Qed.

Lemma quiet_keeps : forall {A} (m : Eff A), quiet m <-> keeps (fun w w' => events w' = events w /\ vault w' = vault w) m.
Proof. intros A m. reflexivity. Qed.

Lemma quiet_bind {A B} (m : Eff A) (k : A -> Eff B) :
  quiet m -> (forall a, quiet (k a)) -> quiet (bind m k).
Proof.
  intros Hm Hk. apply quiet_keeps, keeps_bind; [apply _ | exact Hm | exact Hk].
Qed.

Lemma quiet_try_catch {A} (m : Eff A) (h : Error -> Eff A) :
  quiet m -> (forall e, quiet (h e)) -> quiet (try_catch m h).
Proof.
  intros Hm Hh. apply quiet_keeps, keeps_try_catch; [apply _ | exact Hm | exact Hh].
Qed.

Lemma quiet_localStorage_getItem key : quiet (localStorage_getItem key).
Proof. intros w. split; reflexivity. Qed.

Lemma quiet_getenv key : quiet (getenv key).
Proof. intros w. split; reflexivity. Qed.

Lemma quiet_set_dbInstance b : quiet (set_dbInstance b).
Proof. intros w. split; reflexivity. Qed.

Lemma quiet_Date_now : quiet Date_now_toISOString.
Proof. intros w. split; reflexivity. Qed.

Lemma quiet_store_request : quiet store_request.
Proof.
  intros w. unfold store_request.
  destruct (storeOutcomes w) as [|[] os]; split; reflexivity.
Qed.

Section WithPlatform.
Context `{Platform}.

Lemma quiet_getFirebaseConfig : quiet Firebase.getFirebaseConfig.
Proof.
  unfold Firebase.getFirebaseConfig.
  apply quiet_bind; [apply quiet_localStorage_getItem|]. intros local.
  destruct (truthy local).
  - destruct (JSON_parse_config _); [apply quiet_ret | apply quiet_throw].
  - apply quiet_bind; [apply quiet_getenv|]. intros p. apply quiet_ret.
Qed.

Lemma quiet_getDb : quiet Firebase.getDb.
Proof.
  intros w. unfold Firebase.getDb. destruct (dbInstance w); [split; reflexivity|].
  revert w. change (quiet (let! config := Firebase.getFirebaseConfig in
                           if bool_decide (projectId config = EmptyString)
                           then throw "Firebase not configured"
                           else set_dbInstance true)).
  apply quiet_bind; [apply quiet_getFirebaseConfig|]. intros config.
  destruct (bool_decide _); [apply quiet_throw | apply quiet_set_dbInstance].
Qed.

Lemma quiet_getApiKey : quiet Gemini.getApiKey.
Proof.
  unfold Gemini.getApiKey.
  apply quiet_bind; [apply quiet_localStorage_getItem|]. intros k.
  destruct (truthy k); [apply quiet_ret|].
  apply quiet_bind; [apply quiet_getenv|]. intros e. apply quiet_ret.
Qed.

(** *** What the functions of [firebase.ts] do, case by case *)

Lemma getDb_spec w :
  normal (Firebase.getDb w).1 = configured w
  /\ surroundings (Firebase.getDb w).2 = surroundings w
  /\ events (Firebase.getDb w).2 = events w
  /\ vault (Firebase.getDb w).2 = vault w
  /\ storeOutcomes (Firebase.getDb w).2 = storeOutcomes w
  /\ configured (Firebase.getDb w).2 = configured w.
Proof.
  unfold Firebase.getDb, configured.
  destruct (dbInstance w) eqn:Hdb.
  { simpl. rewrite Hdb. repeat split; reflexivity. }
  unfold Firebase.getFirebaseConfig, bind, localStorage_getItem, getenv, truthy, or_else.
  simpl orb.
  destruct (localStorage w !! "vault_firebase_config") as [[|c s]|] eqn:Hls.
  - unfold ret, throw, set_dbInstance. simpl.
    destruct (bool_decide _) eqn:Hp; simpl; rewrite ?Hdb, ?Hls, ?Hp;
      repeat split; reflexivity.
  - destruct (JSON_parse_config (String c s)) as [config|] eqn:Hparse.
    + unfold ret, throw, set_dbInstance. simpl.
      destruct (bool_decide _) eqn:Hp; simpl;
        rewrite ?Hdb, ?Hls, ?Hparse, ?Hp; repeat split; reflexivity.
    + unfold throw. simpl. rewrite ?Hdb, ?Hls, ?Hparse. repeat split; reflexivity.
  - unfold ret, throw, set_dbInstance. simpl.
    destruct (bool_decide _) eqn:Hp; simpl; rewrite ?Hdb, ?Hls, ?Hp;
      repeat split; reflexivity.
Qed.

Ltac use_getDb w :=
  let Hn := fresh "Hn" in let Hs := fresh "Hs" in let He := fresh "He" in
  let Hv := fresh "Hv" in let Ho := fresh "Ho" in let Hc := fresh "Hc" in
  destruct (getDb_spec w) as (Hn & Hs & He & Hv & Ho & Hc);
  let w1 := fresh "w1" in let c := fresh "c" in
  destruct (Firebase.getDb w) as [c w1]; simpl in Hn, Hs, He, Hv, Ho, Hc;
  unfold surroundings in Hs; injection Hs as Hls Henv Hai Hnow;
  destruct c as [[]|?]; simpl in Hn; rewrite <- Hn.

Lemma checkDuplicate_spec h w :
  (Firebase.checkDuplicate h w).1 =
    Normal (configured w && served (next_outcome w)
            && bool_decide (is_Some (vault w !! h)))
  /\ surroundings (Firebase.checkDuplicate h w).2 = surroundings w
  /\ vault (Firebase.checkDuplicate h w).2 = vault w
  /\ events (Firebase.checkDuplicate h w).2 =
       (events w ++ (if configured w then [EvGetDoc h] else []))%list
  /\ storeOutcomes (Firebase.checkDuplicate h w).2 =
       (if configured w then after_request w else storeOutcomes w)
  /\ configured (Firebase.checkDuplicate h w).2 = configured w.
Proof.
  unfold Firebase.checkDuplicate, try_catch, bind.
  use_getDb w.
  - unfold getDoc, bind, emit, store_request, next_outcome, after_request, surroundings.
    simpl. rewrite Ho.
    destruct (storeOutcomes w) as [|[] os]; simpl;
      rewrite ?Hls, ?Henv, ?Hai, ?Hnow, ?Hv, ?He;
      (split; [reflexivity|]); (split; [reflexivity|]); (split; [reflexivity|]);
      (split; [reflexivity|]); (split; [reflexivity|]);
      (unfold configured in Hc, Hn |- *; simpl; rewrite Hls, Henv in Hc; congruence).
  - unfold ret, surroundings. simpl. rewrite ?Hls, ?Henv, ?Hai, ?Hnow, ?Hv, ?He, ?Ho.
    rewrite app_nil_r. repeat split; try reflexivity. congruence.
Qed.

Lemma saveToVault_spec h d r w :
  (Firebase.saveToVault h d r w).1 = Normal tt
  /\ surroundings (Firebase.saveToVault h d r w).2 = surroundings w
  /\ vault (Firebase.saveToVault h d r w).2 =
       (if configured w && served (next_outcome w)
        then <[h := vaultItem w h d r]> (vault w) else vault w)
  /\ events (Firebase.saveToVault h d r w).2 =
       (events w ++ (if configured w then [EvSetDoc h (vaultItem w h d r)] else []))%list
  /\ storeOutcomes (Firebase.saveToVault h d r w).2 =
       (if configured w then after_request w else storeOutcomes w)
  /\ configured (Firebase.saveToVault h d r w).2 = configured w.
Proof.
  unfold Firebase.saveToVault, try_catch, bind.
  use_getDb w.
  - unfold setDoc, Date_now_toISOString, bind, emit, store_request, next_outcome,
      after_request, surroundings, vaultItem.
    simpl. rewrite Ho.
    destruct (storeOutcomes w) as [|[] os]; simpl;
      rewrite ?Hls, ?Henv, ?Hai, ?Hnow, ?Hv, ?He;
      (split; [reflexivity|]); (split; [reflexivity|]); (split; [reflexivity|]);
      (split; [reflexivity|]); (split; [reflexivity|]);
      (unfold configured in Hc, Hn |- *; simpl; rewrite Hls, Henv in Hc; congruence).
  - unfold ret, surroundings. simpl. rewrite ?Hls, ?Henv, ?Hai, ?Hnow, ?Hv, ?He, ?Ho.
    rewrite app_nil_r. repeat split; try reflexivity. congruence.
Qed.

Lemma fetchVault_spec w :
  (Firebase.fetchVault w).1 =
    Normal (if configured w && served (next_outcome w)
            then map snd (merge_sort newer_first (map_to_list (vault w))) else [])
  /\ surroundings (Firebase.fetchVault w).2 = surroundings w
  /\ vault (Firebase.fetchVault w).2 = vault w
  /\ events (Firebase.fetchVault w).2 =
       (events w ++ (if configured w then [EvGetDocs] else []))%list
  /\ storeOutcomes (Firebase.fetchVault w).2 =
       (if configured w then after_request w else storeOutcomes w)
  /\ configured (Firebase.fetchVault w).2 = configured w.
Proof.
  unfold Firebase.fetchVault, try_catch, bind.
  use_getDb w.
  - unfold getDocs_by_masteredAt_desc, bind, emit, store_request, next_outcome,
      after_request, surroundings.
    simpl. rewrite Ho.
    destruct (storeOutcomes w) as [|[] os]; simpl;
      rewrite ?Hls, ?Henv, ?Hai, ?Hnow, ?Hv, ?He;
      (split; [reflexivity|]); (split; [reflexivity|]); (split; [reflexivity|]);
      (split; [reflexivity|]); (split; [reflexivity|]);
      (unfold configured in Hc, Hn |- *; simpl; rewrite Hls, Henv in Hc; congruence).
  - unfold ret, surroundings. simpl. rewrite ?Hls, ?Henv, ?Hai, ?Hnow, ?Hv, ?He, ?Ho.
    rewrite app_nil_r. repeat split; try reflexivity. congruence.
Qed.

End WithPlatform.
End EffFacts.

(** ** Frames of the primitives and of the services *)

Module ServiceFacts.
Import Runtime StoreSpec EffFacts.
Local Open Scope eff_scope.

Lemma quiet_same_vault {A} (m : Eff A) : quiet m -> keeps same_vault m.
Proof. intros Hq w. apply (Hq w). Qed.

Lemma quiet_extends P {A} (m : Eff A) : quiet m -> keeps (extends P) m.
Proof.
  intros Hq w. destruct (Hq w) as [He _]. exists [].
  split; [now rewrite app_nil_r | constructor].
Qed.

Lemma same_vault_kept w w' : same_vault w w' -> vault_kept w w'.
Proof.
  unfold same_vault. intros E. split.
  - intros h. now rewrite E.
  - intros h d'. rewrite E. now left.
Qed.

Lemma keeps_same_vault_kept {A} (m : Eff A) : keeps same_vault m -> keeps vault_kept m.
Proof. intros Hm w. apply same_vault_kept, Hm. Qed.

Lemma extends_one P w w' e :
  events w' = (events w ++ [e])%list -> P e -> extends P w w'.
Proof. intros E He. exists [e]. split; [exact E | now constructor]. Qed.

Lemma extends_weaken (P Q : Event -> Prop) w w' :
  (forall e, P e -> Q e) -> extends P w w' -> extends Q w w'.
Proof.
  intros HPQ (evs & He & Hall). exists evs. split; [exact He|].
  eapply Forall_impl; eassumption.
Qed.

Lemma extends_none P w w' : events w' = events w -> extends P w w'.
Proof. intros E. exists []. split; [now rewrite app_nil_r | constructor]. Qed.

Lemma extends_optional P w w' (b : bool) e :
  events w' = (events w ++ (if b then [e] else []))%list -> P e -> extends P w w'.
Proof.
  intros E He. destruct b; [now apply (extends_one P w w' e) |].
  apply extends_none. now rewrite app_nil_r in E.
Qed.

Lemma emit_same_vault e : keeps same_vault (emit e).
Proof. intros w. reflexivity. Qed.

Lemma emit_extends P e : P e -> keeps (extends P) (emit e).
Proof. intros He w. now apply (extends_one P _ _ e). Qed.

Lemma generateContent_same_vault model req : keeps same_vault (generateContent model req).
Proof.
  intros w. unfold generateContent, bind, emit. simpl.
  destruct (aiReplies w) as [|[msg|t cs] rs]; reflexivity.
Qed.

Lemma generateContent_extends P model req :
  P (EvGenerateContent model req) -> keeps (extends P) (generateContent model req).
Proof.
  intros He w. apply (extends_one P _ _ (EvGenerateContent model req)); [|exact He].
  unfold generateContent, bind, emit. simpl.
  destruct (aiReplies w) as [|[msg|t cs] rs]; reflexivity.
Qed.

Section WithPlatform.
Context `{Platform}.

Lemma checkDuplicate_same_vault h : keeps same_vault (Firebase.checkDuplicate h).
Proof. intros w. apply (checkDuplicate_spec h w). Qed.

Lemma checkDuplicate_extends P h :
  P (EvGetDoc h) -> keeps (extends P) (Firebase.checkDuplicate h).
Proof.
  intros He w. destruct (checkDuplicate_spec h w) as (_ & _ & _ & Hev & _).
  eapply extends_optional; eassumption.
Qed.

Lemma fetchVault_same_vault : keeps same_vault Firebase.fetchVault.
Proof. intros w. apply (fetchVault_spec w). Qed.

Lemma fetchVault_extends P : P EvGetDocs -> keeps (extends P) Firebase.fetchVault.
Proof.
  intros He w. destruct (fetchVault_spec w) as (_ & _ & _ & Hev & _).
  eapply extends_optional; eassumption.
Qed.

Lemma saveToVault_vault_kept h d r : keeps vault_kept (Firebase.saveToVault h d r).
Proof.
  intros w. destruct (saveToVault_spec h d r w) as (_ & _ & Hv & _).
  destruct (configured w && served (next_outcome w));
    [|now apply same_vault_kept].
  split.
  - intros k Hk. rewrite Hv. destruct (decide (h = k)) as [->|Hne].
    + rewrite lookup_insert_eq. eexists; reflexivity.
    + now rewrite lookup_insert_ne.
  - intros k d'. rewrite Hv. destruct (decide (h = k)) as [->|Hne].
    + rewrite lookup_insert_eq. intros [= <-]. right. reflexivity.
    + rewrite lookup_insert_ne by assumption. now left.
Qed.

Lemma saveToVault_extends P h d r :
  (forall w, P (EvSetDoc h (vaultItem w h d r))) ->
  keeps (extends P) (Firebase.saveToVault h d r).
Proof.
  intros He w. destruct (saveToVault_spec h d r w) as (_ & _ & _ & Hev & _).
  eapply extends_optional; [eassumption | apply He].
Qed.

Lemma getApiKey_spec w : Gemini.getApiKey w = (Normal (apiKey w), w).
Proof.
  unfold Gemini.getApiKey, apiKey, bind, localStorage_getItem, getenv, ret.
  destruct (truthy (localStorage w !! "gemini_api_key")); reflexivity.
Qed.

Lemma processInsights_same_vault qs : keeps same_vault (Gemini.processInsights qs).
Proof.
  unfold Gemini.processInsights.
  frame_step; [apply quiet_same_vault, quiet_getApiKey|].
  frame_step; [frame_step|].
  frame_step; [apply generateContent_same_vault|].
  frame_step; frame_step.
Qed.

Lemma processInsights_extends P qs :
  (forall model, P (EvGenerateContent model (InsightRequest qs))) ->
  keeps (extends P) (Gemini.processInsights qs).
Proof.
  intros Hn. unfold Gemini.processInsights.
  frame_step; [apply quiet_extends, quiet_getApiKey|].
  frame_step; [frame_step|].
  frame_step; [now apply generateContent_extends|].
  frame_step; frame_step.
Qed.

End WithPlatform.
End ServiceFacts.

(** ** The application: scan, duplicate prompt, processing *)

Module AppFacts.
Import Runtime StoreSpec AppSpec EffFacts ServiceFacts.
Local Open Scope eff_scope.

Lemma rawQuestions_length text : length (App.rawQuestions text) <= 6.
Proof. unfold App.rawQuestions, JS.slice0. rewrite length_firstn. lia. Qed.

Lemma raw_length text : length (Index.raw text) <= 6.
Proof. unfold Index.raw, JS.slice0. rewrite length_firstn. lia. Qed.

Lemma In_firstn {A} n (x : A) l : In x (firstn n l) -> In x l.
Proof.
  revert l. induction n as [|n IH]; intros [|y l]; simpl; try tauto.
  intros [-> | Hin]; [now left | right; auto].
Qed.


Lemma raw_marked text c :
  In c (Index.raw text) -> JS.includes (JS.toLowerCase c) "question:" = true.
Proof.
  unfold Index.raw, JS.slice0. intros Hin. apply In_firstn in Hin.
  apply list_elem_of_In, list_elem_of_filter in Hin. apply Hin.
Qed.

Lemma dropIndices_length {A} idx (xs : list A) :
  length (App.dropIndices idx xs) <= length xs.
Proof.
  unfold App.dropIndices. rewrite length_map.
  etransitivity; [apply length_filter|]. now rewrite length_imap.
Qed.

Section WithPlatform.
Context `{Platform}.

(** *** Storing the blocks never throws *)

Lemma saveBlocks_normal i blocks domain hashes w :
  (App.saveBlocks i blocks domain hashes w).1 = Normal tt.
Proof.
  revert i w. induction blocks as [|b bs IH]; intros i w; [reflexivity|].
  simpl. unfold bind.
  destruct (truthy (hashes !! i)).
  - pose proof (saveToVault_spec (or_else (hashes !! i) EmptyString) domain
                  (Types.foundationalRule b) w) as (Hn & _).
    destruct (Firebase.saveToVault _ _ _ w) as [c w1]. simpl in Hn. subst c. apply IH.
  - simpl. apply IH.
Qed.

Lemma saveBlocks_vault_kept i blocks domain hashes :
  keeps vault_kept (App.saveBlocks i blocks domain hashes).
Proof.
  revert i. induction blocks as [|b bs IH]; intros i; simpl; [frame_step|].
  frame_step; [|apply IH].
  frame_step; [apply saveToVault_vault_kept | frame_step].
Qed.

Lemma truthy_lookup (hashes : list string) i :
  truthy (hashes !! i) = true ->
  or_else (hashes !! i) EmptyString ∈ hashes.
Proof.
  destruct (hashes !! i) as [[|c s]|] eqn:E; try discriminate. intros _.
  simpl. eapply list_elem_of_lookup_2. exact E.
Qed.

Lemma saveBlocks_extends i blocks domain hashes :
  Forall isQuestionHash hashes ->
  keeps (extends orderly) (App.saveBlocks i blocks domain hashes).
Proof.
  intros Hh. revert i. induction blocks as [|b bs IH]; intros i; simpl; [frame_step|].
  frame_step; [|apply IH].
  destruct (truthy (hashes !! i)) eqn:Ht; [|frame_step].
  apply saveToVault_extends. intros w. split; [exact I|]. split; [reflexivity|].
  rewrite Forall_forall in Hh. apply Hh, truthy_lookup, Ht.
Qed.

(** *** [executeProcessing] *)

Lemma executeProcessing_normal batch hashes st w :
  normal (App.executeProcessing batch hashes st w).1 = true.
Proof.
  unfold App.executeProcessing.
  destruct (bool_decide _); [reflexivity|].
  destruct (negb _); [reflexivity|].
  unfold try_catch, bind.
  destruct (Gemini.processInsights _ w) as [[ex|e] w1]; [|reflexivity].
  destruct (App.saveBlocks 0 _ _ hashes w1) as [[[]|e] w2]; reflexivity.
Qed.

Lemma executeProcessing_vault_kept batch hashes st :
  keeps vault_kept (App.executeProcessing batch hashes st).
Proof.
  unfold App.executeProcessing.
  frame_step; [frame_step|]. frame_step; [frame_step|].
  frame_step; [|frame_step].
  frame_step; [apply keeps_same_vault_kept, processInsights_same_vault|].
  frame_step; [|frame_step].
  frame_step; [apply saveBlocks_vault_kept|].
  apply keeps_same_vault_kept, emit_same_vault.
Qed.

Lemma executeProcessing_extends batch hashes st :
  length batch <= 6 ->
  Forall isQuestionHash hashes ->
  keeps (extends orderly) (App.executeProcessing batch hashes st).
Proof.
  intros Hlen Hh. unfold App.executeProcessing.
  frame_step; [frame_step|]. frame_step; [frame_step|].
  frame_step; [|frame_step].
  frame_step.
  { apply processInsights_extends. intros model.
    split; [simpl; now rewrite length_map | exact I]. }
  frame_step; [|frame_step].
  frame_step; [now apply saveBlocks_extends|].
  apply emit_extends. split; exact I.
Qed.

Lemma hashes_are_question_hashes (batch : list string) :
  Forall isQuestionHash (map Firebase.getQuestionHash batch).
Proof.
  apply Forall_forall. intros h Hin. apply list_elem_of_fmap in Hin as (q & -> & _).
  now exists q.
Qed.

Lemma dropIndices_elem {A} idx (xs : list A) x :
  x ∈ App.dropIndices idx xs -> x ∈ xs.
Proof.
  unfold App.dropIndices. intros Hin.
  apply list_elem_of_fmap in Hin as ([i y] & -> & Hin).
  apply list_elem_of_filter in Hin as [_ Hin].
  apply elem_of_lookup_imap in Hin as (j & z & [= -> ->] & Hj).
  simpl. eapply list_elem_of_lookup_2. exact Hj.
Qed.

Lemma dropIndices_Forall {A} (P : A -> Prop) idx (xs : list A) :
  Forall P xs -> Forall P (App.dropIndices idx xs).
Proof.
  rewrite !Forall_forall. intros Hall x Hin. now apply Hall, (dropIndices_elem idx).
Qed.

(** A run of [executeProcessing] leaves a held batch as it was or drops it. *)
Lemma executeProcessing_pending batch hashes st w st' :
  (App.executeProcessing batch hashes st w).1 = Normal st' ->
  App.pendingBatch st' = None \/ App.pendingBatch st' = App.pendingBatch st.
Proof.
  unfold App.executeProcessing.
  destruct (bool_decide _); [intros [= <-]; now left|].
  destruct (negb _); [intros [= <-]; now right|].
  unfold try_catch, bind.
  destruct (Gemini.processInsights _ w) as [[ex|e] w1]; [|intros [= <-]; now left].
  destruct (App.saveBlocks 0 _ _ hashes w1) as [[[]|e] w2]; intros [= <-]; now left.
Qed.

(** *** The duplicate check of a batch *)

Lemma healthy_served w : healthy w -> configured w = true /\ served (next_outcome w) = true.
Proof.
  intros [Hc Ho]. split; [exact Hc|]. unfold next_outcome.
  destruct (storeOutcomes w) as [|o os]; [reflexivity|].
  inversion Ho; subst. reflexivity.
Qed.

Lemma healthy_after w w' :
  healthy w -> configured w' = configured w -> storeOutcomes w' = after_request w ->
  healthy w'.
Proof.
  intros [Hc Ho] Hc' Ho'. split; [congruence|]. rewrite Ho'. unfold after_request.
  destruct (storeOutcomes w); [constructor | now inversion Ho].
Qed.

Lemma checkDuplicates_spec hashes w :
  exists dups,
    (mapM Firebase.checkDuplicate hashes w).1 = Normal dups
    /\ length dups = length hashes
    /\ vault (mapM Firebase.checkDuplicate hashes w).2 = vault w
    /\ surroundings (mapM Firebase.checkDuplicate hashes w).2 = surroundings w
    /\ extends isLookup w (mapM Firebase.checkDuplicate hashes w).2
    /\ Forall2 (fun h (d : bool) => d = true -> is_Some (vault w !! h)) hashes dups
    /\ (healthy w ->
        dups = map (fun h => bool_decide (is_Some (vault w !! h))) hashes
        /\ events (mapM Firebase.checkDuplicate hashes w).2
           = (events w ++ map EvGetDoc hashes)%list
        /\ healthy (mapM Firebase.checkDuplicate hashes w).2).
Proof.
  revert w. induction hashes as [|h hs IH]; intros w.
  - exists []. simpl.
    split; [reflexivity|]. split; [reflexivity|]. split; [reflexivity|].
    split; [reflexivity|]. split; [reflexivity|]. split; [constructor|].
    intros Hw. split; [reflexivity|]. split; [now rewrite app_nil_r | exact Hw].
  - destruct (checkDuplicate_spec h w) as (Hr & Hs & Hv & He & Ho & Hc).
    destruct (Firebase.checkDuplicate h w) as [c w1] eqn:E1.
    simpl in Hr, Hs, Hv, He, Ho, Hc. subst c.
    destruct (IH w1) as (dups & Hd & Hlen & Hv1 & Hs1 & Hx1 & Hsound & Hgood).
    destruct (mapM Firebase.checkDuplicate hs w1) as [c2 w2] eqn:E2.
    simpl in Hd, Hv1, Hs1, Hx1, Hgood. subst c2.
    match type of E1 with _ = (Normal ?b, _) => set (found := b) in * end.
    assert (Hrun : mapM Firebase.checkDuplicate (h :: hs) w = (Normal (found :: dups), w2)).
    { simpl. unfold bind. rewrite E1, E2. reflexivity. }
    rewrite Hrun. exists (found :: dups). simpl.
    split; [reflexivity|].
    split; [congruence|].
    split; [congruence|]. split; [congruence|].
    split.
    { etransitivity; [|exact Hx1].
      eapply (extends_optional isLookup); [exact He | exact I]. }
    split.
    { constructor.
      - unfold found. intros Hb. apply andb_prop in Hb as [_ Hb].
        now apply bool_decide_eq_true in Hb.
      - eapply Forall2_impl; [exact Hsound|]. intros k d Hk. now rewrite <- Hv. }
    intros Hw. destruct (healthy_served w Hw) as [Hcw Hsw].
    rewrite Hcw in He, Ho. unfold found. rewrite Hcw, Hsw. simpl andb.
    destruct Hgood as (Hd1 & He1 & Hh1); [now apply (healthy_after w)|].
    split; [rewrite Hd1, Hv; reflexivity|].
    split; [|exact Hh1].
    rewrite He1, He. simpl. now rewrite <- app_assoc.
Qed.

Lemma duplicateIndicesOf_elem dups i :
  i ∈ App.duplicateIndicesOf dups <->
  exists n, i = Z.of_nat n /\ dups !! n = Some true.
Proof.
  unfold App.duplicateIndicesOf. rewrite list_elem_of_filter, elem_of_lookup_imap.
  split.
  - intros [Hne (n & d & -> & Hn)]. destruct d; [|contradiction].
    exists n. split; [reflexivity | exact Hn].
  - intros (n & -> & Hn). split; [lia|]. exists n, true. split; [reflexivity | exact Hn].
Qed.

Lemma duplicateIndicesOf_nonempty dups :
  0 < length (App.duplicateIndicesOf dups) <-> In true dups.
Proof.
  split.
  - intros Hlen. destruct (App.duplicateIndicesOf dups) as [|i l] eqn:E;
      [simpl in Hlen; lia|].
    assert (Hi : i ∈ App.duplicateIndicesOf dups) by (rewrite E; left).
    apply duplicateIndicesOf_elem in Hi as (n & _ & Hn).
    apply list_elem_of_In. eapply list_elem_of_lookup_2; exact Hn.
  - intros Hin. apply list_elem_of_In, list_elem_of_lookup in Hin as [n Hn].
    assert (Hi : Z.of_nat n ∈ App.duplicateIndicesOf dups)
      by (apply duplicateIndicesOf_elem; eauto).
    destruct (App.duplicateIndicesOf dups); [inversion Hi | simpl; lia].
Qed.

(** *** [handleInitialScan] *)

Lemma try_catch_normal {A} (m : Eff A) handler w :
  normal (m w).1 = true -> try_catch m handler w = m w.
Proof.
  unfold try_catch. destruct (m w) as [[a|e] w1]; [reflexivity | discriminate].
Qed.

Lemma handleInitialScan_spec st w :
  JS.trim (App.inputText st) <> EmptyString ->
  App.rawQuestions (App.inputText st) <> [] ->
  let batch := App.rawQuestions (App.inputText st) in
  let hashes := map Firebase.getQuestionHash batch in
  let st1 := App.setError None (App.setStatus Types.LOADING st) in
  forall dups w1,
    mapM Firebase.checkDuplicate hashes w = (Normal dups, w1) ->
    App.handleInitialScan st w =
      if bool_decide (0 < length (App.duplicateIndicesOf dups))
      then (Normal (App.setStatus Types.IDLE
                      (App.setPendingBatch
                         (Some {| App.questions := batch; App.hashes := hashes;
                                  App.duplicateIndices := App.duplicateIndicesOf dups |})
                         st1)), w1)
      else App.executeProcessing batch hashes st1 w1.
Proof.
  intros Htext Hraw batch hashes st1 dups w1 Hcheck.
  unfold App.handleInitialScan.
  rewrite bool_decide_eq_false_2 by exact Htext.
  rewrite bool_decide_eq_false_2 by (destruct (App.rawQuestions _); [congruence | discriminate]).
  fold batch. fold hashes. fold st1.
  case_bool_decide as Hdup.
  - unfold try_catch at 1. unfold bind. unfold try_catch. rewrite Hcheck.
    rewrite bool_decide_eq_true_2 by exact Hdup. reflexivity.
  - rewrite try_catch_normal.
    + unfold bind, try_catch. rewrite Hcheck.
      rewrite bool_decide_eq_false_2 by exact Hdup. reflexivity.
    + unfold bind, try_catch. rewrite Hcheck.
      rewrite bool_decide_eq_false_2 by exact Hdup. apply executeProcessing_normal.
Qed.

(** *** Frames of the handlers *)

Lemma handleInitialScan_vault_kept st : keeps vault_kept (App.handleInitialScan st).
Proof.
  unfold App.handleInitialScan. cbv zeta.
  frame_step; [frame_step|].
  frame_step; [|frame_step].
  frame_step; [frame_step|].
  frame_step.
  - frame_step.
    + frame_step. apply keeps_same_vault_kept, checkDuplicate_same_vault.
    + frame_step; [apply keeps_same_vault_kept, emit_same_vault | frame_step].
  - frame_step; [frame_step | apply executeProcessing_vault_kept].
Qed.

Lemma handleInitialScan_extends st :
  keeps (extends orderly) (App.handleInitialScan st).
Proof.
  unfold App.handleInitialScan. cbv zeta.
  frame_step; [frame_step|].
  frame_step; [|frame_step].
  frame_step; [frame_step|].
  frame_step.
  - frame_step.
    + frame_step. apply checkDuplicate_extends. split; exact I.
    + frame_step; [apply emit_extends; split; exact I | frame_step].
  - frame_step; [frame_step|].
    apply executeProcessing_extends;
      [apply rawQuestions_length | apply hashes_are_question_hashes].
Qed.

Lemma handleInitialScan_pending st w st' :
  pending_ok st -> (App.handleInitialScan st w).1 = Normal st' -> pending_ok st'.
Proof.
  intros Hok. unfold App.handleInitialScan. cbv zeta.
  destruct (bool_decide (JS.trim _ = _)); [intros [= <-]; exact Hok|].
  unfold try_catch at 1.
  destruct (bool_decide (length _ = 0)).
  { simpl. intros [= <-]. exact Hok. }
  unfold bind at 1.
  destruct (try_catch (mapM Firebase.checkDuplicate _) _ w) as [[dups|e] w1].
  2:{ simpl. intros [= <-]. exact Hok. }
  destruct (bool_decide (0 < _)).
  { simpl. intros [= <-] pb [= <-]. simpl.
    split; [apply rawQuestions_length | apply hashes_are_question_hashes]. }
  pose proof (executeProcessing_pending
                (App.rawQuestions (App.inputText st))
                (map Firebase.getQuestionHash (App.rawQuestions (App.inputText st)))
                (App.setError None (App.setStatus Types.LOADING st)) w1) as Hp.
  destruct (App.executeProcessing _ _ _ w1) as [[st2|e] w2]; simpl.
  - intros [= <-]. destruct (Hp st2 eq_refl) as [Hn | Hs]; intros pb Hpb.
    + congruence.
    + apply Hok. rewrite <- Hpb, Hs. reflexivity.
  - intros [= <-]. exact Hok.
Qed.

Lemma step_vault_kept a st : keeps vault_kept (App.step a st).
Proof.
  destruct a; simpl.
  - frame_step.
  - unfold App.handlePushToEngine. cbv zeta.
    frame_step; [|frame_step].
    frame_step; [apply keeps_same_vault_kept, emit_same_vault | frame_step].
  - apply handleInitialScan_vault_kept.
  - unfold App.onSkipDuplicates. frame_step; [apply executeProcessing_vault_kept | frame_step].
  - unfold App.onProcessAll. frame_step; [apply executeProcessing_vault_kept | frame_step].
  - frame_step.
  - frame_step; [|frame_step]. unfold App.checkApiKey.
    frame_step; [apply keeps_same_vault_kept, quiet_same_vault, quiet_localStorage_getItem|].
    frame_step; [apply keeps_same_vault_kept, quiet_same_vault, quiet_getenv | frame_step].
  - frame_step; [apply keeps_same_vault_kept, fetchVault_same_vault | frame_step].
Qed.

Lemma step_extends a st :
  pending_ok st -> keeps (extends orderly) (App.step a st).
Proof.
  intros Hok. destruct a; simpl.
  - frame_step.
  - unfold App.handlePushToEngine. cbv zeta.
    frame_step; [|frame_step].
    frame_step; [apply emit_extends; split; exact I | frame_step].
  - apply handleInitialScan_extends.
  - unfold App.onSkipDuplicates.
    destruct (App.pendingBatch st) as [pb|] eqn:E; [|frame_step].
    destruct (Hok pb E) as [Hlen Hh].
    apply executeProcessing_extends.
    + etransitivity; [apply dropIndices_length | exact Hlen].
    + now apply dropIndices_Forall.
  - unfold App.onProcessAll.
    destruct (App.pendingBatch st) as [pb|] eqn:E; [|frame_step].
    destruct (Hok pb E) as [Hlen Hh].
    now apply executeProcessing_extends.
  - frame_step.
  - frame_step; [|frame_step]. unfold App.checkApiKey.
    frame_step; [apply quiet_extends, quiet_localStorage_getItem|].
    frame_step; [apply quiet_extends, quiet_getenv | frame_step].
  - frame_step; [apply fetchVault_extends; split; exact I | frame_step].
Qed.

Lemma step_pending a st w st' :
  pending_ok st -> (App.step a st w).1 = Normal st' -> pending_ok st'.
Proof.
  intros Hok. destruct a; simpl.
  - intros [= <-]. exact Hok.
  - unfold App.handlePushToEngine. cbv zeta.
    destruct (6 <=? _)%nat; simpl; intros [= <-]; exact Hok.
  - now apply handleInitialScan_pending.
  - unfold App.onSkipDuplicates.
    destruct (App.pendingBatch st) as [pb|] eqn:E; [|intros [= <-]; exact Hok].
    intros Hrun. destruct (executeProcessing_pending _ _ _ _ _ Hrun) as [Hn | Hs];
      intros pb' Hpb'; [congruence | apply Hok; congruence].
  - unfold App.onProcessAll.
    destruct (App.pendingBatch st) as [pb|] eqn:E; [|intros [= <-]; exact Hok].
    intros Hrun. destruct (executeProcessing_pending _ _ _ _ _ Hrun) as [Hn | Hs];
      intros pb' Hpb'; [congruence | apply Hok; congruence].
  - intros [= <-] pb Hpb. discriminate Hpb.
  - unfold bind, App.checkApiKey, bind, localStorage_getItem, getenv, ret. simpl.
    intros [= <-]. exact Hok.
  - unfold bind. destruct (Firebase.fetchVault w) as [[items|e] w1]; simpl;
      [intros [= <-]; exact Hok | discriminate].
Qed.

Lemma run_vault_kept actions st : keeps vault_kept (App.run actions st).
Proof.
  revert st. induction actions as [|a rest IH]; intros st; simpl; [frame_step|].
  frame_step; [apply step_vault_kept | apply IH].
Qed.

Lemma run_extends actions st w :
  pending_ok st -> extends orderly w (App.run actions st w).2.
Proof.
  revert st w. induction actions as [|a rest IH]; intros st w Hok; simpl.
  - reflexivity.
  - unfold bind. pose proof (step_extends a st Hok w) as Hstep.
    pose proof (step_pending a st w) as Hpend.
    destruct (App.step a st w) as [[st1|e] w1]; simpl in *; [|exact Hstep].
    etransitivity; [exact Hstep | apply IH, Hpend; [exact Hok | reflexivity]].
Qed.

End WithPlatform.
End AppFacts.

(** ** The single-file variant *)

Module IndexFacts.
Import Runtime StoreSpec AppSpec EffFacts ServiceFacts.
Local Open Scope eff_scope.

Lemma setDoc_extends P id data :
  P (EvSetDoc id data) -> keeps (extends P) (setDoc id data).
Proof.
  intros He w. apply (extends_one P _ _ (EvSetDoc id data)); [|exact He].
  unfold setDoc, bind, emit, store_request. simpl.
  destruct (storeOutcomes w) as [|[] os]; reflexivity.
Qed.

Lemma insert_vault_kept w w' id data :
  hash data = id -> vault w' = <[id := data]> (vault w) -> vault_kept w w'.
Proof.
  intros Hid Hv. split.
  - intros k Hk. rewrite Hv. destruct (decide (id = k)) as [->|Hne].
    + rewrite lookup_insert_eq. eexists; reflexivity.
    + now rewrite lookup_insert_ne.
  - intros k d'. rewrite Hv. destruct (decide (id = k)) as [->|Hne].
    + rewrite lookup_insert_eq. intros [= <-]. now right.
    + rewrite lookup_insert_ne by assumption. now left.
Qed.

Lemma setDoc_vault_kept id data :
  hash data = id -> keeps vault_kept (setDoc id data).
Proof.
  intros Hid w. unfold setDoc, bind, emit, store_request. simpl.
  destruct (storeOutcomes w) as [|[] os]; simpl;
    first [ now apply (insert_vault_kept _ _ id data)
          | apply same_vault_kept; reflexivity ].
Qed.

Section WithPlatform.
Context `{Platform}.

Lemma quiet_getDb_index : quiet Index.getDb.
Proof.
  unfold Index.getDb. apply quiet_bind; [apply quiet_getFirebaseConfig|].
  intros config. apply quiet_ret.
Qed.

Lemma saveToVault_index_extends h d r :
  isQuestionHash h -> keeps (extends orderly) (Index.saveToVault h d r).
Proof.
  intros Hh. unfold Index.saveToVault.
  frame_step; [|frame_step].
  frame_step; [apply quiet_extends, quiet_getDb_index|].
  frame_step; [frame_step|].
  frame_step; [apply quiet_extends, quiet_Date_now|].
  apply setDoc_extends. split; [exact I|]. split; [reflexivity | exact Hh].
Qed.

Lemma saveBlocks_index_extends i blocks domain hashes :
  Forall isQuestionHash hashes ->
  keeps (extends orderly) (Index.saveBlocks i blocks domain hashes).
Proof.
  intros Hh. revert i. induction blocks as [|b bs IH]; intros i; simpl; [frame_step|].
  frame_step; [|apply IH].
  destruct (truthy (hashes !! i)) eqn:Ht; [|frame_step].
  apply saveToVault_index_extends.
  rewrite Forall_forall in Hh. apply Hh, AppFacts.truthy_lookup, Ht.
Qed.

Lemma processInsights_index_extends qs :
  length qs <= 6 -> keeps (extends orderly) (Index.processInsights qs).
Proof.
  intros Hn. unfold Index.processInsights.
  frame_step; [apply generateContent_extends; split; [exact Hn | exact I]|].
  frame_step; frame_step.
Qed.

Lemma saveToVault_index_vault_kept h d r : keeps vault_kept (Index.saveToVault h d r).
Proof.
  unfold Index.saveToVault.
  frame_step; [|frame_step].
  frame_step; [apply keeps_same_vault_kept, quiet_same_vault, quiet_getDb_index|].
  frame_step; [frame_step|].
  frame_step; [apply keeps_same_vault_kept, quiet_same_vault, quiet_Date_now|].
  now apply setDoc_vault_kept.
Qed.

Lemma handleProcess_vault_kept st : keeps vault_kept (Index.handleProcess st).
Proof.
  unfold Index.handleProcess. cbv zeta.
  frame_step; [frame_step|].
  frame_step; [|frame_step].
  frame_step.
  - unfold Index.processInsights.
    frame_step; [apply keeps_same_vault_kept, generateContent_same_vault|].
    frame_step; frame_step.
  - frame_step; [|frame_step].
    generalize 0%nat as i. generalize (Types.blocks a) as blocks.
    induction blocks as [|b bs IH]; intros i; simpl; [frame_step|].
    frame_step; [|apply IH].
    frame_step; [apply saveToVault_index_vault_kept | frame_step].
Qed.

Lemma handleProcess_extends st :
  keeps (extends orderly) (Index.handleProcess st).
Proof.
  unfold Index.handleProcess. cbv zeta.
  frame_step; [frame_step|].
  frame_step; [|frame_step].
  frame_step.
  - apply processInsights_index_extends. rewrite length_map. apply AppFacts.raw_length.
  - frame_step; [|frame_step].
    apply saveBlocks_index_extends, AppFacts.hashes_are_question_hashes.
Qed.

End WithPlatform.
End IndexFacts.

(** ** The batch sent to the AI (C5) *)

Module BatchFacts.
Import Runtime StoreSpec AppSpec EffFacts ServiceFacts AppFacts IndexFacts.

(** C5, as amended.  However many chunks the staging text holds, an insight
    request carries at most six questions.  In [App.tsx] the batch is made
    of the first six of the chunks, cut at blank lines from the trimmed
    text, that contain [Question:], and this bound holds for every request
    of every session that starts without a held batch, the two buttons of
    the duplicate prompt included.  In [index.tsx] the batch is made the
    same way except that the marker is looked for in the lower-cased chunk,
    so that it is found in any letter case. *)
Theorem C5_batch_of_at_most_six `{Platform} :
  (forall text,
     length (App.rawQuestions text) <= 6
     /\ App.rawQuestions text =
        firstn 6 (filter (fun c => JS.includes c "Question:" = true)
                         (JS.split_blank_lines (JS.trim text))))
  /\ (forall actions st w,
        pending_ok st ->
        extends (batchWithin 6) w (App.run actions st w).2)
  /\ (forall text,
        length (Index.raw text) <= 6
        /\ Index.raw text =
           firstn 6 (filter (fun c => JS.includes (JS.toLowerCase c) "question:" = true)
                            (JS.split_blank_lines (JS.trim text))))
  /\ (forall st w, extends (batchWithin 6) w (Index.handleProcess st w).2).
Proof.
  assert (Hweak : forall e, orderly e -> batchWithin 6 e) by (intros e [He _]; exact He).
  split; [intros text; split; [apply rawQuestions_length | reflexivity]|].
  split.
  { intros actions st w Hok. eapply extends_weaken; [exact Hweak|].
    now apply run_extends. }
  split; [intros text; split; [apply raw_length | reflexivity]|].
  intros st w. eapply extends_weaken; [exact Hweak|]. apply handleProcess_extends.
Qed.

(** Eight labelled chunks in the staging area: the request carries six. *)
Lemma C5_batch_witness :
  extends (batchWithin 6) (Scenario.world ∅ [] [Scenario.fenced_reply])
    (@App.run (Scenario.platform 0) [App.Scan] (Examples.staged Scenario.eight_chunks)
       (Scenario.world ∅ [] [Scenario.fenced_reply])).2
  /\ App.rawQuestions Scenario.eight_chunks =
     ["Question: 1"; "Question: 2"; "Question: 3"; "Question: 4"; "Question: 5";
      "Question: 6"].
Proof.
  split.
  - apply (proj1 (proj2 (@C5_batch_of_at_most_six (Scenario.platform 0)))).
    intros pb Hpb. discriminate Hpb.
  - vm_compute. reflexivity.
Defined.

(** C5 as stated fails on [index.tsx]: a chunk that does not contain
    [Question:] is kept, and sent, because it contains the marker in
    capitals. *)
Lemma C5_counterexample_index_any_case :
  JS.includes "QUESTION: a" "Question:" = false
  /\ Index.raw "QUESTION: a" = ["QUESTION: a"]
  /\ events (@Index.handleProcess (Scenario.platform 0)
               {| Index.inputText := "QUESTION: a"; Index.result := None;
                  Index.status := Types.IDLE |}
               (Scenario.world ∅ [] [])).2
     = [EvGenerateContent "gemini-3-pro-preview"
          (InsightRequest [{| Types.az_text := "QUESTION: a";
                              Types.az_correctAnswer := "Verified";
                              Types.az_explanation := None |}])].
Proof. split; [|split]; vm_compute; reflexivity. Qed.

End BatchFacts.

(** ** The vault under the actions of the application (C4) *)

Module VaultFacts.
Import Runtime StoreSpec AppSpec EffFacts ServiceFacts AppFacts IndexFacts.

Lemma vault_kept_keyed w w' : vault_kept w w' -> keyed_by_hash w -> keyed_by_hash w'.
Proof.
  intros [_ Hnew] Hkey h d Hd. destruct (Hnew h d Hd) as [Hold | Hh]; [|exact Hh].
  now apply Hkey.
Qed.

Section WithPlatform.
Context `{Platform}.

Lemma passive_same_vault a st w :
  passive a = true -> vault (App.step a st w).2 = vault w.
Proof.
  destruct a; try discriminate; intros _; simpl.
  - reflexivity.
  - unfold App.handlePushToEngine. cbv zeta. destruct (6 <=? _)%nat; reflexivity.
  - reflexivity.
  - reflexivity.
  - unfold bind. pose proof (fetchVault_same_vault w) as Hv.
    destruct (Firebase.fetchVault w) as [[items|e] w1]; exact Hv.
Qed.

End WithPlatform.

(** C4, as amended.  Every vault item is stored under the hash it records,
    and no action of the application removes a document: after any session
    every document of the vault is still there or has been replaced by one
    that records the same hash; the same holds of [handleProcess] in
    [index.tsx].  Every write of a session stores, under the hash of some
    question text, a document that records this hash.  Typing, pushing,
    resetting, polling the key and loading the vault leave the vault as it
    is.  A stored document is not write-once: processing a question again
    stores a new document under its hash in place of the old one. *)
Theorem C4_vault_items_kept `{Platform} (actions : list App.Action)
  (st : App.AppState) (w : World) :
  vault_kept w (App.run actions st w).2
  /\ (keyed_by_hash w -> keyed_by_hash (App.run actions st w).2)
  /\ (pending_ok st -> extends hashedWrite w (App.run actions st w).2)
  /\ (forall a, passive a = true -> vault (App.step a st w).2 = vault w)
  /\ (forall st',
        vault_kept w (Index.handleProcess st' w).2
        /\ extends hashedWrite w (Index.handleProcess st' w).2).
Proof.
  assert (Hweak : forall e, orderly e -> hashedWrite e) by (intros e [_ He]; exact He).
  split; [apply run_vault_kept|].
  split; [apply vault_kept_keyed, run_vault_kept|].
  split.
  { intros Hok. eapply extends_weaken; [exact Hweak | now apply run_extends]. }
  split; [intros a; apply passive_same_vault|].
  intros st'. split; [apply handleProcess_vault_kept|].
  eapply extends_weaken; [exact Hweak | apply handleProcess_extends].
Qed.

Lemma C4_vault_items_witness :
  keyed_by_hash Scenario.w_known
  /\ keyed_by_hash
       (@App.run (Scenario.platform 0) [App.Scan; App.ProcessAll]
          (Examples.staged Scenario.one_question) Scenario.w_known).2
  /\ extends hashedWrite Scenario.w_known
       (@App.run (Scenario.platform 0) [App.Scan; App.ProcessAll]
          (Examples.staged Scenario.one_question) Scenario.w_known).2.
Proof.
  assert (Hkey : keyed_by_hash Scenario.w_known).
  { intros h d Hd. change (vault Scenario.w_known) with ({[ Scenario.h0 := Scenario.old_item ]} : gmap string VaultItem) in Hd.
    apply lookup_singleton_Some in Hd as [<- <-]. reflexivity. }
  split; [exact Hkey|]. split.
  - exact (proj1 (proj2 (@C4_vault_items_kept (Scenario.platform 0) _ _ _)) Hkey).
  - apply (proj1 (proj2 (proj2 (@C4_vault_items_kept (Scenario.platform 0) _ _ _)))).
    intros pb Hpb. discriminate Hpb.
Defined.

(** C4 as stated fails: the question is in the vault, the scan reports the
    duplicate, and Process All Anyway replaces the stored document. *)
Lemma C4_counterexample_process_all_overwrites :
  vault Scenario.w_known !! Scenario.h0 = Some Scenario.old_item
  /\ vault (@App.run (Scenario.platform 0) [App.Scan; App.ProcessAll]
              (Examples.staged Scenario.one_question) Scenario.w_known).2
       !! Scenario.h0 = Some Scenario.new_item
  /\ Scenario.new_item <> Scenario.old_item.
Proof.
  split; [vm_compute; reflexivity|]. split; [vm_compute; reflexivity|]. discriminate.
Qed.

End VaultFacts.

(** ** The duplicate check before the write (C3, C9) *)

Module ScanFacts.
Import Runtime StoreSpec AppSpec EffFacts ServiceFacts AppFacts.

Section WithPlatform.
Context `{Platform}.



Lemma found_iff_exists (w : World) hashes :
  In true (map (fun h => bool_decide (is_Some (vault w !! h))) hashes)
  <-> Exists (fun h => is_Some (vault w !! h)) hashes.
Proof.
  rewrite in_map_iff, Exists_exists. split.
  - intros (h & Hb & Hin). exists h. apply list_elem_of_In in Hin.
    split; [exact Hin | now apply bool_decide_eq_true in Hb].
  - intros (h & Hin & Hs). exists h. apply list_elem_of_In in Hin.
    split; [now apply bool_decide_eq_true | exact Hin].
Qed.

End WithPlatform.

(** C3, as amended.  A scan of a staging area that holds questions hashes
    every question of the batch and looks every hash up before anything
    else happens: the lookups add only lookup events and leave the vault
    as it is, and a lookup that reports a document is right.  If some lookup
    reports a document, the scan ends there: nothing is sent to the AI,
    nothing is written, and the batch is held with the indices of the
    reported duplicates.  If none does, processing starts at once.  With a
    working store the lookups report exactly the hashes that are in the
    vault, so the batch is held precisely when one of them is. *)
Theorem C3_duplicate_check_before_write `{Platform} (st : App.AppState) (w : World) :
  JS.trim (App.inputText st) <> EmptyString ->
  App.rawQuestions (App.inputText st) <> [] ->
  let batch := App.rawQuestions (App.inputText st) in
  let hashes := map Firebase.getQuestionHash batch in
  let st1 := App.setError None (App.setStatus Types.LOADING st) in
  exists dups w1,
    mapM Firebase.checkDuplicate hashes w = (Normal dups, w1)
    /\ length dups = length batch
    /\ Forall2 (fun h (d : bool) => d = true -> is_Some (vault w !! h)) hashes dups
    /\ vault w1 = vault w
    /\ extends isLookup w w1
    /\ (In true dups ->
        App.handleInitialScan st w =
        (Normal (App.setStatus Types.IDLE
                   (App.setPendingBatch
                      (Some {| App.questions := batch; App.hashes := hashes;
                               App.duplicateIndices := App.duplicateIndicesOf dups |})
                      st1)), w1))
    /\ (forall i, i ∈ App.duplicateIndicesOf dups <->
                  exists n, i = Z.of_nat n /\ dups !! n = Some true)
    /\ (~ In true dups ->
        App.handleInitialScan st w = App.executeProcessing batch hashes st1 w1)
    /\ (healthy w ->
        events w1 = (events w ++ map EvGetDoc hashes)%list
        /\ (In true dups <-> Exists (fun h => is_Some (vault w !! h)) hashes)).
Proof.
  intros Htext Hraw batch hashes st1.
  destruct (checkDuplicates_spec hashes w)
    as (dups & Hd & Hlen & Hv & _ & Hx & Hsound & Hgood).
  destruct (mapM Firebase.checkDuplicate hashes w) as [c w1] eqn:Hrun.
  simpl in Hd, Hv, Hx, Hgood. subst c.
  exists dups, w1.
  split; [reflexivity|].
  split; [rewrite Hlen; unfold hashes; now rewrite length_map|].
  split; [exact Hsound|]. split; [exact Hv|]. split; [exact Hx|].
  pose proof (handleInitialScan_spec st w Htext Hraw dups w1 Hrun) as Hscan.
  split.
  { intros Hin. rewrite Hscan.
    rewrite bool_decide_eq_true_2 by now apply duplicateIndicesOf_nonempty.
    reflexivity. }
  split; [apply duplicateIndicesOf_elem|].
  split.
  { intros Hnone. rewrite Hscan.
    rewrite bool_decide_eq_false_2; [reflexivity|].
    intros Hlen'. now apply Hnone, duplicateIndicesOf_nonempty. }
  intros Hw. destruct (Hgood Hw) as (Hdups & Hev & _).
  split; [exact Hev|]. rewrite Hdups. apply found_iff_exists.
Qed.

(** The scan of a question that is in the vault, with a working store: one
    lookup, and the batch is held. *)
Lemma C3_duplicate_check_witness :
  @App.handleInitialScan (Scenario.platform 0)
    (Examples.staged Scenario.one_question) Scenario.w_known
  = (Normal
       (App.setStatus Types.IDLE
          (App.setPendingBatch
             (Some {| App.questions := [Scenario.one_question];
                      App.hashes := [Scenario.h0];
                      App.duplicateIndices := [0%Z] |})
             (App.setError None
                (App.setStatus Types.LOADING (Examples.staged Scenario.one_question))))),
     (@mapM _ _ (@Firebase.checkDuplicate (Scenario.platform 0)) [Scenario.h0]
        Scenario.w_known).2)
  /\ events (@mapM _ _ (@Firebase.checkDuplicate (Scenario.platform 0)) [Scenario.h0]
               Scenario.w_known).2 = [EvGetDoc Scenario.h0].
Proof.
  destruct (@C3_duplicate_check_before_write (Scenario.platform 0)
              (Examples.staged Scenario.one_question) Scenario.w_known)
    as (dups & w1 & Hrun & _ & _ & _ & _ & Hheld & _ & _ & _).
  - vm_compute. discriminate.
  - vm_compute. discriminate.
  - assert (Hd : dups = [true] /\
                 w1 = (@mapM _ _ (@Firebase.checkDuplicate (Scenario.platform 0))
                         [Scenario.h0] Scenario.w_known).2).
    { change (map Firebase.getQuestionHash
                (App.rawQuestions (App.inputText (Examples.staged Scenario.one_question))))
        with [Scenario.h0] in Hrun.
      rewrite (surjective_pairing (mapM _ _ _)) in Hrun.
      injection Hrun as Hd Hw. split; [|now symmetry].
      rewrite <- Hd. vm_compute. reflexivity. }
    destruct Hd as [-> ->]. split; [|vm_compute; reflexivity].
    rewrite Hheld by (left; reflexivity). reflexivity.
Defined.

(** C3 as stated fails where a lookup fails.  The question is in the vault
    and the store rejects the lookup (its rules deny the read): the check
    reports no duplicate, no batch is held, the question is sent to the AI
    and the answer is written over the stored document. *)
Lemma C3_counterexample_failed_lookup :
  let w := Scenario.world {[ Scenario.h0 := Scenario.old_item ]} [Rejected]
             [Scenario.fenced_reply] in
  let r := @App.handleInitialScan (Scenario.platform 0)
             (Examples.staged Scenario.one_question) w in
  map Firebase.getQuestionHash
    (App.rawQuestions (App.inputText (Examples.staged Scenario.one_question)))
  = [Scenario.h0]
  /\ vault w !! Scenario.h0 = Some Scenario.old_item
  /\ (exists st', r.1 = Normal st' /\ App.pendingBatch st' = None
                  /\ App.status st' = Types.SUCCESS)
  /\ events r.2 =
     [EvGetDoc Scenario.h0; Scenario.insight_request;
      EvSetDoc Scenario.h0 Scenario.new_item]
  /\ vault r.2 !! Scenario.h0 = Some Scenario.new_item.
Proof.
  cbv zeta. split; [vm_compute; reflexivity|]. split; [vm_compute; reflexivity|].
  split.
  { eexists. split; [vm_compute; reflexivity|]. split; reflexivity. }
  split; vm_compute; reflexivity.
Qed.



(** The question is in the vault and the lookup is not served: the scan
    holds no batch, sends the question to the AI and stores the answer in
    place of the document. *)
Example scan_with_unreachable_store :
  vault Scenario.w_offline !! Scenario.h0 = Some Scenario.old_item
  /\ (let r := @App.handleInitialScan (Scenario.platform 0)
                 (Examples.staged Scenario.one_question) Scenario.w_offline in
      option_map App.pendingBatch
        (match r.1 with Normal st' => Some st' | Throw _ => None end) = Some None
      /\ events r.2 =
         [EvGetDoc Scenario.h0; Scenario.insight_request;
          EvSetDoc Scenario.h0 Scenario.new_item]
      /\ vault r.2 !! Scenario.h0 = Some Scenario.new_item).
Proof. split; [|split; [|split]]; vm_compute; reflexivity. Qed.

End ScanFacts.

(** ** Failures of the store and of the AI (C6, C7) *)

Module FailureFacts.
Import Runtime StoreSpec AppSpec EffFacts ServiceFacts AppFacts.

Section WithPlatform.
Context `{Platform}.

Lemma executeProcessing_success batch hashes st w extraction w1 :
  batch <> [] ->
  App.isApiKeySet st = true ->
  Gemini.processInsights (verified batch) w = (Normal extraction, w1) ->
  App.executeProcessing batch hashes st w =
  (Normal (App.setStatus Types.SUCCESS
             (App.setResult (Some extraction)
                (App.setPendingBatch None
                   (App.setError None (App.setStatus Types.LOADING st))))),
   (App.saveBlocks 0 (Types.blocks extraction) (Types.domain extraction) hashes w1).2).
Proof.
  intros Hbatch Hkey Hai. unfold App.executeProcessing.
  rewrite bool_decide_eq_false_2 by (destruct batch; [congruence | discriminate]).
  rewrite Hkey. change (negb true) with false. cbv iota.
  unfold try_catch at 1. unfold bind at 1. cbv beta.
  change (map _ batch) with (verified batch). rewrite Hai.
  unfold bind, try_catch.
  pose proof (saveBlocks_normal 0 (Types.blocks extraction) (Types.domain extraction)
                hashes w1) as Hsave.
  destruct (App.saveBlocks 0 _ _ hashes w1) as [c w2]. simpl in Hsave. subst c.
  reflexivity.
Qed.


Lemma processInsights_reply qs w t cs rest :
  apiKey w <> EmptyString ->
  aiReplies w = AiResponds t cs :: rest ->
  (Gemini.processInsights qs w).1 =
  match JSON_parse_result (JS.trim (Gemini.stripFences 0 (or_else (Some t) "{}"))) with
  | Some result =>
      Normal {| Types.domain := Types.domain result;
                Types.blocks := Types.blocks result;
                Types.sources := Gemini.groundingSources cs |}
  | None => Throw {| message := Gemini.invalid_structure |}
  end.
Proof.
  intros Hkey Hreply. unfold Gemini.processInsights, bind.
  rewrite getApiKey_spec. rewrite bool_decide_eq_false_2 by exact Hkey.
  unfold generateContent, bind, emit. simpl. rewrite Hreply. simpl.
  destruct (JSON_parse_result _); reflexivity.
Qed.

End WithPlatform.

(** A failure of the document store that the store reports is swallowed
    without retry or compensating action.  When the next request is
    answered, [saveToVault] completes normally and sends at most one write,
    none when no store is configured, and the vault changes only if that
    write is served; [fetchVault] completes normally too, with the empty
    list unless a store is configured and the query is served.  Once the AI
    has answered and the store answers, [executeProcessing] shows the answer
    as a success whatever happens to the writes. *)
Lemma store_failures_swallowed `{Platform} :
  (forall hash domain rule w,
     next_outcome w <> Unreachable ->
     (Firebase.saveToVault hash domain rule w).1 = Normal tt
     /\ events (Firebase.saveToVault hash domain rule w).2 =
        (events w ++ (if configured w
                      then [EvSetDoc hash (vaultItem w hash domain rule)] else []))%list
     /\ vault (Firebase.saveToVault hash domain rule w).2 =
        (if configured w && served (next_outcome w)
         then <[hash := vaultItem w hash domain rule]> (vault w) else vault w))
  /\ (forall w,
        next_outcome w <> Unreachable ->
        (Firebase.fetchVault w).1 =
          Normal (if configured w && served (next_outcome w)
                  then map snd (merge_sort newer_first (map_to_list (vault w))) else [])
        /\ events (Firebase.fetchVault w).2 =
           (events w ++ (if configured w then [EvGetDocs] else []))%list)
  /\ (forall batch hashes st w extraction w1,
        batch <> [] ->
        App.isApiKeySet st = true ->
        Gemini.processInsights (verified batch) w = (Normal extraction, w1) ->
        answered w1 ->
        exists st',
          (App.executeProcessing batch hashes st w).1 = Normal st'
          /\ App.status st' = Types.SUCCESS
          /\ App.result st' = Some extraction
          /\ App.error st' = None).
Proof.
  split.
  { intros hash domain rule w _.
    destruct (saveToVault_spec hash domain rule w) as (Hn & _ & Hv & He & _).
    repeat split; assumption. }
  split.
  { intros w _. destruct (fetchVault_spec w) as (Hn & _ & _ & He & _).
    split; assumption. }
  intros batch hashes st w extraction w1 Hbatch Hkey Hai _.
  eexists. rewrite (executeProcessing_success _ hashes _ _ _ _ Hbatch Hkey Hai).
  repeat split; reflexivity.
Qed.

(** C6, at the input on which the code leaves the claim.  The store holds
    nothing and rejects the write that follows the answer of the AI.  The
    rejection is caught inside [saveToVault], whose handler is empty, so it
    never reaches the handler of [executeProcessing] that would write the
    warning to the console: the scan ends in the state SUCCESS with the
    answer on display, the vault stays empty, the events of the scan are
    the lookup, the request to the AI and the one write, and no line is
    logged. *)
Theorem C6_rejected_write_not_logged :
  let r := @App.handleInitialScan (Scenario.platform 0)
             (Examples.staged Scenario.one_question) Scenario.w_rejecting in
  storeOutcomes Scenario.w_rejecting = [Served; Rejected]
  /\ (exists st', r.1 = Normal st' /\ App.status st' = Types.SUCCESS
                  /\ App.result st' = Some Scenario.parsed_result
                  /\ App.error st' = None)
  /\ events r.2 =
     [EvGetDoc Scenario.h0; Scenario.insight_request;
      EvSetDoc Scenario.h0 Scenario.new_item]
  /\ vault r.2 = ∅
  /\ ~ Exists isConsole (events r.2).
Proof.
  assert (He : events (@App.handleInitialScan (Scenario.platform 0)
                         (Examples.staged Scenario.one_question) Scenario.w_rejecting).2 =
               [EvGetDoc Scenario.h0; Scenario.insight_request;
                EvSetDoc Scenario.h0 Scenario.new_item])
    by (vm_compute; reflexivity).
  cbv zeta. split; [reflexivity|]. split.
  { eexists. split; [vm_compute; reflexivity|]. repeat split; reflexivity. }
  split; [exact He|]. split; [vm_compute; reflexivity|].
  rewrite He. intros Hex.
  repeat (apply Exists_cons in Hex as [Hex | Hex]; [exact Hex|]).
  inversion Hex.
Qed.




End FailureFacts.

(** ** The vault view (C8) *)

Module ViewFacts.
Import Runtime StoreSpec ViewSpec.
Local Open Scope Z_scope.

Lemma day_of_local_east tza day :
  0 <= tza < JSDate.msPerDay -> (day * JSDate.msPerDay + tza) / JSDate.msPerDay = day.
Proof.
  intros Htza. rewrite Z.div_add_l by (unfold JSDate.msPerDay; lia).
  rewrite Z.div_small by exact Htza. lia.
Qed.

Lemma day_of_local_west tza day :
  - JSDate.msPerDay <= tza < 0 ->
  (day * JSDate.msPerDay + tza) / JSDate.msPerDay = day - 1.
Proof.
  intros Htza. unfold JSDate.msPerDay in *.
  replace (day * 86400000 + tza) with ((day - 1) * 86400000 + (tza + 86400000)) by lia.
  rewrite Z.div_add_l by lia. rewrite Z.div_small by lia. lia.
Qed.

(** East of UTC, and at UTC, [setHours] lands on the selected day. *)
Lemma setHours_east tza day :
  0 <= tza < JSDate.msPerDay ->
  JSDate.setHours tza 0 0 0 0 (JSDate.Num (day * JSDate.msPerDay))
    = JSDate.Num (startOfDay tza day)
  /\ JSDate.setHours tza 23 59 59 999 (JSDate.Num (day * JSDate.msPerDay))
    = JSDate.Num (endOfDay tza day).
Proof.
  intros Htza. unfold JSDate.setHours, startOfDay, endOfDay.
  rewrite (day_of_local_east tza day Htza). unfold JSDate.msPerDay.
  split; f_equal; lia.
Qed.

(** West of UTC, [setHours] lands on the day before the selected one. *)
Lemma setHours_west tza day :
  - JSDate.msPerDay <= tza < 0 ->
  JSDate.setHours tza 0 0 0 0 (JSDate.Num (day * JSDate.msPerDay))
    = JSDate.Num (startOfDay tza (day - 1))
  /\ JSDate.setHours tza 23 59 59 999 (JSDate.Num (day * JSDate.msPerDay))
    = JSDate.Num (endOfDay tza (day - 1)).
Proof.
  intros Htza. unfold JSDate.setHours, startOfDay, endOfDay.
  rewrite (day_of_local_west tza day Htza). unfold JSDate.msPerDay.
  split; f_equal; lia.
Qed.

Section WithPlatform.
Context `{Platform}.

(** At UTC and east of it the filter of the view is the filter of the
    specification, for well-formed dates and bounds other than the epoch. *)
Lemma shown_east_of_UTC search from to item time df dt :
  0 <= LocalTZA < JSDate.msPerDay ->
  JSDate.Date_parse (masteredAt item) = JSDate.Num time ->
  selects from df -> selects to dt ->
  (forall day, df = Some day -> startOfDay LocalTZA day <> 0) ->
  (forall day, dt = Some day -> endOfDay LocalTZA day <> 0) ->
  VaultView.shown search from to item = displayed LocalTZA search df dt item time.
Proof.
  intros Htza Htime Hfrom Hto Hstart Hend.
  unfold VaultView.shown, displayed. rewrite Htime.
  f_equal; [f_equal|].
  - destruct df as [day|]; simpl in Hfrom.
    + destruct Hfrom as [Hne Hparse].
      rewrite bool_decide_eq_false_2 by exact Hne.
      rewrite Hparse, (proj1 (setHours_east _ day Htza)). simpl.
      specialize (Hstart day eq_refl). apply Z.eqb_neq in Hstart. now rewrite Hstart.
    + subst from. reflexivity.
  - destruct dt as [day|]; simpl in Hto.
    + destruct Hto as [Hne Hparse].
      rewrite bool_decide_eq_false_2 by exact Hne.
      rewrite Hparse, (proj2 (setHours_east _ day Htza)). simpl.
      specialize (Hend day eq_refl). apply Z.eqb_neq in Hend. now rewrite Hend.
    + subst to. reflexivity.
Qed.

(** West of UTC the lower bound of the view is one day early: an item of
    the day before the selected one passes it. *)
Lemma shown_west_of_UTC_from search from item time day :
  - JSDate.msPerDay <= LocalTZA < 0 ->
  JSDate.Date_parse (masteredAt item) = JSDate.Num time ->
  selects from (Some day) ->
  startOfDay LocalTZA (day - 1) <> 0 ->
  VaultView.shown search from EmptyString item
  = displayed LocalTZA search (Some (day - 1)) None item time.
Proof.
  intros Htza Htime [Hne Hparse] Hstart.
  unfold VaultView.shown, displayed. rewrite Htime.
  rewrite bool_decide_eq_false_2 by exact Hne.
  rewrite Hparse, (proj1 (setHours_west _ day Htza)). simpl.
  apply Z.eqb_neq in Hstart. now rewrite Hstart.
Qed.

End WithPlatform.

(** C8, at the input on which the code leaves the claim.  In New York the
    date 2024-03-10 is selected as the lower bound.  The item was mastered
    on 9 March at noon UTC, before that day begins, whether the day is
    taken in local time or in UTC; the specification hides it and the view
    shows it. *)
Theorem C8_from_date_west_of_UTC :
  @VaultView.shown (Scenario.platform Scenario.new_york)
    EmptyString "2024-03-10" EmptyString Scenario.item_9_march = true
  /\ displayed Scenario.new_york EmptyString (Some 19792) None
       Scenario.item_9_march 1709985600000 = false
  /\ selects "2024-03-10" (Some 19792)
  /\ JSDate.Date_parse (masteredAt Scenario.item_9_march) = JSDate.Num 1709985600000
  /\ 1709985600000 < 19792 * JSDate.msPerDay
  /\ 1709985600000 < startOfDay Scenario.new_york 19792.
Proof.
  split; [vm_compute; reflexivity|]. split; [vm_compute; reflexivity|].
  split; [split; [discriminate | vm_compute; reflexivity]|].
  split; [vm_compute; reflexivity|]. split; vm_compute; reflexivity.
Qed.

End ViewFacts.

(** ** The order of the vault as fetched *)

Module OrderFacts.
Import Runtime StoreSpec ViewSpec EffFacts.

Lemma ltb_Lt a b : String.ltb a b = true <-> String.compare a b = Lt.
Proof. unfold String.ltb. destruct (String.compare a b); split; congruence. Qed.

Lemma ltb_not_Lt a b : String.ltb a b = false <-> String.compare a b <> Lt.
Proof. unfold String.ltb. destruct (String.compare a b); split; congruence. Qed.

Lemma compare_same a : String.compare a a = Eq.
Proof.
  pose proof (String.compare_antisym a a) as Ha.
  destruct (String.compare a a); [reflexivity | discriminate Ha | discriminate Ha].
Qed.

Lemma ltb_irrefl a : String.ltb a a = false.
Proof. apply ltb_not_Lt. rewrite compare_same. discriminate. Qed.

#[global] Instance newer_first_total : Total newer_first.
Proof.
  intros a b. unfold newer_first.
  destruct (String.compare (masteredAt a.2) (masteredAt b.2)) eqn:Ec.
  - apply String.compare_eq_iff in Ec. rewrite Ec, ltb_irrefl.
    destruct (String.compare a.1 b.1) eqn:Ek.
    + left. split; [reflexivity|]. intros _. apply ltb_not_Lt. congruence.
    + right. split; [reflexivity|]. intros _. apply ltb_not_Lt.
      rewrite String.compare_antisym, Ek. discriminate.
    + left. split; [reflexivity|]. intros _. apply ltb_not_Lt. congruence.
  - right. split.
    + apply ltb_not_Lt. rewrite String.compare_antisym, Ec. discriminate.
    + intros Heq. rewrite Heq, compare_same in Ec. discriminate.
  - left. split.
    + apply ltb_not_Lt. congruence.
    + intros Heq. rewrite Heq, compare_same in Ec. discriminate.
Qed.

Lemma newest_first_of_pairs (l : list (string * VaultItem)) :
  Sorted newer_first l -> newest_first (map snd l).
Proof.
  unfold newest_first. induction 1 as [|p l Hs IH Hhd]; simpl; constructor.
  - exact IH.
  - destruct Hhd as [|q l' Hpq]; simpl; constructor. apply Hpq.
Qed.

(** When the query is served, [fetchVault] returns the documents of the
    whole collection, none twice and none left out, newest first. *)
Lemma fetchVault_ordered `{Platform} (w : World) :
  configured w = true -> served (next_outcome w) = true ->
  exists items,
    (Firebase.fetchVault w).1 = Normal items
    /\ items ≡ₚ map snd (map_to_list (vault w))
    /\ newest_first items.
Proof.
  intros Hc Hs. destruct (fetchVault_spec w) as (Hr & _).
  rewrite Hc, Hs in Hr. simpl in Hr. eexists. split; [exact Hr|]. split.
  - now rewrite merge_sort_Permutation.
  - apply newest_first_of_pairs, Sorted_merge_sort, _.
Qed.

End OrderFacts.

(** ** Splitting the staging text into chunks *)

Module SplitFacts.
Import JS Spec TextSpec StringFacts StagingFacts Runtime.

Lemma rev_app_append s1 s2 : String.rev_app s1 s2 = String.rev s1 ++ s2.
Proof.
  revert s2. induction s1 as [|a s1 IH]; intros s2; [reflexivity|].
  unfold String.rev. simpl. rewrite (IH (String a s2)), (IH (String a EmptyString)).
  now rewrite append_assoc.
Qed.

Lemma rev_cons c s : String.rev (String c s) = String.rev s ++ String c EmptyString.
Proof. unfold String.rev at 1. simpl. apply rev_app_append. Qed.

Lemma occurrencesIn_cons ic pat c chunks :
  occurrencesIn ic pat (c :: chunks) = occurrences ic pat c + occurrencesIn ic pat chunks.
Proof. reflexivity. Qed.

(** A pattern none of whose characters is white space: trimming and
    splitting at blank lines lose none of its occurrences. *)
Section Solid.
Variable ic : bool.
Variables (p0 : ascii) (rest : string).
Hypothesis no_space : solid ic (String p0 rest).

Let pat : string := String p0 rest.

Lemma white_head c : isWhiteSpace c = true -> (canon ic c =? canon ic p0)%N = false.
Proof.
  intros Hc. specialize (no_space c Hc). simpl in no_space.
  apply andb_prop in no_space as [Hp _]. apply negb_true_iff in Hp.
  now rewrite N.eqb_sym.
Qed.

Lemma occurrences_white_cons c s :
  isWhiteSpace c = true -> occurrences ic pat (String c s) = occurrences ic pat s.
Proof.
  intros Hc. unfold pat. rewrite occurrences_cons.
  now rewrite (matchesAt_head_mismatch ic p0 rest c s (white_head c Hc)).
Qed.

Lemma allWhite_avoids_head s : allWhite s = true -> avoids ic p0 s = true.
Proof.
  induction s as [|c s IH]; [reflexivity|].
  intros Hw. simpl in Hw. apply andb_prop in Hw as [Hc Hs].
  simpl. rewrite (white_head c Hc). simpl. auto.
Qed.

Lemma occurrences_trimStart_solid s :
  occurrences ic pat (trimStart s) = occurrences ic pat s.
Proof.
  induction s as [|c s IH]; [reflexivity|].
  simpl trimStart. destruct (isWhiteSpace c) eqn:Hc; [|reflexivity].
  now rewrite IH, occurrences_white_cons.
Qed.

Lemma occurrences_trimEnd_solid s :
  occurrences ic pat (trimEnd s) = occurrences ic pat s.
Proof.
  destruct (trimEnd_decomp s) as (tail & Hs & Hw).
  rewrite Hs at 2. destruct tail as [|c u].
  - now rewrite append_empty_r.
  - simpl in Hw. apply andb_prop in Hw as [Hc Hu].
    rewrite (occurrences_app_sep ic p0 rest) by (assumption || now apply no_space).
    rewrite (occurrences_all_avoiding ic p0 rest u)
      by (assumption || now apply allWhite_avoids_head).
    fold pat. lia.
Qed.

Lemma occurrences_trim_solid s : occurrences ic pat (trim s) = occurrences ic pat s.
Proof. unfold trim. now rewrite occurrences_trimEnd_solid, occurrences_trimStart_solid. Qed.

(** The characters that a separator covers start no occurrence. *)
Lemma lastLineFeed_white pos s e :
  lastLineFeed pos s = Some e ->
  pos < e /\ occurrences ic pat (skipChars (e - pos) s) = occurrences ic pat s.
Proof.
  revert pos e. induction s as [|c s IH]; intros pos e; [discriminate|].
  cbn [lastLineFeed]. destruct (isWhiteSpace c) eqn:Hc; [|discriminate].
  destruct (lastLineFeed (S pos) s) as [e'|] eqn:El.
  - intros [= <-]. destruct (IH _ _ El) as [Hlt Hocc]. split; [lia|].
    replace (e' - pos) with (S (e' - S pos)) by lia. cbn [skipChars].
    now rewrite Hocc, occurrences_white_cons.
  - case_bool_decide; [|discriminate]. intros [= <-]. split; [lia|].
    replace (S pos - pos) with 1 by lia. cbn [skipChars].
    now rewrite occurrences_white_cons.
Qed.

Lemma matchBlankLine_white c s n :
  matchBlankLine (String c s) = Some n ->
  isWhiteSpace c = true /\ 1 < n
  /\ occurrences ic pat (skipChars (n - 1) s) = occurrences ic pat s.
Proof.
  cbn [matchBlankLine]. case_bool_decide as Hc; [|discriminate]. intros Hl.
  apply lastLineFeed_white in Hl as [Hlt Hocc]. subst c.
  split; [reflexivity|]. split; [exact Hlt | exact Hocc].
Qed.

Lemma splitGo_occurrences s : forall skip cur,
  occurrencesIn ic pat (splitGo skip cur s)
  = occurrences ic pat (String.rev cur ++ skipChars skip s).
Proof.
  induction s as [|c s IH]; intros skip cur.
  - destruct skip; simpl; unfold occurrencesIn; simpl; rewrite append_empty_r; lia.
  - destruct skip as [|k].
    + change (splitGo 0 cur (String c s))
        with (match matchBlankLine (String c s) with
              | Some n => String.rev cur :: splitGo (n - 1) EmptyString s
              | None => splitGo 0 (String c cur) s
              end).
      destruct (matchBlankLine (String c s)) as [n|] eqn:Em.
      * apply matchBlankLine_white in Em as (Hc & Hn & Hocc).
        rewrite occurrencesIn_cons, IH. simpl String.rev. rewrite append_nil, Hocc.
        simpl skipChars.
        rewrite (occurrences_app_sep ic p0 rest) by (assumption || now apply no_space).
        reflexivity.
      * rewrite IH, rev_cons, append_assoc. reflexivity.
    + simpl. apply IH.
Qed.

Lemma split_blank_lines_occurrences s :
  occurrencesIn ic pat (split_blank_lines (trim s)) = occurrences ic pat s.
Proof.
  unfold split_blank_lines. rewrite splitGo_occurrences. simpl.
  rewrite append_nil. apply occurrences_trim_solid.
Qed.

End Solid.

Lemma solid_marker : solid false "Question:".
Proof.
  intros c. destruct c as [[] [] [] [] [] [] [] []]; intros Hc;
    first [discriminate Hc | vm_compute; reflexivity].
Qed.

Lemma occurrencesIn_zero ic pat chunks :
  occurrencesIn ic pat chunks = 0 <-> Forall (fun c => occurrences ic pat c = 0) chunks.
Proof.
  induction chunks as [|c cs IH].
  - split; [constructor | reflexivity].
  - rewrite occurrencesIn_cons. split.
    + intros Hs. constructor; [lia|]. apply IH. lia.
    + intros Hall. inversion Hall; subst. apply IH in H2. lia.
Qed.

Lemma includes_false s pat : includes s pat = false <-> occurrences false pat s = 0.
Proof.
  rewrite includes_occurrences, negb_false_iff, Nat.eqb_eq. reflexivity.
Qed.

Lemma firstn_nil_iff {A} n (l : list A) : 0 < n -> firstn n l = [] <-> l = [].
Proof.
  intros Hn. destruct n; [lia|]. destruct l; simpl; split; congruence.
Qed.

Lemma filter_nil_iff {A} (P : A -> Prop) `{!forall x, Decision (P x)} (l : list A) :
  filter P l = [] <-> Forall (fun x => ~ P x) l.
Proof.
  induction l as [|x l IH]; [split; [constructor | reflexivity]|].
  rewrite filter_cons. destruct (decide (P x)) as [Hx|Hx].
  - split; [discriminate|]. intros Hall. inversion Hall; subst. contradiction.
  - rewrite IH. split; [now constructor | intros Hall; now inversion Hall].
Qed.

(** The scan finds a question exactly when the text holds the marker. *)
Lemma rawQuestions_nil text :
  App.rawQuestions text = [] <-> includes text "Question:" = false.
Proof.
  unfold App.rawQuestions, slice0. rewrite firstn_nil_iff by lia.
  rewrite filter_nil_iff, includes_false.
  rewrite <- (split_blank_lines_occurrences false "Q" "uestion:" solid_marker text).
  rewrite occurrencesIn_zero. apply Forall_iff. intros c.
  rewrite <- includes_false. destruct (includes c "Question:"); split; congruence.
Qed.

Lemma matchLiteral_prefix ic p q s :
  matchesAt ic (p ++ q) s = true -> matchesAt ic p s = true.
Proof.
  unfold matchesAt. revert s. induction p as [|x p IH]; intros s; [reflexivity|].
  rewrite append_cons. simpl. destruct s as [|c s]; [discriminate|].
  destruct (charMatches ic x c); [|discriminate].
  specialize (IH s).
  destruct (matchLiteral ic (p ++ q) s) as [[? ?]|]; [|discriminate].
  destruct (matchLiteral ic p s) as [[? ?]|]; [reflexivity|].
  intros _. now specialize (IH eq_refl).
Qed.

Lemma occurrences_prefix ic p q s :
  occurrences ic (p ++ q) s <= occurrences ic p s.
Proof.
  induction s as [|c s IH].
  - simpl. destruct (matchesAt ic (p ++ q) "") eqn:E; [|lia].
    now rewrite (matchLiteral_prefix _ _ _ _ E).
  - rewrite !occurrences_cons.
    destruct (matchesAt ic (p ++ q) (String c s)) eqn:E; [|lia].
    rewrite (matchLiteral_prefix _ _ _ _ E). lia.
Qed.

Lemma staged_has_marker text :
  0 < App.stagedCount text -> includes text "Question:" = true.
Proof.
  rewrite stagedCount_occurrences. intros Hc.
  pose proof (occurrences_prefix false "Question:" " " text) as Hle.
  change ("Question:" ++ " ") with "Question: " in Hle.
  destruct (includes text "Question:") eqn:E; [reflexivity|].
  apply includes_false in E. lia.
Qed.

Lemma marker_not_blank text :
  includes text "Question:" = true -> trim text <> EmptyString.
Proof.
  intros Hin Hblank.
  assert (Hocc : occurrences false "Question:" (trim text) = 0) by now rewrite Hblank.
  rewrite (occurrences_trim_solid false "Q" "uestion:" solid_marker) in Hocc.
  apply includes_false in Hocc. congruence.
Qed.

End SplitFacts.

(** ** The handlers of [App.tsx], case by case *)

Module HandlerFacts.
Import Runtime StoreSpec AppSpec SessionSpec EffFacts ServiceFacts AppFacts SplitFacts.
Local Open Scope eff_scope.

(** *** Dropping the positions of the duplicates *)

Lemma dropIndices_offset {A B} (f : A -> B) (idx : list Z) (g : nat -> nat) (xs : list A) :
  map snd (filter (fun p : nat * B => ~ (Z.of_nat p.1 ∈ idx))
             (imap (fun i x => (g i, x)) (map f xs)))
  = map f (map snd (filter (fun p : nat * A => ~ (Z.of_nat p.1 ∈ idx))
                      (imap (fun i x => (g i, x)) xs))).
Proof.
  revert g. induction xs as [|x xs IH]; intros g; [reflexivity|].
  simpl. rewrite !filter_cons. simpl.
  destruct (decide (Z.of_nat (g 0) ∉ idx)); simpl;
    [f_equal|]; exact (IH (g ∘ S)).
Qed.

Lemma dropIndices_map {A B} (f : A -> B) (idx : list Z) (xs : list A) :
  App.dropIndices idx (map f xs) = map f (App.dropIndices idx xs).
Proof. unfold App.dropIndices. apply (dropIndices_offset f idx (fun i => i)). Qed.

Lemma dropIndices_lookup {A} (idx : list Z) (xs : list A) x :
  x ∈ App.dropIndices idx xs <-> exists n, xs !! n = Some x /\ Z.of_nat n ∉ idx.
Proof.
  unfold App.dropIndices. rewrite list_elem_of_fmap. split.
  - intros ([i y] & -> & Hin). apply list_elem_of_filter in Hin as [Hout Hin].
    apply elem_of_lookup_imap in Hin as (j & z & [= -> ->] & Hj).
    exists j. split; [exact Hj | exact Hout].
  - intros (n & Hn & Hout). exists (n, x). split; [reflexivity|].
    apply list_elem_of_filter. split; [exact Hout|].
    apply elem_of_lookup_imap. exists n, x. split; [reflexivity | exact Hn].
Qed.

Lemma dropIndices_shorter {A} (idx : list Z) (xs : list A) i :
  i ∈ idx -> (0 <= i < Z.of_nat (length xs))%Z ->
  length (App.dropIndices idx xs) < length xs.
Proof.
  intros Hi Hrange. unfold App.dropIndices. rewrite length_map.
  destruct (lookup_lt_is_Some_2 xs (Z.to_nat i)) as [x Hx]; [lia|].
  rewrite <- (length_imap (fun i x => (i, x)) xs).
  apply (length_filter_lt _ _ (Z.to_nat i, x)).
  - apply elem_of_lookup_imap. exists (Z.to_nat i), x. split; [reflexivity | exact Hx].
  - simpl. rewrite Z2Nat.id by lia. intros Hout. now apply Hout.
Qed.

Lemma dropIndices_all {A} (idx : list Z) (xs : list A) :
  (forall n, n < length xs -> Z.of_nat n ∈ idx) -> App.dropIndices idx xs = [].
Proof.
  intros Hall. destruct (App.dropIndices idx xs) as [|x l] eqn:E; [reflexivity|].
  assert (Hx : x ∈ App.dropIndices idx xs) by (rewrite E; left).
  apply dropIndices_lookup in Hx as (n & Hn & Hout).
  exfalso. apply Hout, Hall. eapply lookup_lt_Some. exact Hn.
Qed.

Section WithPlatform.
Context `{Platform}.

(** *** Every handler completes normally *)

Lemma handleInitialScan_normal st w : normal (App.handleInitialScan st w).1 = true.
Proof.
  unfold App.handleInitialScan. destruct (bool_decide _); [reflexivity|].
  unfold try_catch at 1.
  match goal with |- context [?m w] =>
    lazymatch m with
    | if _ then _ else _ => destruct (m w) as [[a|e] w1]; reflexivity
    end
  end.
Qed.

Lemma fetchVault_normal w : normal (Firebase.fetchVault w).1 = true.
Proof. destruct (fetchVault_spec w) as (Hr & _). now rewrite Hr. Qed.

Lemma step_normal a st w : normal (App.step a st w).1 = true.
Proof.
  destruct a; simpl; try reflexivity.
  - unfold App.handlePushToEngine. destruct (6 <=? _)%nat; reflexivity.
  - apply handleInitialScan_normal.
  - unfold App.onSkipDuplicates. destruct (App.pendingBatch st); [|reflexivity].
    apply executeProcessing_normal.
  - unfold App.onProcessAll. destruct (App.pendingBatch st); [|reflexivity].
    apply executeProcessing_normal.
  - unfold bind. pose proof (fetchVault_normal w) as Hn.
    destruct (Firebase.fetchVault w) as [[items|e] w1]; [reflexivity | discriminate].
Qed.

Lemma run_normal actions st w : normal (App.run actions st w).1 = true.
Proof.
  revert st w. induction actions as [|a rest IH]; intros st w; [reflexivity|].
  simpl. unfold bind. pose proof (step_normal a st w) as Hn.
  destruct (App.step a st w) as [[st1|e] w1]; [apply IH | discriminate].
Qed.

(** *** The scan of a text without questions *)

Lemma handleInitialScan_blank st w :
  JS.trim (App.inputText st) = EmptyString -> App.handleInitialScan st w = (Normal st, w).
Proof.
  intros Hb. unfold App.handleInitialScan. now rewrite bool_decide_eq_true_2.
Qed.

Lemma handleInitialScan_no_questions st w :
  JS.trim (App.inputText st) <> EmptyString ->
  App.rawQuestions (App.inputText st) = [] ->
  App.handleInitialScan st w =
  (Normal (App.setStatus Types.ERROR
             (App.setError
                (Some "No valid questions detected. Ensure you push questions from the Scraper first.")
                (App.setError None (App.setStatus Types.LOADING st)))), w).
Proof.
  intros Hb Hraw. unfold App.handleInitialScan.
  rewrite bool_decide_eq_false_2 by exact Hb. cbv zeta.
  rewrite Hraw. reflexivity.
Qed.

(** *** [executeProcessing], case by case *)

Lemma executeProcessing_empty hashes st w :
  App.executeProcessing [] hashes st w =
  (Normal (App.setPendingBatch None
             (App.setStatus Types.IDLE
                (App.setError (Some "No new questions to process.") st))), w).
Proof. reflexivity. Qed.

Lemma executeProcessing_offline batch hashes st w :
  App.isApiKeySet st = false -> (App.executeProcessing batch hashes st w).2 = w.
Proof.
  intros Hkey. unfold App.executeProcessing.
  destruct (bool_decide _); [reflexivity|]. now rewrite Hkey.
Qed.

Lemma executeProcessing_failure batch hashes st w e w1 :
  batch <> [] ->
  App.isApiKeySet st = true ->
  Gemini.processInsights (verified batch) w = (Throw e, w1) ->
  App.executeProcessing batch hashes st w =
  (Normal (App.setStatus Types.ERROR
             (App.setError
                (Some (or_else (Some (message e)) "Processing failed. Try a smaller batch."))
                (App.setPendingBatch None
                   (App.setError None (App.setStatus Types.LOADING st))))), w1).
Proof.
  intros Hbatch Hkey Hai. unfold App.executeProcessing.
  rewrite bool_decide_eq_false_2 by (destruct batch; [congruence | discriminate]).
  rewrite Hkey. change (negb true) with false. cbv iota.
  unfold try_catch at 1. unfold bind at 1. cbv beta.
  change (map _ batch) with (verified batch). rewrite Hai. reflexivity.
Qed.

(** *** What a run of [executeProcessing] can emit *)

Lemma saveBlocks_writes (P : Event -> Prop) i blocks domain hashes :
  (forall h w r, h ∈ hashes -> P (EvSetDoc h (vaultItem w h domain r))) ->
  keeps (extends P) (App.saveBlocks i blocks domain hashes).
Proof.
  intros HP. revert i. induction blocks as [|b bs IH]; intros i; simpl; [frame_step|].
  frame_step; [|apply IH].
  destruct (truthy (hashes !! i)) eqn:Ht; [|frame_step].
  apply saveToVault_extends. intros w. apply HP, truthy_lookup, Ht.
Qed.

Lemma executeProcessing_writes (P : Event -> Prop) batch hashes st :
  (forall model req, P (EvGenerateContent model req)) ->
  (forall msg, P (EvConsole msg)) ->
  (forall h d, h ∈ hashes -> P (EvSetDoc h d)) ->
  keeps (extends P) (App.executeProcessing batch hashes st).
Proof.
  intros Hai Hlog Hset. unfold App.executeProcessing.
  frame_step; [frame_step|]. frame_step; [frame_step|].
  frame_step; [|frame_step].
  frame_step; [apply processInsights_extends; intros model; apply Hai|].
  frame_step; [|frame_step].
  frame_step; [apply saveBlocks_writes; intros h w r Hh; now apply Hset|].
  apply emit_extends, Hlog.
Qed.

Lemma executeProcessing_harmless batch hashes st :
  App.isApiKeySet st = false ->
  keeps (extends harmless) (App.executeProcessing batch hashes st).
Proof.
  intros Hkey w. rewrite executeProcessing_offline by exact Hkey. reflexivity.
Qed.

Lemma handleInitialScan_harmless st :
  App.isApiKeySet st = false -> keeps (extends harmless) (App.handleInitialScan st).
Proof.
  intros Hkey. unfold App.handleInitialScan. cbv zeta.
  frame_step; [frame_step|].
  frame_step; [|frame_step].
  frame_step; [frame_step|].
  frame_step.
  - frame_step.
    + frame_step. apply checkDuplicate_extends. exact I.
    + frame_step; [apply emit_extends; exact I | frame_step].
  - frame_step; [frame_step|].
    now apply executeProcessing_harmless.
Qed.

Lemma step_harmless a st :
  App.isApiKeySet st = false -> keeps (extends harmless) (App.step a st).
Proof.
  intros Hkey. destruct a; simpl.
  - frame_step.
  - unfold App.handlePushToEngine. cbv zeta.
    frame_step; [|frame_step].
    frame_step; [apply emit_extends; exact I | frame_step].
  - now apply handleInitialScan_harmless.
  - unfold App.onSkipDuplicates.
    destruct (App.pendingBatch st); [now apply executeProcessing_harmless | frame_step].
  - unfold App.onProcessAll.
    destruct (App.pendingBatch st); [now apply executeProcessing_harmless | frame_step].
  - frame_step.
  - frame_step; [|frame_step]. unfold App.checkApiKey.
    frame_step; [apply quiet_extends, quiet_localStorage_getItem|].
    frame_step; [apply quiet_extends, quiet_getenv | frame_step].
  - frame_step; [apply fetchVault_extends; exact I | frame_step].
Qed.

Lemma executeProcessing_offline_vault batch hashes st :
  App.isApiKeySet st = false ->
  keeps same_vault (App.executeProcessing batch hashes st).
Proof.
  intros Hkey w. rewrite executeProcessing_offline by exact Hkey. reflexivity.
Qed.

Lemma step_offline_vault a st :
  App.isApiKeySet st = false -> keeps same_vault (App.step a st).
Proof.
  intros Hkey. destruct a; simpl.
  - frame_step.
  - unfold App.handlePushToEngine. cbv zeta.
    frame_step; [|frame_step].
    frame_step; [apply emit_same_vault | frame_step].
  - unfold App.handleInitialScan. cbv zeta.
    frame_step; [frame_step|].
    frame_step; [|frame_step].
    frame_step; [frame_step|].
    frame_step.
    + frame_step.
      * frame_step. apply checkDuplicate_same_vault.
      * frame_step; [apply emit_same_vault | frame_step].
    + frame_step; [frame_step|].
      now apply executeProcessing_offline_vault.
  - unfold App.onSkipDuplicates.
    destruct (App.pendingBatch st); [now apply executeProcessing_offline_vault | frame_step].
  - unfold App.onProcessAll.
    destruct (App.pendingBatch st); [now apply executeProcessing_offline_vault | frame_step].
  - frame_step.
  - frame_step; [|frame_step]. unfold App.checkApiKey.
    frame_step; [apply quiet_same_vault, quiet_localStorage_getItem|].
    frame_step; [apply quiet_same_vault, quiet_getenv | frame_step].
  - frame_step; [apply fetchVault_same_vault | frame_step].
Qed.

(** *** The state between two actions *)






(** *** The writes that store the blocks *)

Lemma blockWrites_now w w' domain hashes blocks :
  now w' = now w -> blockWrites w' domain hashes blocks = blockWrites w domain hashes blocks.
Proof. intros Hn. unfold blockWrites, vaultItem. now rewrite Hn. Qed.

Lemma blockWrites_nil w domain blocks : blockWrites w domain [] blocks = [].
Proof. reflexivity. Qed.

Lemma blockWrites_cons w domain h hashes b blocks :
  blockWrites w domain (h :: hashes) (b :: blocks) =
  ((if bool_decide (h = EmptyString) then []
    else [(h, vaultItem w h domain (Types.foundationalRule b))])
   ++ blockWrites w domain hashes blocks)%list.
Proof.
  unfold blockWrites. simpl. rewrite filter_cons. simpl.
  destruct (decide (h <> EmptyString)) as [Hh|Hh].
  - rewrite bool_decide_eq_false_2 by exact Hh. reflexivity.
  - rewrite bool_decide_eq_true_2 by (destruct (decide (h = EmptyString)); tauto).
    reflexivity.
Qed.


Lemma saveBlocks_events i blocks domain hashes w :
  configured w = true ->
  events (App.saveBlocks i blocks domain hashes w).2 =
  (events w ++ map (fun p => EvSetDoc p.1 p.2)
                   (blockWrites w domain (drop i hashes) blocks))%list
  /\ (healthy w ->
      vault (App.saveBlocks i blocks domain hashes w).2 =
      foldl (fun v p => <[p.1 := p.2]> v) (vault w)
            (blockWrites w domain (drop i hashes) blocks)).
Proof.
  revert i w. induction blocks as [|b bs IH]; intros i w Hc.
  { simpl. unfold blockWrites. rewrite zip_with_nil_r. simpl.
    split; [now rewrite app_nil_r | reflexivity]. }
  simpl. unfold bind.
  destruct (hashes !! i) as [h|] eqn:Eh.
  - rewrite (drop_S _ _ _ Eh), blockWrites_cons.
    destruct h as [|c s]; simpl.
    + apply IH, Hc.
    + destruct (saveToVault_spec (String c s) domain (Types.foundationalRule b) w)
        as (Hn & Hs & Hv & He & Ho & Hc1).
      destruct (Firebase.saveToVault _ _ _ w) as [r w1]. simpl in *. subst r.
      rewrite Hc in *. simpl in *.
      assert (Hnow : now w1 = now w) by (unfold surroundings in Hs; congruence).
      destruct (IH (S i) w1 Hc1) as (He2 & Hv2).
      rewrite (blockWrites_now w w1) in He2, Hv2 by exact Hnow.
      split.
      * rewrite He2, He, <- app_assoc. reflexivity.
      * intros Hw. destruct (healthy_served w Hw) as [_ Hsv]. rewrite Hsv in Hv.
        rewrite Hv2 by (apply (healthy_after w); [exact Hw | congruence | exact Ho]).
        now rewrite Hv.
  - simpl. apply lookup_ge_None in Eh.
    rewrite (drop_ge _ _ Eh), blockWrites_nil.
    destruct (IH (S i) w Hc) as (He2 & Hv2).
    rewrite drop_ge, blockWrites_nil in He2, Hv2 by lia.
    split; assumption.
Qed.


End WithPlatform.
End HandlerFacts.

(** ** The encoding of a question text *)

Module EncodingFacts.
Import JS Spec TextSpec StringFacts HashFacts.

Lemma to_N_byte_of_ascii c : Byte.to_N (byte_of_ascii c) = N_of_ascii c.
Proof. destruct c as [[] [] [] [] [] [] [] []]; reflexivity. Qed.

Lemma to_N_low_byte n : (n < 256)%N -> Byte.to_N (Sha256.low_byte n) = n.
Proof.
  intros Hn. unfold Sha256.low_byte. rewrite to_N_byte_of_ascii.
  now apply N_ascii_embedding.
Qed.

Lemma utf8_decode_cons b bs :
  utf8_decode (b :: bs) =
  if (Byte.to_N b <? 128)%N then
    match utf8_decode bs with
    | Some s => Some (String (ascii_of_N (Byte.to_N b)) s)
    | None => None
    end
  else
    match bs with
    | b2 :: bs'' =>
        if ((194 <=? Byte.to_N b) && (Byte.to_N b <=? 195)
            && (128 <=? Byte.to_N b2) && (Byte.to_N b2 <=? 191))%N then
          match utf8_decode bs'' with
          | Some s =>
              Some (String (ascii_of_N ((Byte.to_N b - 192) * 64 + (Byte.to_N b2 - 128))) s)
          | None => None
          end
        else None
    | [] => None
    end.
Proof. reflexivity. Qed.

Lemma utf8_decode_unit c bs :
  utf8_decode (Firebase.encode_unit c ++ bs) =
  match utf8_decode bs with
  | Some s => Some (String c s)
  | None => None
  end.
Proof.
  unfold Firebase.encode_unit.
  pose proof (N_ascii_bounded c) as Hb.
  destruct (N_of_ascii c <? 128)%N eqn:Hsmall.
  - change ([byte_of_ascii c] ++ bs)%list with (byte_of_ascii c :: bs).
    rewrite utf8_decode_cons, to_N_byte_of_ascii, Hsmall, ascii_N_embedding.
    reflexivity.
  - apply N.ltb_ge in Hsmall.
    pose proof (N.div_mod' (N_of_ascii c) 64) as Hdm.
    pose proof (N.mod_lt (N_of_ascii c) 64 ltac:(discriminate)) as Hm.
    set (q := (N_of_ascii c / 64)%N) in *. set (r := (N_of_ascii c mod 64)%N) in *.
    change ([Sha256.low_byte (192 + q); Sha256.low_byte (128 + r)] ++ bs)%list
      with (Sha256.low_byte (192 + q) :: Sha256.low_byte (128 + r) :: bs).
    clearbody q r.
    rewrite utf8_decode_cons, !to_N_low_byte by lia.
    replace (192 + q <? 128)%N with false by (symmetry; apply N.ltb_ge; lia).
    replace (194 <=? 192 + q)%N with true by (symmetry; apply N.leb_le; lia).
    replace (192 + q <=? 195)%N with true by (symmetry; apply N.leb_le; lia).
    replace (128 <=? 128 + r)%N with true by (symmetry; apply N.leb_le; lia).
    replace (128 + r <=? 191)%N with true by (symmetry; apply N.leb_le; lia).
    simpl andb. cbv iota.
    replace ((192 + q - 192) * 64 + (128 + r - 128))%N with (N_of_ascii c) by lia.
    rewrite ascii_N_embedding. reflexivity.
Qed.

Lemma utf8_decode_encode s : utf8_decode (Firebase.TextEncoder_encode s) = Some s.
Proof.
  induction s as [|c s IH]; [reflexivity|].
  simpl Firebase.TextEncoder_encode. now rewrite utf8_decode_unit, IH.
Qed.

Lemma TextEncoder_encode_inj s t :
  Firebase.TextEncoder_encode s = Firebase.TextEncoder_encode t -> s = t.
Proof.
  intros He. pose proof (utf8_decode_encode s) as Hs.
  rewrite He, utf8_decode_encode in Hs. congruence.
Qed.

Lemma hex_inj a b : hex a = hex b -> a = b.
Proof.
  intros He. pose proof (hex_decode_hex a) as Ha.
  rewrite He, hex_decode_hex in Ha. congruence.
Qed.

End EncodingFacts.

(** ** Code fences around the answer of the AI *)

Module FenceFacts.
Import JS Spec TextSpec StringFacts Runtime.

Lemma stripFences_skip k c s :
  Gemini.stripFences (S k) (String c s) = Gemini.stripFences k s.
Proof. reflexivity. Qed.

Lemma stripFences_here c s :
  Gemini.stripFences 0 (String c s) =
  match Gemini.matchFence (String c s) with
  | Some n => Gemini.stripFences (n - 1) s
  | None => String c (Gemini.stripFences 0 s)
  end.
Proof. reflexivity. Qed.

Lemma noBacktick_cons c s :
  noBacktick (String c s) = true <-> c <> tick /\ noBacktick s = true.
Proof.
  unfold noBacktick. simpl. rewrite andb_true_iff, negb_true_iff, N.eqb_neq.
  split; intros [Hc Hs]; (split; [|exact Hs]).
  - intros ->. now apply Hc.
  - intros Hn. apply Hc. rewrite <- (ascii_N_embedding c), <- (ascii_N_embedding tick).
    unfold canon in Hn. now rewrite Hn.
Qed.

Lemma startsWith_head_mismatch c s p pat :
  p <> c -> startsWith (String c s) (String p pat) = false.
Proof.
  intros Hne. unfold startsWith. simpl. unfold charMatches.
  now rewrite bool_decide_eq_false_2.
Qed.

Lemma startsWith_head c s pat :
  startsWith (String c s) (String c pat) = startsWith s pat.
Proof.
  unfold startsWith. simpl. unfold charMatches.
  rewrite bool_decide_eq_true_2 by reflexivity.
  now destruct (matchLiteral false pat s) as [[? ?]|].
Qed.

(** A character that is no backtick starts no fence, unless it is a line
    feed with a fence behind it. *)
Lemma matchFence_plain c s :
  c <> tick -> startsWith s Gemini.fence = false ->
  Gemini.matchFence (String c s) = None.
Proof.
  intros Hc Hs. unfold Gemini.matchFence.
  change (Gemini.fence ++ "json") with (String tick "``json").
  change (Gemini.LF ++ Gemini.fence) with (String LFc Gemini.fence).
  change Gemini.fence with (String tick "``") at 2.
  assert (Hopen : matchLiteral false (String tick "``json") (String c s) = None).
  { simpl. unfold charMatches.
    now rewrite bool_decide_eq_false_2 by (intros E; now apply Hc). }
  rewrite Hopen.
  rewrite (startsWith_head_mismatch c s tick) by (intros E; now apply Hc).
  destruct (decide (c = LFc)) as [->|Hlf].
  - now rewrite startsWith_head, Hs.
  - now rewrite startsWith_head_mismatch by (intros E; now apply Hlf).
Qed.

Lemma startsWith_fence_plain body rest :
  noBacktick body = true -> startsWith rest Gemini.fence = false ->
  startsWith (body ++ rest) Gemini.fence = false.
Proof.
  intros Hb Hr. destruct body as [|x body]; [exact Hr|].
  apply noBacktick_cons in Hb as [Hx _]. rewrite append_cons.
  apply startsWith_head_mismatch. intros E. now apply Hx.
Qed.

Lemma stripFences_plain body rest :
  noBacktick body = true -> startsWith rest Gemini.fence = false ->
  Gemini.stripFences 0 (body ++ rest) = body ++ Gemini.stripFences 0 rest.
Proof.
  intros Hb Hr. induction body as [|c body IH]; [reflexivity|].
  apply noBacktick_cons in Hb as [Hc Hb].
  rewrite !append_cons, stripFences_here.
  rewrite matchFence_plain by (assumption || now apply startsWith_fence_plain).
  now rewrite IH.
Qed.

Lemma stripFences_opening t :
  Gemini.stripFences 0 (Gemini.fence ++ "json" ++ Gemini.LF ++ t) = Gemini.stripFences 0 t.
Proof.
  change (Gemini.fence ++ "json" ++ Gemini.LF ++ t)
    with (String tick (String tick (String tick
            (String "j" (String "s" (String "o" (String "n" (String LFc t)))))))).
  rewrite stripFences_here.
  assert (Hm : Gemini.matchFence
                 (String tick (String tick (String tick
                    (String "j" (String "s" (String "o" (String "n" (String LFc t))))))))
               = Some 8) by (vm_compute; reflexivity).
  rewrite Hm. reflexivity.
Qed.

Lemma stripFences_closing :
  Gemini.stripFences 0 (Gemini.LF ++ Gemini.fence) = EmptyString.
Proof. vm_compute. reflexivity. Qed.

Lemma stripFences_bare body :
  noBacktick body = true -> Gemini.stripFences 0 body = body.
Proof.
  intros Hb. rewrite <- (append_empty_r body) at 1.
  rewrite stripFences_plain by (assumption || reflexivity).
  apply append_empty_r.
Qed.

Lemma stripFences_fenced body :
  noBacktick body = true ->
  Gemini.stripFences 0
    (Gemini.fence ++ "json" ++ Gemini.LF ++ body ++ Gemini.LF ++ Gemini.fence) = body.
Proof.
  intros Hb. rewrite stripFences_opening.
  rewrite stripFences_plain by (assumption || reflexivity).
  rewrite stripFences_closing. apply append_empty_r.
Qed.

End FenceFacts.

(** ** Reading back what was stored *)

Module StoreFacts.
Import Runtime StoreSpec ViewSpec EffFacts ServiceFacts AppFacts OrderFacts.

Section WithPlatform.
Context `{Platform}.

Lemma checkApiKey_spec w :
  App.checkApiKey w = (Normal (negb (bool_decide (apiKey w = EmptyString))), w).
Proof.
  unfold App.checkApiKey, apiKey, bind, localStorage_getItem, getenv, ret, truthy, or_else.
  destruct (localStorage w !! "gemini_api_key") as [[|c s]|];
    destruct (env w !! "VITE_API_KEY") as [[|c' s']|]; reflexivity.
Qed.

Lemma processInsights_request qs w :
  apiKey w <> EmptyString ->
  events (Gemini.processInsights qs w).2 =
  (events w ++ [EvGenerateContent "gemini-2.0-flash-thinking-exp-01-21" (InsightRequest qs)])%list.
Proof.
  intros Hkey. unfold Gemini.processInsights, bind.
  rewrite getApiKey_spec. rewrite bool_decide_eq_false_2 by exact Hkey.
  unfold generateContent, bind, emit. simpl.
  destruct (aiReplies w) as [|[msg|t cs] rs]; simpl; [reflexivity | reflexivity |].
  destruct (JSON_parse_result _); reflexivity.
Qed.

Lemma cleanAndExtractAnswers_request rawText pdf w :
  apiKey w <> EmptyString ->
  events (Gemini.cleanAndExtractAnswers rawText pdf w).2 =
  (events w ++
   [EvGenerateContent "gemini-2.0-flash-exp"
      (if truthy pdf then CleanPdfRequest (or_else pdf EmptyString)
       else CleanTextRequest ("RAW INPUT DATA:" ++ Gemini.LF ++ rawText))])%list.
Proof.
  intros Hkey. unfold Gemini.cleanAndExtractAnswers, bind.
  rewrite getApiKey_spec. rewrite bool_decide_eq_false_2 by exact Hkey.
  unfold generateContent, bind, emit. simpl.
  destruct (aiReplies w) as [|[msg|t cs] rs]; simpl; [reflexivity | reflexivity |].
  destruct (JSON_parse_questions _); reflexivity.
Qed.

Lemma keyed_hashes (l : list (string * VaultItem)) :
  (forall k d, (k, d) ∈ l -> hash d = k) -> map hash (map snd l) = map fst l.
Proof.
  induction l as [|[k d] l IH]; intros Hk; [reflexivity|].
  simpl. rewrite (Hk k d) by left. f_equal. apply IH.
  intros k' d' Hin. apply Hk. now right.
Qed.

End WithPlatform.
End StoreFacts.

(** ** The order of timestamps, and filtering the vault *)

Module FilterFacts.
Import JS Spec Runtime StoreSpec ViewSpec HashFacts OrderFacts.

Lemma ascii_compare_refl x : Ascii.compare x x = Eq.
Proof. unfold Ascii.compare. apply N.compare_refl. Qed.

Lemma ascii_compare_lt_trans x y z :
  Ascii.compare x y = Lt -> Ascii.compare y z = Lt -> Ascii.compare x z = Lt.
Proof.
  unfold Ascii.compare. rewrite !N.compare_lt_iff. lia.
Qed.

Lemma compare_lt_trans a : forall b c,
  String.compare a b = Lt -> String.compare b c = Lt -> String.compare a c = Lt.
Proof.
  induction a as [|x a IH]; intros [|y b] [|z c]; simpl; try discriminate; try reflexivity.
  destruct (Ascii.compare x y) eqn:Exy; try discriminate;
    destruct (Ascii.compare y z) eqn:Eyz; try discriminate.
  - apply Ascii.compare_eq_iff in Exy, Eyz. subst. rewrite ascii_compare_refl. apply IH.
  - apply Ascii.compare_eq_iff in Exy. subst. now rewrite Eyz.
  - apply Ascii.compare_eq_iff in Eyz. subst. now rewrite Exy.
  - now rewrite (ascii_compare_lt_trans _ _ _ Exy Eyz).
Qed.

Lemma not_older_trans a b c :
  String.ltb a b = false -> String.ltb b c = false -> String.ltb a c = false.
Proof.
  rewrite !ltb_not_Lt. intros Hab Hbc Hac.
  destruct (String.compare a b) eqn:Eab; [| now apply Hab |].
  - apply String.compare_eq_iff in Eab. subst. now apply Hbc.
  - destruct (String.compare b c) eqn:Ebc; [| now apply Hbc |].
    + apply String.compare_eq_iff in Ebc. subst. congruence.
    + assert (Hcb : String.compare c b = Lt)
        by (rewrite String.compare_antisym, Ebc; reflexivity).
      assert (Hba : String.compare b a = Lt)
        by (rewrite String.compare_antisym, Eab; reflexivity).
      pose proof (compare_lt_trans _ _ _ Hcb Hba) as Hca.
      rewrite String.compare_antisym, Hca in Hac. discriminate.
Qed.

#[global] Instance not_older_transitive :
  Transitive (fun x y : VaultItem => String.ltb (masteredAt x) (masteredAt y) = false).
Proof. intros x y z. apply not_older_trans. Qed.

Lemma StronglySorted_filter {A} (R : relation A) (P : A -> Prop)
  `{!forall x, Decision (P x)} (l : list A) :
  StronglySorted R l -> StronglySorted R (filter P l).
Proof.
  induction 1 as [|x l Hs IH Hall]; [constructor|].
  rewrite filter_cons. destruct (decide (P x)); [|exact IH].
  constructor; [exact IH|].
  apply Forall_forall. intros y Hy. apply list_elem_of_filter in Hy as [_ Hy].
  rewrite Forall_forall in Hall. now apply Hall.
Qed.

Lemma newest_first_filter (P : VaultItem -> Prop) `{!forall x, Decision (P x)} items :
  newest_first items -> newest_first (filter P items).
Proof.
  unfold newest_first. intros Hs.
  apply StronglySorted_Sorted, StronglySorted_filter.
  now apply Sorted_StronglySorted; [apply _|].
Qed.

Lemma includes_empty s : includes s EmptyString = true.
Proof. destruct s; reflexivity. Qed.

Lemma filter_all {A} (P : A -> Prop) `{!forall x, Decision (P x)} (l : list A) :
  Forall P l -> filter P l = l.
Proof.
  induction 1 as [|x l Hx Hl IH]; [reflexivity|].
  rewrite filter_cons. destruct (decide (P x)); [now rewrite IH | contradiction].
Qed.

Section WithPlatform.
Context `{Platform}.

Lemma shown_unfiltered item :
  VaultView.shown EmptyString EmptyString EmptyString item = true.
Proof.
  unfold VaultView.shown. simpl toLowerCase. rewrite !includes_empty. reflexivity.
Qed.

Lemma shown_search_case s t from to item :
  differOnlyInCase s t = true ->
  VaultView.shown s from to item = VaultView.shown t from to item.
Proof.
  intros Hst. unfold VaultView.shown.
  now rewrite (differOnlyInCase_lower s t Hst).
Qed.

End WithPlatform.
End FilterFacts.

(** ** Local storage across a session *)

Module SessionFacts.
Import Runtime Storage StoreSpec AppSpec SessionSpec EffFacts ServiceFacts AppFacts.
Import HandlerFacts StoreFacts.
Local Open Scope eff_scope.

#[global] Instance sameStorage_preorder : PreOrder sameStorage.
Proof.
  split.
  - intros w. reflexivity.
  - intros a b c E1 E2. unfold sameStorage in *. congruence.
Qed.

Lemma keeps_unchanged (R : World -> World -> Prop) `{!PreOrder R} {A} (m : Eff A) :
  (forall w, (m w).2 = w) -> keeps R m.
Proof. intros Hm w. rewrite Hm. reflexivity. Qed.

Lemma surroundings_storage w w' : surroundings w' = surroundings w -> sameStorage w w'.
Proof. unfold surroundings, sameStorage. congruence. Qed.

Lemma emit_storage e : keeps sameStorage (emit e).
Proof. intros w. reflexivity. Qed.

Lemma generateContent_storage model req : keeps sameStorage (generateContent model req).
Proof.
  intros w. unfold generateContent, bind, emit. simpl.
  destruct (aiReplies w) as [|[msg|t cs] rs]; reflexivity.
Qed.

Section WithPlatform.
Context `{Platform}.

Lemma checkDuplicate_storage h : keeps sameStorage (Firebase.checkDuplicate h).
Proof. intros w. apply surroundings_storage, (checkDuplicate_spec h w). Qed.

Lemma saveToVault_storage h d r : keeps sameStorage (Firebase.saveToVault h d r).
Proof. intros w. apply surroundings_storage, (saveToVault_spec h d r w). Qed.

Lemma fetchVault_storage : keeps sameStorage Firebase.fetchVault.
Proof. intros w. apply surroundings_storage, (fetchVault_spec w). Qed.

Lemma getApiKey_storage : keeps sameStorage Gemini.getApiKey.
Proof. apply keeps_unchanged; [apply _|]. intros w. now rewrite getApiKey_spec. Qed.

Lemma checkApiKey_storage : keeps sameStorage App.checkApiKey.
Proof. apply keeps_unchanged; [apply _|]. intros w. now rewrite checkApiKey_spec. Qed.

Lemma processInsights_storage qs : keeps sameStorage (Gemini.processInsights qs).
Proof.
  unfold Gemini.processInsights.
  frame_step; [apply getApiKey_storage|].
  frame_step; [frame_step|].
  frame_step; [apply generateContent_storage|].
  frame_step; frame_step.
Qed.

Lemma saveBlocks_storage i blocks domain hashes :
  keeps sameStorage (App.saveBlocks i blocks domain hashes).
Proof.
  revert i. induction blocks as [|b bs IH]; intros i; simpl; [frame_step|].
  frame_step; [|apply IH].
  frame_step; [apply saveToVault_storage | frame_step].
Qed.

Lemma executeProcessing_storage batch hashes st :
  keeps sameStorage (App.executeProcessing batch hashes st).
Proof.
  unfold App.executeProcessing.
  frame_step; [frame_step|]. frame_step; [frame_step|].
  frame_step; [|frame_step].
  frame_step; [apply processInsights_storage|].
  frame_step; [|frame_step].
  frame_step; [apply saveBlocks_storage | apply emit_storage].
Qed.

Lemma handleInitialScan_storage st : keeps sameStorage (App.handleInitialScan st).
Proof.
  unfold App.handleInitialScan. cbv zeta.
  frame_step; [frame_step|].
  frame_step; [|frame_step].
  frame_step; [frame_step|].
  frame_step.
  - frame_step.
    + frame_step. apply checkDuplicate_storage.
    + frame_step; [apply emit_storage | frame_step].
  - frame_step; [frame_step | apply executeProcessing_storage].
Qed.

Lemma step_storage a st : keeps sameStorage (App.step a st).
Proof.
  destruct a; simpl.
  - frame_step.
  - unfold App.handlePushToEngine. cbv zeta.
    frame_step; [|frame_step].
    frame_step; [apply emit_storage | frame_step].
  - apply handleInitialScan_storage.
  - unfold App.onSkipDuplicates. frame_step; [apply executeProcessing_storage | frame_step].
  - unfold App.onProcessAll. frame_step; [apply executeProcessing_storage | frame_step].
  - frame_step.
  - frame_step; [apply checkApiKey_storage | frame_step].
  - frame_step; [apply fetchVault_storage | frame_step].
Qed.

(** *** The staging text and its copy in local storage *)

Lemma or_else_Some (x : string) : or_else (Some x) EmptyString = x.
Proof. now destruct x. Qed.

Lemma persistInput_spec st w :
  (AppSession.persistInput st w).1 = Normal tt
  /\ stored (AppSession.persistInput st w).2 st
  /\ sameStorageBut AppSession.STORAGE_KEY_INPUT w (AppSession.persistInput st w).2.
Proof.
  unfold AppSession.persistInput, localStorage_setItem, stored, sameStorageBut. simpl.
  split; [reflexivity|]. split.
  - rewrite lookup_insert_eq. apply or_else_Some.
  - intros k Hk. now rewrite lookup_insert_ne.
Qed.

Lemma sameStorageBut_refl key w : sameStorageBut key w w.
Proof. intros k _. reflexivity. Qed.

Lemma sameStorageBut_trans key w1 w2 w3 :
  sameStorageBut key w1 w2 -> sameStorageBut key w2 w3 -> sameStorageBut key w1 w3.
Proof. intros H12 H23 k Hk. rewrite (H23 k Hk). now apply H12. Qed.

Lemma sameStorage_but key w w' : sameStorage w w' -> sameStorageBut key w w'.
Proof. intros E k _. now rewrite E. Qed.

(** The handler of an action, before the render. *)
Lemma dispatch_handler a st w :
  exists st1 w1,
    match a with
    | App.Reset => AppSession.handleReset st
    | _ => App.step a st
    end w = (Normal st1, w1)
    /\ sameStorageBut AppSession.STORAGE_KEY_INPUT w w1
    /\ (App.inputText st1 = App.inputText st -> stored w st -> stored w1 st1)
    /\ (a <> App.Reset -> App.step a st w = (Normal st1, w1)).
Proof.
  assert (Hgen : a = App.Reset \/ a <> App.Reset)
    by (destruct a; (now left) || (right; discriminate)).
  destruct Hgen as [->|Ha].
  - eexists _, _. split; [reflexivity|]. split; [|split].
    + intros k Hk. simpl. now rewrite lookup_delete_ne.
    + unfold stored. simpl. intros Htext _. rewrite lookup_delete_eq. reflexivity.
    + congruence.
  - assert (Hm : match a with
                 | App.Reset => AppSession.handleReset st
                 | _ => App.step a st
                 end = App.step a st) by (destruct a; congruence).
    rewrite Hm. pose proof (step_normal a st w) as Hn.
    pose proof (step_storage a st w) as Hs.
    destruct (App.step a st w) as [[st1|e] w1]; [|discriminate].
    exists st1, w1. split; [reflexivity|]. split; [|split].
    + now apply sameStorage_but.
    + unfold stored. simpl in Hs. unfold sameStorage in Hs. intros <-. now rewrite Hs.
    + reflexivity.
Qed.

Lemma dispatch_stored a st w :
  stored w st ->
  exists st',
    (AppSession.dispatch a st w).1 = Normal st'
    /\ stored (AppSession.dispatch a st w).2 st'
    /\ sameStorageBut AppSession.STORAGE_KEY_INPUT w (AppSession.dispatch a st w).2.
Proof.
  intros Hst. destruct (dispatch_handler a st w) as (st1 & w1 & Hrun & Hbut & Hkeep & _).
  unfold AppSession.dispatch, bind. rewrite Hrun.
  case_bool_decide as Htext.
  - exists st1. simpl. split; [reflexivity|]. split; [now apply Hkeep | exact Hbut].
  - destruct (persistInput_spec st1 w1) as (Hn & Hs & Hb).
    destruct (AppSession.persistInput st1 w1) as [r w2]. simpl in *. subst r.
    exists st1. split; [reflexivity|]. split; [exact Hs|].
    eapply sameStorageBut_trans; eassumption.
Qed.

Lemma session_stored actions st w :
  stored w st ->
  exists st',
    (AppSession.session actions st w).1 = Normal st'
    /\ stored (AppSession.session actions st w).2 st'
    /\ sameStorageBut AppSession.STORAGE_KEY_INPUT w (AppSession.session actions st w).2.
Proof.
  revert st w. induction actions as [|a rest IH]; intros st w Hst.
  - exists st. split; [reflexivity|]. split; [exact Hst | apply sameStorageBut_refl].
  - simpl. unfold bind.
    destruct (dispatch_stored a st w Hst) as (st1 & Hrun & Hs1 & Hb1).
    destruct (AppSession.dispatch a st w) as [c w1]. simpl in *. subst c.
    destruct (IH st1 w1 Hs1) as (st' & Hrun' & Hs' & Hb').
    exists st'. split; [exact Hrun'|]. split; [exact Hs'|].
    eapply sameStorageBut_trans; eassumption.
Qed.

Lemma mount_spec w :
  exists st0,
    AppSession.mount w =
    (Normal st0, (AppSession.persistInput st0 w).2)
    /\ App.inputText st0 = or_else (localStorage w !! AppSession.STORAGE_KEY_INPUT) EmptyString
    /\ App.result st0 = None /\ App.status st0 = Types.IDLE
    /\ App.error st0 = None /\ App.pendingBatch st0 = None
    /\ App.isApiKeySet st0 = negb (bool_decide (apiKey w = EmptyString)).
Proof.
  unfold AppSession.mount, bind. unfold localStorage_getItem at 1.
  rewrite checkApiKey_spec. cbv zeta.
  eexists. split.
  - unfold AppSession.persistInput, localStorage_setItem. reflexivity.
  - repeat split; reflexivity.
Qed.

End WithPlatform.
End SessionFacts.

(** ** The settings drawer *)

Module SettingsFacts.
Import Runtime Storage StoreSpec SessionSpec EffFacts.
Local Open Scope eff_scope.

Section WithWriter.
Context `{Platform} `{SettingsDrawer.Stringify}.

(** The local storage that [save] leaves. *)
Lemma save_spec s w :
  (SettingsDrawer.save s w).1 = Normal tt
  /\ localStorage (SettingsDrawer.save s w).2 =
     <["vault_firebase_config" :=
         SettingsDrawer.JSON_stringify_config (SettingsDrawer.config s)]>
       (if bool_decide (JS.trim (SettingsDrawer.geminiApiKey s) = EmptyString)
        then delete "gemini_api_key" (localStorage w)
        else <["gemini_api_key" := JS.trim (SettingsDrawer.geminiApiKey s)]> (localStorage w))
  /\ env (SettingsDrawer.save s w).2 = env w
  /\ dbInstance (SettingsDrawer.save s w).2 = false
  /\ vault (SettingsDrawer.save s w).2 = vault w
  /\ storeOutcomes (SettingsDrawer.save s w).2 = storeOutcomes w
  /\ events (SettingsDrawer.save s w).2 =
     (events w ++ [EvAlert SettingsDrawer.configuration_saved])%list.
Proof.
  unfold SettingsDrawer.save, bind, alert, emit, location_reload, set_dbInstance,
    localStorage_setItem, localStorage_removeItem.
  destruct (bool_decide _); simpl; repeat split; reflexivity.
Qed.

Lemma saved_key s w :
  localStorage (SettingsDrawer.save s w).2 !! "gemini_api_key" =
  if bool_decide (JS.trim (SettingsDrawer.geminiApiKey s) = EmptyString) then None
  else Some (JS.trim (SettingsDrawer.geminiApiKey s)).
Proof.
  destruct (save_spec s w) as (_ & Hls & _). rewrite Hls.
  rewrite lookup_insert_ne by discriminate.
  destruct (bool_decide _); [apply lookup_delete_eq | apply lookup_insert_eq].
Qed.

Lemma saved_config s w :
  localStorage (SettingsDrawer.save s w).2 !! "vault_firebase_config" =
  Some (SettingsDrawer.JSON_stringify_config (SettingsDrawer.config s)).
Proof.
  destruct (save_spec s w) as (_ & Hls & _). rewrite Hls. apply lookup_insert_eq.
Qed.

End WithWriter.
End SettingsFacts.

(** ** The answer scraper *)

Module ExtractorFacts.
Import Runtime StoreSpec SessionSpec EffFacts ServiceFacts StoreFacts.
Local Open Scope eff_scope.

Section WithPlatform.
Context `{Platform}.

Lemma handleExtract_run s w :
  (bool_decide (JS.trim (AnswerExtractor.input s) = EmptyString)
   && negb (truthy (AnswerExtractor.pdfData s))) = false ->
  let s1 := AnswerExtractor.setPushedIds ∅
              (AnswerExtractor.setError None (AnswerExtractor.setLoading true s)) in
  AnswerExtractor.handleExtract true s w =
  match Gemini.cleanAndExtractAnswers (AnswerExtractor.input s)
          (if truthy (AnswerExtractor.pdfData s) then AnswerExtractor.pdfData s else None) w
  with
  | (Normal questions, w1) =>
      (Normal (AnswerExtractor.setLoading false (AnswerExtractor.setResults questions s1)), w1)
  | (Throw err, w1) =>
      (Normal (AnswerExtractor.setLoading false
                 (AnswerExtractor.setError
                    (Some (or_else (Some (message err)) "Extraction failed.")) s1)), w1)
  end.
Proof.
  intros Hguard s1. unfold AnswerExtractor.handleExtract. rewrite Hguard.
  change (false || negb true) with false. cbv iota. fold s1. unfold bind, try_catch.
  destruct (Gemini.cleanAndExtractAnswers _ _ w) as [[qs|e] w1]; reflexivity.
Qed.

End WithPlatform.

Lemma pushKey_marked q (s : AnswerExtractor.State) :
  AnswerExtractor.isPushed q
    (AnswerExtractor.setPushedIds
       (AnswerExtractor.pushedIds s ∪ {[ AnswerExtractor.pushKey q ]}) s) = true.
Proof.
  unfold AnswerExtractor.isPushed. simpl. apply bool_decide_eq_true. set_solver.
Qed.

End ExtractorFacts.

(** ** The vault functions of [index.tsx] *)

Module IndexVaultFacts.
Import Runtime StoreSpec SessionSpec EffFacts ServiceFacts AppFacts IndexFacts.
Local Open Scope eff_scope.

Section WithPlatform.
Context `{Platform}.

Lemma getDb_index_spec w :
  dbInstance w = false ->
  (Index.getDb w).2 = w
  /\ match (Index.getDb w).1 with
     | Normal b => b = configured w
     | Throw _ => configured w = false
     end.
Proof.
  intros Hdb. unfold Index.getDb, configured, Firebase.getFirebaseConfig, bind,
    localStorage_getItem, getenv, truthy, or_else, ret, throw.
  rewrite Hdb. simpl orb.
  destruct (localStorage w !! "vault_firebase_config") as [[|c s]|]; simpl.
  - split; reflexivity.
  - destruct (JSON_parse_config (String c s)); simpl; split; reflexivity.
  - split; reflexivity.
Qed.

Lemma saveToVault_index_spec h d r w :
  dbInstance w = false ->
  (Index.saveToVault h d r w).1 = Normal tt
  /\ vault (Index.saveToVault h d r w).2 =
       (if configured w && served (next_outcome w)
        then <[h := vaultItem w h d r]> (vault w) else vault w)
  /\ events (Index.saveToVault h d r w).2 =
       (events w ++ (if configured w then [EvSetDoc h (vaultItem w h d r)] else []))%list
  /\ storeOutcomes (Index.saveToVault h d r w).2 =
       (if configured w then after_request w else storeOutcomes w)
  /\ dbInstance (Index.saveToVault h d r w).2 = false.
Proof.
  intros Hdb. destruct (getDb_index_spec w Hdb) as (Hw & Hres).
  unfold Index.saveToVault, try_catch, bind.
  destruct (Index.getDb w) as [[b|e] w1]; simpl in Hw, Hres; subst w1.
  - subst b. destruct (configured w); simpl.
    + unfold setDoc, Date_now_toISOString, bind, emit, store_request, next_outcome,
        after_request, vaultItem. simpl.
      destruct (storeOutcomes w) as [|[] os]; simpl; repeat split; assumption || reflexivity.
    + rewrite app_nil_r. repeat split; assumption || reflexivity.
  - rewrite Hres. simpl. rewrite app_nil_r. repeat split; assumption || reflexivity.
Qed.

Lemma fetchVault_index_spec w :
  dbInstance w = false ->
  (IndexVault.fetchVault w).1 =
    Normal (if configured w && served (next_outcome w)
            then map snd (merge_sort newer_first (map_to_list (vault w))) else [])
  /\ vault (IndexVault.fetchVault w).2 = vault w
  /\ events (IndexVault.fetchVault w).2 =
       (events w ++ (if configured w then [EvGetDocs] else []))%list.
Proof.
  intros Hdb. destruct (getDb_index_spec w Hdb) as (Hw & Hres).
  unfold IndexVault.fetchVault, try_catch, bind.
  destruct (Index.getDb w) as [[b|e] w1]; simpl in Hw, Hres; subst w1.
  - subst b. destruct (configured w); simpl.
    + unfold getDocs_by_masteredAt_desc, bind, emit, store_request, next_outcome. simpl.
      destruct (storeOutcomes w) as [|[] os]; simpl; repeat split; reflexivity.
    + rewrite app_nil_r. repeat split; reflexivity.
  - rewrite Hres. simpl. rewrite app_nil_r. repeat split; reflexivity.
Qed.

(** *** [handleProcess] looks nothing up *)

Lemma saveBlocks_index_writes (P : Event -> Prop) i blocks domain hashes :
  (forall h d, P (EvSetDoc h d)) ->
  keeps (extends P) (Index.saveBlocks i blocks domain hashes).
Proof.
  intros HP. revert i. induction blocks as [|b bs IH]; intros i; simpl; [frame_step|].
  frame_step; [|apply IH].
  frame_step; [|frame_step].
  unfold Index.saveToVault.
  frame_step; [|frame_step].
  frame_step; [apply quiet_extends, quiet_getDb_index|].
  frame_step; [frame_step|].
  frame_step; [apply quiet_extends, quiet_Date_now|].
  apply setDoc_extends, HP.
Qed.

Lemma handleProcess_no_lookup st : keeps (extends noLookup) (Index.handleProcess st).
Proof.
  unfold Index.handleProcess. cbv zeta.
  frame_step; [frame_step|].
  frame_step; [|frame_step].
  frame_step.
  { unfold Index.processInsights.
    frame_step; [apply generateContent_extends; exact I|].
    frame_step; frame_step. }
  frame_step; [|frame_step].
  apply saveBlocks_index_writes. intros h d. exact I.
Qed.

Lemma handleProcess_normal st w : normal (Index.handleProcess st w).1 = true.
Proof.
  unfold Index.handleProcess. destruct (bool_decide _); [reflexivity|].
  unfold try_catch.
  match goal with |- context [?m w] =>
    lazymatch m with
    | bind _ _ => destruct (m w) as [[a|e] w1]; reflexivity
    end
  end.
Qed.

Lemma handleProcess_failure st w e w1 :
  JS.trim (Index.inputText st) <> EmptyString ->
  Index.processInsights
    (map (fun rq => {| Types.az_text := rq; Types.az_correctAnswer := "Verified";
                       Types.az_explanation := None |}) (Index.raw (Index.inputText st))) w
  = (Throw e, w1) ->
  Index.handleProcess st w =
  (Normal {| Index.inputText := Index.inputText st; Index.result := Index.result st;
             Index.status := Types.ERROR |}, w1).
Proof.
  intros Hb Hai. unfold Index.handleProcess.
  rewrite bool_decide_eq_false_2 by exact Hb. cbv zeta.
  unfold try_catch, bind. rewrite Hai. reflexivity.
Qed.

Lemma processInsights_index_same_vault qs : keeps same_vault (Index.processInsights qs).
Proof.
  unfold Index.processInsights.
  frame_step; [apply generateContent_same_vault|].
  frame_step; frame_step.
Qed.

End WithPlatform.
End IndexVaultFacts.

(** ** Further properties of the vault functions *)

Module VaultProperties.
Import Runtime StoreSpec ViewSpec EffFacts ServiceFacts AppFacts OrderFacts StoreFacts.

(** X1.  When a Firestore handle can be had and the query is served,
    [fetchVault] returns every document of the collection exactly once,
    newest first; there are as many items as documents, and where every
    document is stored under the hash it records no two items carry the
    same hash. *)
Theorem fetchVault_complete_newest_first `{Platform} (w : World) :
  configured w = true -> served (next_outcome w) = true ->
  exists items,
    (Firebase.fetchVault w).1 = Normal items
    /\ items ≡ₚ map snd (map_to_list (vault w))
    /\ length items = size (vault w)
    /\ newest_first items
    /\ (keyed_by_hash w -> NoDup (map hash items)).
Proof.
  intros Hc Hs. destruct (fetchVault_ordered w Hc Hs) as (items & Hr & Hp & Hn).
  exists items. split; [exact Hr|]. split; [exact Hp|].
  split; [now rewrite Hp, length_map, length_map_to_list|].
  split; [exact Hn|].
  intros Hk.
  assert (Hh : map hash items ≡ₚ map fst (map_to_list (vault w))).
  { rewrite Hp. rewrite keyed_hashes; [reflexivity|].
    intros k d Hin. apply elem_of_map_to_list in Hin. now apply Hk. }
  rewrite Hh. apply NoDup_fst_map_to_list.
Qed.

(** The vault with one document, a store that serves. *)
Lemma fetchVault_complete_witness :
  exists items,
    (@Firebase.fetchVault (Scenario.platform 0) Scenario.w_known).1 = Normal items
    /\ items ≡ₚ map snd (map_to_list (vault Scenario.w_known))
    /\ length items = size (vault Scenario.w_known)
    /\ newest_first items
    /\ (keyed_by_hash Scenario.w_known -> NoDup (map hash items)).
Proof.
  apply (@fetchVault_complete_newest_first (Scenario.platform 0) Scenario.w_known).
  - vm_compute. reflexivity.
  - reflexivity.
Defined.

(** X2.  With a working store, a document saved under a hash is there to
    be found: the vault holds it under that hash, the duplicate check of
    that hash answers true, the duplicate check of any other hash answers
    as before, and [fetchVault] lists the document. *)
Theorem saved_document_is_found `{Platform} (h d r : string) (w : World) :
  healthy w ->
  vault (Firebase.saveToVault h d r w).2 !! h = Some (vaultItem w h d r)
  /\ (Firebase.checkDuplicate h (Firebase.saveToVault h d r w).2).1 = Normal true
  /\ (forall h', h' <> h ->
        (Firebase.checkDuplicate h' (Firebase.saveToVault h d r w).2).1
        = (Firebase.checkDuplicate h' w).1)
  /\ exists items,
       (Firebase.fetchVault (Firebase.saveToVault h d r w).2).1 = Normal items
       /\ vaultItem w h d r ∈ items.
Proof.
  intros Hw. destruct (healthy_served w Hw) as [Hc Hs].
  destruct (saveToVault_spec h d r w) as (_ & _ & Hv & _ & Ho & Hc1).
  rewrite Hc, Hs in Hv. rewrite Hc in Ho, Hc1. simpl in Hv.
  set (w1 := (Firebase.saveToVault h d r w).2) in *.
  assert (Hw1 : healthy w1) by (apply (healthy_after w); [exact Hw | congruence | exact Ho]).
  destruct (healthy_served w1 Hw1) as [Hc' Hs'].
  split; [rewrite Hv; apply lookup_insert_eq|].
  split.
  { destruct (checkDuplicate_spec h w1) as (Hr & _). rewrite Hr, Hc', Hs', Hv.
    rewrite lookup_insert_eq. simpl. f_equal; apply bool_decide_eq_true; eauto. }
  split.
  { intros h' Hne.
    destruct (checkDuplicate_spec h' w1) as (Hr1 & _).
    destruct (checkDuplicate_spec h' w) as (Hr & _).
    rewrite Hr1, Hr, Hc', Hs', Hc, Hs, Hv.
    now rewrite lookup_insert_ne by (intros E; now apply Hne). }
  destruct (fetchVault_spec w1) as (Hr & _). rewrite Hc', Hs' in Hr. simpl in Hr.
  eexists. split; [exact Hr|].
  apply list_elem_of_fmap. exists (h, vaultItem w h d r). split; [reflexivity|].
  rewrite merge_sort_Permutation. apply elem_of_map_to_list.
  rewrite Hv. apply lookup_insert_eq.
Qed.

(** A configured browser with an empty vault. *)
Lemma saved_document_witness :
  vault (@Firebase.saveToVault (Scenario.platform 0) Scenario.h0 "Networking"
           "Peering is not transitive." (Scenario.world ∅ [] [])).2 !! Scenario.h0
  = Some Scenario.new_item.
Proof.
  assert (Hw : @healthy (Scenario.platform 0) (Scenario.world ∅ [] []))
    by (split; [vm_compute; reflexivity | constructor]).
  exact (proj1 (@saved_document_is_found (Scenario.platform 0) Scenario.h0 "Networking"
                  "Peering is not transitive." (Scenario.world ∅ [] []) Hw)).
Defined.

End VaultProperties.

(** ** Further properties of the AI service *)

Module ServiceProperties.
Import JS Spec TextSpec Runtime StoreSpec EffFacts ServiceFacts StoreFacts FenceFacts.
Import StringFacts FailureFacts.

(** X4.  The indicator of the logic engine agrees with the gate of the
    service: [checkApiKey] answers true exactly when [getApiKey] finds a
    key, and neither changes anything.  When it answers false, both
    service functions throw the message that asks for a key and issue no
    request; when it answers true, each issues exactly one request. *)
Theorem key_indicator_agrees_with_services `{Platform} (w : World) :
  App.checkApiKey w = (Normal (negb (bool_decide (apiKey w = EmptyString))), w)
  /\ Gemini.getApiKey w = (Normal (apiKey w), w)
  /\ ((App.checkApiKey w).1 = Normal false ->
      (forall qs,
         Gemini.processInsights qs w = (Throw {| message := Gemini.no_api_key |}, w))
      /\ (forall rawText pdf,
            Gemini.cleanAndExtractAnswers rawText pdf w
            = (Throw {| message := Gemini.no_api_key |}, w)))
  /\ ((App.checkApiKey w).1 = Normal true ->
      (forall qs,
         events (Gemini.processInsights qs w).2 =
         (events w ++ [EvGenerateContent "gemini-2.0-flash-thinking-exp-01-21"
                         (InsightRequest qs)])%list)
      /\ (forall rawText pdf,
            events (Gemini.cleanAndExtractAnswers rawText pdf w).2 =
            (events w ++
             [EvGenerateContent "gemini-2.0-flash-exp"
                (if truthy pdf then CleanPdfRequest (or_else pdf EmptyString)
                 else CleanTextRequest ("RAW INPUT DATA:" ++ Gemini.LF ++ rawText))])%list)).
Proof.
  split; [apply checkApiKey_spec|]. split; [apply getApiKey_spec|].
  rewrite checkApiKey_spec. simpl. split.
  - intros [= Hk]. apply negb_false_iff, bool_decide_eq_true in Hk. split.
    + intros qs. unfold Gemini.processInsights, bind.
      rewrite getApiKey_spec, Hk. reflexivity.
    + intros rawText pdf. unfold Gemini.cleanAndExtractAnswers, bind.
      rewrite getApiKey_spec, Hk. reflexivity.
  - intros [= Hk]. apply negb_true_iff, bool_decide_eq_false in Hk. split.
    + intros qs. now apply processInsights_request.
    + intros rawText pdf. now apply cleanAndExtractAnswers_request.
Qed.

(** A browser whose key comes from the build environment. *)
Lemma key_indicator_witness :
  events (@Gemini.processInsights (Scenario.platform 0) [] Samples.w_env).2 =
  [EvGenerateContent "gemini-2.0-flash-thinking-exp-01-21" (InsightRequest [])].
Proof.
  apply (proj1 (proj2 (proj2 (proj2
           (@key_indicator_agrees_with_services (Scenario.platform 0) Samples.w_env)))
           eq_refl)).
Defined.

(** X5.  An answer of the AI wrapped in a fenced block labelled json is
    read as the bare answer is: for a text without backticks, stripping
    the fences leaves a bare text as it is and gives a fenced text its
    body, so [processInsights] parses the trimmed body in both cases. *)
Theorem fenced_answer_parsed_as_bare `{Platform} (body : string) :
  noBacktick body = true -> body <> EmptyString ->
  Gemini.stripFences 0 body = body
  /\ Gemini.stripFences 0
       (Gemini.fence ++ "json" ++ Gemini.LF ++ body ++ Gemini.LF ++ Gemini.fence) = body
  /\ forall qs w t cs rest,
       apiKey w <> EmptyString ->
       t = body
       \/ t = Gemini.fence ++ "json" ++ Gemini.LF ++ body ++ Gemini.LF ++ Gemini.fence ->
       aiReplies w = AiResponds t cs :: rest ->
       (Gemini.processInsights qs w).1 =
       match JSON_parse_result (trim body) with
       | Some result =>
           Normal {| Types.domain := Types.domain result;
                     Types.blocks := Types.blocks result;
                     Types.sources := Gemini.groundingSources cs |}
       | None => Throw {| message := Gemini.invalid_structure |}
       end.
Proof.
  intros Hb Hne.
  split; [now apply stripFences_bare|]. split; [now apply stripFences_fenced|].
  intros qs w t cs rest Hkey Ht Hreply.
  rewrite (processInsights_reply qs w t cs rest Hkey Hreply).
  destruct Ht as [-> | ->].
  - destruct body as [|c body']; [congruence|]. simpl or_else.
    now rewrite stripFences_bare.
  - change (Gemini.fence ++ "json" ++ Gemini.LF ++ body ++ Gemini.LF ++ Gemini.fence)
      with (String tick (String tick (String tick
              ("json" ++ Gemini.LF ++ body ++ Gemini.LF ++ Gemini.fence)))).
    simpl or_else.
    change (String tick (String tick (String tick
              ("json" ++ Gemini.LF ++ body ++ Gemini.LF ++ Gemini.fence))))
      with (Gemini.fence ++ "json" ++ Gemini.LF ++ body ++ Gemini.LF ++ Gemini.fence).
    now rewrite stripFences_fenced.
Qed.

(** The answer of the scenarios, which comes fenced. *)
Lemma fenced_answer_witness :
  Gemini.stripFences 0
    (Gemini.fence ++ "json" ++ Gemini.LF ++ Scenario.result_json ++ Gemini.LF ++ Gemini.fence)
  = Scenario.result_json.
Proof.
  assert (Hb : noBacktick Scenario.result_json = true) by (vm_compute; reflexivity).
  assert (Hne : Scenario.result_json <> EmptyString) by (vm_compute; discriminate).
  exact (proj1 (proj2 (@fenced_answer_parsed_as_bare (Scenario.platform 0)
                         Scenario.result_json Hb Hne))).
Defined.

End ServiceProperties.

(** ** Further properties of the processing of a batch *)

Module ProcessingProperties.
Import Runtime StoreSpec AppSpec SessionSpec EffFacts ServiceFacts AppFacts.
Import HandlerFacts IndexVaultFacts ExtractorFacts.



(** X7.  When every question of the held batch is a duplicate, Skip
    Duplicates sends nothing to the AI and writes nothing: it drops the
    batch and reports that there are no new questions. *)
Theorem skip_all_duplicates_sends_nothing `{Platform} (st : App.AppState)
  (pb : App.PendingBatch) (w : World) :
  App.pendingBatch st = Some pb ->
  (forall n, n < length (App.questions pb) -> Z.of_nat n ∈ App.duplicateIndices pb) ->
  App.onSkipDuplicates st w =
  (Normal (App.setPendingBatch None
             (App.setStatus Types.IDLE
                (App.setError (Some "No new questions to process.") st))), w).
Proof.
  intros Hpb Hall. unfold App.onSkipDuplicates. rewrite Hpb.
  rewrite (dropIndices_all _ (App.questions pb) Hall).
  apply executeProcessing_empty.
Qed.

(** The batch of one question that is a duplicate. *)
Lemma skip_all_duplicates_witness :
  @App.onSkipDuplicates (Scenario.platform 0) (Samples.prompted Samples.batch_of_one)
    Scenario.w_known =
  (Normal (App.setPendingBatch None
             (App.setStatus Types.IDLE
                (App.setError (Some "No new questions to process.")
                   (Samples.prompted Samples.batch_of_one)))), Scenario.w_known).
Proof.
  apply (@skip_all_duplicates_sends_nothing (Scenario.platform 0)
           (Samples.prompted Samples.batch_of_one) Samples.batch_of_one Scenario.w_known).
  - reflexivity.
  - intros n Hn. simpl in Hn. assert (n = 0) as -> by lia. simpl. left.
Defined.

(** X8.  While the application takes the key for missing ([isApiKeySet]
    is false), no action sends anything to the AI or writes to the vault:
    the events of a step are lookups, queries, alerts and console lines
    only, and the vault stays as it is.  Processing a batch that is not
    empty ends at once with the message that the engine is offline, and a
    held batch stays held. *)
Theorem offline_flag_blocks_ai_and_writes `{Platform} (a : App.Action)
  (st : App.AppState) (w : World) :
  App.isApiKeySet st = false ->
  extends harmless w (App.step a st w).2
  /\ vault (App.step a st w).2 = vault w
  /\ forall batch hashes,
       batch <> [] ->
       App.executeProcessing batch hashes st w =
       (Normal (App.setStatus Types.ERROR
                  (App.setError
                     (Some "AI Logic Engine is offline. Please configure your API key.")
                     st)), w).
Proof.
  intros Hkey. split; [now apply step_harmless|].
  split; [now apply step_offline_vault|].
  intros batch hashes Hbatch. unfold App.executeProcessing.
  rewrite bool_decide_eq_false_2 by (destruct batch; [congruence | discriminate]).
  now rewrite Hkey.
Qed.

(** Process All Anyway while the key is taken for missing. *)
Lemma offline_flag_witness :
  vault (@App.step (Scenario.platform 0) App.ProcessAll
           (App.setIsApiKeySet false (Samples.prompted Samples.batch_of_one))
           Scenario.w_known).2
  = vault Scenario.w_known.
Proof.
  exact (proj1 (proj2 (@offline_flag_blocks_ai_and_writes (Scenario.platform 0)
                         App.ProcessAll
                         (App.setIsApiKeySet false (Samples.prompted Samples.batch_of_one))
                         Scenario.w_known eq_refl))).
Defined.

(** X9.  When the request to the AI fails, whatever the reason,
    [executeProcessing] ends in the state ERROR with the message of the
    failure, or with a standard message when the failure has none; the
    held batch is dropped, the shown result stays, nothing is written and
    the vault is as before. *)
Theorem ai_failure_reported `{Platform} (batch hashes : list string)
  (st : App.AppState) (w : World) (e : Error) (w1 : World) :
  batch <> [] ->
  App.isApiKeySet st = true ->
  Gemini.processInsights (verified batch) w = (Throw e, w1) ->
  App.executeProcessing batch hashes st w =
  (Normal (App.setStatus Types.ERROR
             (App.setError
                (Some (or_else (Some (message e)) "Processing failed. Try a smaller batch."))
                (App.setPendingBatch None
                   (App.setError None (App.setStatus Types.LOADING st))))), w1)
  /\ vault w1 = vault w
  /\ extends noWrite w w1.
Proof.
  intros Hbatch Hkey Hai.
  split; [now apply executeProcessing_failure|].
  pose proof (processInsights_same_vault (verified batch) w) as Hv.
  pose proof (processInsights_extends noWrite (verified batch) (fun _ => I) w) as He.
  rewrite Hai in Hv, He. split; [exact Hv | exact He].
Qed.

(** The AI answers with text that is not JSON. *)
Lemma ai_failure_witness :
  (@App.executeProcessing (Scenario.platform 0) [Scenario.one_question] [Scenario.h0]
     (Examples.staged Scenario.one_question) Scenario.w_garbled).1 =
  Normal (App.setStatus Types.ERROR
            (App.setError (Some Gemini.invalid_structure)
               (App.setPendingBatch None
                  (App.setError None
                     (App.setStatus Types.LOADING (Examples.staged Scenario.one_question)))))).
Proof.
  assert (Hai : @Gemini.processInsights (Scenario.platform 0)
                  (verified [Scenario.one_question]) Scenario.w_garbled
                = (Throw {| message := Gemini.invalid_structure |},
                   (@Gemini.processInsights (Scenario.platform 0)
                      (verified [Scenario.one_question]) Scenario.w_garbled).2))
    by (vm_compute; reflexivity).
  assert (Hbatch : [Scenario.one_question] <> []) by discriminate.
  rewrite (proj1 (@ai_failure_reported (Scenario.platform 0) [Scenario.one_question]
                    [Scenario.h0] (Examples.staged Scenario.one_question)
                    Scenario.w_garbled _ _ Hbatch eq_refl Hai)).
  reflexivity.
Defined.

(** X10.  The handlers that talk to the store and to the AI let no
    exception escape.  While the store answers its requests, every
    sequence of the actions of [App.Action] (typing, a push, the scan, the
    two buttons of the duplicate prompt, the reset, the poll of the key
    and the load of the vault) completes normally, and so do
    [handleProcess] of [index.tsx] and [handleExtract] of the scraper,
    whether the store serves or rejects and whatever the AI answers.  (The
    buttons that copy to the clipboard are no actions of [App.Action].) *)
Theorem handlers_never_throw `{Platform} (actions : list App.Action)
  (st : App.AppState) (ist : Index.AppState) (flag : bool)
  (s : AnswerExtractor.State) (w : World) :
  answered w ->
  (exists st', (App.run actions st w).1 = Normal st')
  /\ (exists ist', (Index.handleProcess ist w).1 = Normal ist')
  /\ (exists s', (AnswerExtractor.handleExtract flag s w).1 = Normal s').
Proof.
  intros _. split; [|split].
  - pose proof (run_normal actions st w) as Hn.
    destruct (App.run actions st w) as [[st'|e] w1]; [now exists st' | discriminate].
  - pose proof (handleProcess_normal ist w) as Hn.
    destruct (Index.handleProcess ist w) as [[st'|e] w1]; [now exists st' | discriminate].
  - unfold AnswerExtractor.handleExtract.
    destruct (_ || _); [now exists s|].
    unfold bind, try_catch.
    destruct (Gemini.cleanAndExtractAnswers _ _ w) as [[qs|e] w1]; eexists; reflexivity.
Qed.

(** X10 at a store that rejects the lookup and the write of a scan. *)
Lemma handlers_never_throw_witness :
  exists st',
    (@App.run (Scenario.platform 0) [App.Scan; App.LoadVault]
       (Examples.staged Scenario.one_question)
       (Scenario.world ∅ [Rejected; Rejected] [Scenario.fenced_reply])).1 = Normal st'.
Proof.
  apply (@handlers_never_throw (Scenario.platform 0) [App.Scan; App.LoadVault]
           (Examples.staged Scenario.one_question)
           {| Index.inputText := EmptyString; Index.result := None;
              Index.status := Types.IDLE |}
           true (Samples.scraper EmptyString)
           (Scenario.world ∅ [Rejected; Rejected] [Scenario.fenced_reply])).
  repeat constructor; discriminate.
Defined.



(** X12.  Skip Duplicates on a held batch processes the questions at the
    positions that are no duplicates, and only those: the questions and
    their hashes stay paired, there are fewer of them than in the batch,
    and every write that follows goes under the hash of a question at
    such a position. *)
Theorem skip_duplicates_keeps_new_questions `{Platform} (st : App.AppState)
  (pb : App.PendingBatch) :
  App.pendingBatch st = Some pb ->
  held pb ->
  App.onSkipDuplicates st =
    App.executeProcessing
      (App.dropIndices (App.duplicateIndices pb) (App.questions pb))
      (App.dropIndices (App.duplicateIndices pb) (App.hashes pb)) st
  /\ App.dropIndices (App.duplicateIndices pb) (App.hashes pb) =
     map Firebase.getQuestionHash
       (App.dropIndices (App.duplicateIndices pb) (App.questions pb))
  /\ length (App.dropIndices (App.duplicateIndices pb) (App.questions pb))
     < length (App.questions pb)
  /\ (forall q,
        q ∈ App.dropIndices (App.duplicateIndices pb) (App.questions pb) <->
        exists n, App.questions pb !! n = Some q /\ Z.of_nat n ∉ App.duplicateIndices pb)
  /\ forall w,
       extends (writesOutside (App.duplicateIndices pb) (App.hashes pb)) w
         (App.onSkipDuplicates st w).2.
Proof.
  intros Hpb (Hne & Hlen & Hmark & Hhash & Hdup & Hrange).
  assert (Hskip : App.onSkipDuplicates st =
                  App.executeProcessing
                    (App.dropIndices (App.duplicateIndices pb) (App.questions pb))
                    (App.dropIndices (App.duplicateIndices pb) (App.hashes pb)) st)
    by (unfold App.onSkipDuplicates; now rewrite Hpb).
  split; [exact Hskip|].
  split; [rewrite Hhash; apply dropIndices_map|].
  split.
  { destruct (App.duplicateIndices pb) as [|i idx] eqn:E; [congruence|].
    apply (dropIndices_shorter _ _ i); [left|].
    inversion Hrange; subst. assumption. }
  split; [intros q; apply dropIndices_lookup|].
  intros w. rewrite Hskip.
  apply executeProcessing_writes.
  - intros model req. exact I.
  - intros msg. exact I.
  - intros h d Hh. now apply dropIndices_lookup in Hh.
Qed.

(** A batch of two, the first question being a duplicate. *)
Lemma skip_duplicates_witness :
  App.dropIndices (App.duplicateIndices Samples.batch_of_two)
    (App.questions Samples.batch_of_two) = [Samples.other_question]
  /\ length (App.dropIndices (App.duplicateIndices Samples.batch_of_two)
               (App.questions Samples.batch_of_two))
     < length (App.questions Samples.batch_of_two).
Proof.
  split; [reflexivity|].
  apply (@skip_duplicates_keeps_new_questions (Scenario.platform 0)
           (Samples.prompted Samples.batch_of_two) Samples.batch_of_two eq_refl).
  split; [discriminate|]. split; [simpl; lia|].
  split; [repeat constructor|].
  split; [reflexivity|]. split; [discriminate|].
  repeat constructor; simpl; lia.
Defined.

End ProcessingProperties.

(** ** Further properties of the scan *)

Module ScanProperties.
Import Runtime StoreSpec AppSpec SessionSpec EffFacts ServiceFacts AppFacts.
Import SplitFacts HandlerFacts.

(** X13.  The scan finds a question exactly when the staging text holds
    the marker [Question:].  Blank text is ignored.  Text that is not
    blank and holds no marker ends the scan with the message that no valid
    questions were detected, and nothing else happens: no lookup, no
    request, no write. *)
Theorem scan_needs_marker `{Platform} (st : App.AppState) (w : World) :
  (App.rawQuestions (App.inputText st) = [] <->
   JS.includes (App.inputText st) "Question:" = false)
  /\ (JS.trim (App.inputText st) = EmptyString ->
      App.handleInitialScan st w = (Normal st, w))
  /\ (JS.trim (App.inputText st) <> EmptyString ->
      JS.includes (App.inputText st) "Question:" = false ->
      App.handleInitialScan st w =
      (Normal (App.setStatus Types.ERROR
                 (App.setError
                    (Some "No valid questions detected. Ensure you push questions from the Scraper first.")
                    (App.setError None (App.setStatus Types.LOADING st)))), w)).
Proof.
  split; [apply rawQuestions_nil|]. split; [apply handleInitialScan_blank|].
  intros Hb Hm. apply handleInitialScan_no_questions; [exact Hb|].
  now apply rawQuestions_nil.
Qed.

(** Text typed without the marker. *)
Lemma scan_needs_marker_witness :
  @App.handleInitialScan (Scenario.platform 0)
    (Examples.staged "Which peering is transitive?") Scenario.w_known =
  (Normal (App.setStatus Types.ERROR
             (App.setError
                (Some "No valid questions detected. Ensure you push questions from the Scraper first.")
                (App.setError None
                   (App.setStatus Types.LOADING
                      (Examples.staged "Which peering is transitive?"))))),
   Scenario.w_known).
Proof.
  apply (proj2 (proj2 (@scan_needs_marker (Scenario.platform 0)
                         (Examples.staged "Which peering is transitive?")
                         Scenario.w_known))).
  - vm_compute. discriminate.
  - vm_compute. reflexivity.
Defined.

(** X14.  Whenever the page lets the scan be started (the staging area is
    on display, no duplicate prompt is up, the button is enabled), the
    staging text is not blank and holds a question, so the scan goes on to
    the duplicate check: it ends with a held batch or in
    [executeProcessing], never with the message that no valid questions
    were detected. *)
Theorem analyze_button_reaches_duplicate_check `{Platform} (st : App.AppState)
  (w : World) :
  InputSection.canAnalyze st = true ->
  JS.trim (App.inputText st) <> EmptyString
  /\ App.rawQuestions (App.inputText st) <> []
  /\ exists dups w1,
       mapM Firebase.checkDuplicate
         (map Firebase.getQuestionHash (App.rawQuestions (App.inputText st))) w
       = (Normal dups, w1)
       /\ App.handleInitialScan st w =
          if bool_decide (0 < length (App.duplicateIndicesOf dups))
          then (Normal (App.setStatus Types.IDLE
                          (App.setPendingBatch
                             (Some {| App.questions := App.rawQuestions (App.inputText st);
                                      App.hashes :=
                                        map Firebase.getQuestionHash
                                          (App.rawQuestions (App.inputText st));
                                      App.duplicateIndices := App.duplicateIndicesOf dups |})
                             (App.setError None (App.setStatus Types.LOADING st)))), w1)
          else App.executeProcessing (App.rawQuestions (App.inputText st))
                 (map Firebase.getQuestionHash (App.rawQuestions (App.inputText st)))
                 (App.setError None (App.setStatus Types.LOADING st)) w1.
Proof.
  intros Hcan. unfold InputSection.canAnalyze in Hcan.
  apply andb_prop in Hcan as [_ Hen]. apply negb_true_iff in Hen.
  unfold InputSection.analyzeDisabled in Hen. apply orb_false_elim in Hen as [_ Hcount].
  simpl in Hcount. apply Nat.eqb_neq in Hcount.
  assert (Hmark : JS.includes (App.inputText st) "Question:" = true)
    by (apply staged_has_marker; lia).
  assert (Hb : JS.trim (App.inputText st) <> EmptyString) by now apply marker_not_blank.
  assert (Hraw : App.rawQuestions (App.inputText st) <> []).
  { intros E. apply rawQuestions_nil in E. congruence. }
  split; [exact Hb|]. split; [exact Hraw|].
  destruct (checkDuplicates_spec
              (map Firebase.getQuestionHash (App.rawQuestions (App.inputText st))) w)
    as (dups & Hd & _).
  destruct (mapM Firebase.checkDuplicate _ w) as [c w1] eqn:Hrun.
  simpl in Hd. subst c. exists dups, w1. split; [reflexivity|].
  apply (handleInitialScan_spec st w Hb Hraw dups w1 Hrun).
Qed.

(** One staged question. *)
Lemma analyze_button_witness :
  JS.trim (App.inputText (Examples.staged Scenario.one_question)) <> EmptyString
  /\ App.rawQuestions (App.inputText (Examples.staged Scenario.one_question)) <> [].
Proof.
  destruct (@analyze_button_reaches_duplicate_check (Scenario.platform 0)
              (Examples.staged Scenario.one_question) Scenario.w_known)
    as (Hb & Hraw & _).
  - vm_compute. reflexivity.
  - split; assumption.
Defined.

End ScanProperties.

(** ** Further properties of the vault view *)

Module ViewProperties.
Import JS Spec Runtime StoreSpec ViewSpec EffFacts OrderFacts FilterFacts ViewFacts.

(** X15.  After Clear All Filters every item of the vault is on display,
    in the order in which it was fetched, whatever its timestamp. *)
Theorem cleared_filters_show_all `{Platform} (f : VaultFilters.Filters)
  (items : list VaultItem) :
  VaultFilters.filteredItems items (VaultFilters.clearFilters f) = items.
Proof.
  unfold VaultFilters.filteredItems, VaultFilters.clearFilters, VaultView.filteredItems.
  simpl. apply filter_all, Forall_forall. intros item _. apply shown_unfiltered.
Qed.

(** X16.  On texts of code units below U+0100 the search field ignores
    letter case: two search texts that differ in letter case only select
    the same items. *)
Theorem search_ignores_case `{Platform} (s t from to : string) (items : list VaultItem) :
  differOnlyInCase s t = true ->
  VaultView.filteredItems items s from to = VaultView.filteredItems items t from to.
Proof.
  intros Hst. unfold VaultView.filteredItems. apply list_filter_iff. intros item.
  now rewrite (shown_search_case s t from to item Hst).
Qed.

(** The vault of the scenarios, searched in capitals and in small letters. *)
Lemma search_ignores_case_witness :
  @VaultView.filteredItems (Scenario.platform 0) [Scenario.old_item] "GATEWAY"
    EmptyString EmptyString
  = @VaultView.filteredItems (Scenario.platform 0) [Scenario.old_item] "gateway"
      EmptyString EmptyString.
Proof.
  apply (@search_ignores_case (Scenario.platform 0)).
  vm_compute. reflexivity.
Defined.

(** X17.  Filtering keeps the order of the vault: the items on display
    are items of the list, in the order of the list, so a list that is
    newest first stays newest first; in particular what [fetchVault]
    returns is displayed newest first under any filters. *)
Theorem filter_keeps_order `{Platform} (items : list VaultItem) (search from to : string) :
  sublist (VaultView.filteredItems items search from to) items
  /\ (newest_first items -> newest_first (VaultView.filteredItems items search from to))
  /\ forall w,
       configured w = true -> served (next_outcome w) = true ->
       exists fetched,
         (Firebase.fetchVault w).1 = Normal fetched
         /\ newest_first (VaultView.filteredItems fetched search from to).
Proof.
  split; [apply sublist_filter|].
  split; [apply newest_first_filter|].
  intros w Hc Hs. destruct (fetchVault_ordered w Hc Hs) as (fetched & Hr & _ & Hn).
  exists fetched. split; [exact Hr|]. now apply newest_first_filter.
Qed.

(** The vault of the scenarios, as fetched and searched. *)
Lemma filter_keeps_order_witness :
  exists fetched,
    (@Firebase.fetchVault (Scenario.platform 0) Scenario.w_known).1 = Normal fetched
    /\ newest_first
         (@VaultView.filteredItems (Scenario.platform 0) fetched "peering"
            EmptyString EmptyString).
Proof.
  apply (proj2 (proj2 (@filter_keeps_order (Scenario.platform 0) [] "peering"
                         EmptyString EmptyString))).
  - vm_compute. reflexivity.
  - reflexivity.
Defined.

(** X18.  At UTC and east of it the two date fields bound the local
    calendar days: an item with a well-formed timestamp is on display
    exactly when it is in the list, its rule or its domain contains the
    search text, letter case apart, and its time lies between the local
    midnight that begins the day of the first field and the last
    millisecond of the day of the second (bounds that fall on the epoch
    itself excepted). *)
Theorem date_bounds_east_of_UTC `{Platform} (items : list VaultItem)
  (search from to : string) (df dt : Z) (item : VaultItem) (time : Z) :
  (0 <= LocalTZA < JSDate.msPerDay)%Z ->
  selects from (Some df) -> selects to (Some dt) ->
  startOfDay LocalTZA df <> 0%Z -> endOfDay LocalTZA dt <> 0%Z ->
  JSDate.Date_parse (masteredAt item) = JSDate.Num time ->
  item ∈ VaultView.filteredItems items search from to <->
  item ∈ items
  /\ (includes (toLowerCase (foundationalRule item)) (toLowerCase search)
      || includes (toLowerCase (domain item)) (toLowerCase search)) = true
  /\ (startOfDay LocalTZA df <= time <= endOfDay LocalTZA dt)%Z.
Proof.
  intros Htza Hfrom Hto Hstart Hend Htime.
  unfold VaultView.filteredItems. rewrite list_elem_of_filter.
  rewrite (shown_east_of_UTC search from to item time (Some df) (Some dt)
             Htza Htime Hfrom Hto)
    by (intros day [= <-]; assumption).
  unfold displayed. rewrite !andb_true_iff, !Z.leb_le. tauto.
Qed.

(** At UTC, the days 9 to 10 March 2024 and an item of 9 March, noon. *)
Lemma date_bounds_witness :
  Scenario.item_9_march ∈
    @VaultView.filteredItems (Scenario.platform 0) [Scenario.item_9_march]
      EmptyString "2024-03-09" "2024-03-10".
Proof.
  apply (@date_bounds_east_of_UTC (Scenario.platform 0) [Scenario.item_9_march]
           EmptyString "2024-03-09" "2024-03-10" 19791 19792 Scenario.item_9_march
           1709985600000).
  - vm_compute. split; [discriminate | reflexivity].
  - split; [discriminate | vm_compute; reflexivity].
  - split; [discriminate | vm_compute; reflexivity].
  - vm_compute. discriminate.
  - vm_compute. discriminate.
  - vm_compute. reflexivity.
  - split; [left|]. split; [vm_compute; reflexivity|].
    vm_compute. split; discriminate.
Defined.

End ViewProperties.

(** ** Further properties of the answer scraper *)

Module ExtractorProperties.
Import Runtime StoreSpec SessionSpec EffFacts ServiceFacts StoreFacts ExtractorFacts.

(** X19.  [handleExtract] does nothing when there is neither pasted text
    nor a PDF, or when the key is taken for missing.  Otherwise it ends
    with the spinner off and the set of pushed questions emptied; the text
    and the PDF stay as they are.  If the extraction returns, its
    questions become the results and no error is shown; if it throws, the
    earlier results stay and the message of the failure is shown, or
    [Extraction failed.] when the failure has no message. *)
Theorem extract_guard_and_outcome `{Platform} (flag : bool)
  (s : AnswerExtractor.State) (w : World) :
  ((bool_decide (JS.trim (AnswerExtractor.input s) = EmptyString)
    && negb (truthy (AnswerExtractor.pdfData s))) || negb flag = true ->
   AnswerExtractor.handleExtract flag s w = (Normal s, w))
  /\ ((bool_decide (JS.trim (AnswerExtractor.input s) = EmptyString)
       && negb (truthy (AnswerExtractor.pdfData s))) || negb flag = false ->
      exists s',
        (AnswerExtractor.handleExtract flag s w).1 = Normal s'
        /\ (AnswerExtractor.handleExtract flag s w).2 =
           (Gemini.cleanAndExtractAnswers (AnswerExtractor.input s)
              (if truthy (AnswerExtractor.pdfData s) then AnswerExtractor.pdfData s
               else None) w).2
        /\ AnswerExtractor.loading s' = false
        /\ AnswerExtractor.pushedIds s' = ∅
        /\ AnswerExtractor.input s' = AnswerExtractor.input s
        /\ AnswerExtractor.pdfData s' = AnswerExtractor.pdfData s
        /\ match (Gemini.cleanAndExtractAnswers (AnswerExtractor.input s)
                    (if truthy (AnswerExtractor.pdfData s) then AnswerExtractor.pdfData s
                     else None) w).1 with
           | Normal questions =>
               AnswerExtractor.results s' = questions /\ AnswerExtractor.error s' = None
           | Throw err =>
               AnswerExtractor.results s' = AnswerExtractor.results s
               /\ AnswerExtractor.error s' =
                  Some (or_else (Some (message err)) "Extraction failed.")
           end).
Proof.
  split.
  - intros Hg. unfold AnswerExtractor.handleExtract. now rewrite Hg.
  - intros Hg. apply orb_false_elim in Hg as [Hblank Hflag].
    apply negb_false_iff in Hflag. subst flag.
    rewrite (handleExtract_run s w Hblank).
    destruct (Gemini.cleanAndExtractAnswers _ _ w) as [[qs|e] w1];
      eexists; simpl; repeat split; reflexivity.
Qed.

(** Text is pasted, the key is set, and the AI answers with an empty list. *)
Lemma extract_outcome_witness :
  exists s',
    (@AnswerExtractor.handleExtract (Scenario.platform 0) true
       (Samples.scraper "1. Which peering ...")
       (Scenario.world ∅ [] [AiResponds "[]" []])).1 = Normal s'
    /\ AnswerExtractor.loading s' = false
    /\ AnswerExtractor.results s' = []
    /\ AnswerExtractor.error s' = None.
Proof.
  destruct (proj2 (@extract_guard_and_outcome (Scenario.platform 0) true
                     (Samples.scraper "1. Which peering ...")
                     (Scenario.world ∅ [] [AiResponds "[]" []])))
    as (s' & Hrun & _ & Hload & _ & _ & _ & Hout).
  - vm_compute. reflexivity.
  - exists s'. split; [exact Hrun|]. split; [exact Hload|]. exact Hout.
Defined.

(** X20.  When [handleExtract] goes ahead and a key is found, it sends
    exactly one request: the staged PDF when there is one, and then the
    pasted text is not sent; the pasted text otherwise.  When no key is
    found although the key was taken for set, nothing is sent and the
    message that asks for a key is shown. *)
Theorem extract_sends_pdf_or_text `{Platform} (s : AnswerExtractor.State) (w : World) :
  (bool_decide (JS.trim (AnswerExtractor.input s) = EmptyString)
   && negb (truthy (AnswerExtractor.pdfData s))) = false ->
  (apiKey w <> EmptyString ->
   events (AnswerExtractor.handleExtract true s w).2 =
   (events w ++
    [EvGenerateContent "gemini-2.0-flash-exp"
       (if truthy (AnswerExtractor.pdfData s)
        then CleanPdfRequest (or_else (AnswerExtractor.pdfData s) EmptyString)
        else CleanTextRequest ("RAW INPUT DATA:" ++ Gemini.LF ++ AnswerExtractor.input s))])%list)
  /\ (apiKey w = EmptyString ->
      AnswerExtractor.handleExtract true s w =
      (Normal (AnswerExtractor.setLoading false
                 (AnswerExtractor.setError (Some Gemini.no_api_key)
                    (AnswerExtractor.setPushedIds ∅
                       (AnswerExtractor.setError None
                          (AnswerExtractor.setLoading true s))))), w)).
Proof.
  intros Hblank. rewrite (handleExtract_run s w Hblank). split.
  - intros Hkey.
    pose proof (cleanAndExtractAnswers_request (AnswerExtractor.input s)
                  (if truthy (AnswerExtractor.pdfData s) then AnswerExtractor.pdfData s
                   else None) w Hkey) as He.
    destruct (Gemini.cleanAndExtractAnswers _ _ w) as [[qs|e] w1]; simpl in *;
      rewrite He; destruct (truthy (AnswerExtractor.pdfData s)) eqn:Hp;
      rewrite ?Hp; reflexivity.
  - intros Hkey. unfold Gemini.cleanAndExtractAnswers, bind.
    rewrite getApiKey_spec, Hkey. reflexivity.
Qed.

(** A PDF is staged beside pasted text: the PDF alone is sent. *)
Lemma extract_sends_witness :
  events (@AnswerExtractor.handleExtract (Scenario.platform 0) true
            (AnswerExtractor.setPdf (Some "JVBERi0x") (Some "quiz.pdf")
               (Samples.scraper "1. Which peering ..."))
            (Scenario.world ∅ [] [])).2
  = [EvGenerateContent "gemini-2.0-flash-exp" (CleanPdfRequest "JVBERi0x")].
Proof.
  apply (proj1 (@extract_sends_pdf_or_text (Scenario.platform 0)
                  (AnswerExtractor.setPdf (Some "JVBERi0x") (Some "quiz.pdf")
                     (Samples.scraper "1. Which peering ..."))
                  (Scenario.world ∅ [] []) eq_refl)).
  vm_compute. discriminate.
Defined.

(** X21.  The button of a result never raises the alert about the limit.
    While the staging area is full a click changes nothing.  Otherwise
    the formatted question is appended to the staging text, after a blank
    line when there was text before, and the question is marked as
    pushed, which disables its button. *)
Theorem push_click_never_alerts (q : Types.ExtractedQuestion)
  (s : AnswerExtractor.State) (st : App.AppState) (w : World) :
  (AnswerExtractor.pushFromApp q s st w).2 = w
  /\ (App.isStagingFull (App.inputText st) = true ->
      AnswerExtractor.pushFromApp q s st w = (Normal (s, st), w))
  /\ (App.isStagingFull (App.inputText st) = false ->
      exists s' st',
        AnswerExtractor.pushFromApp q s st w = (Normal (s', st'), w)
        /\ App.inputText st' =
           (if bool_decide (App.inputText st = EmptyString) then App.formatQuestion q
            else App.inputText st ++ App.LF ++ App.LF ++ App.formatQuestion q)
        /\ AnswerExtractor.pushedIds s' =
           AnswerExtractor.pushedIds s ∪ {[ AnswerExtractor.pushKey q ]}
        /\ AnswerExtractor.isPushed q s' = true
        /\ forall full, AnswerExtractor.buttonDisabled full q s' = true).
Proof.
  unfold AnswerExtractor.pushFromApp, AnswerExtractor.handlePushClick,
    App.handlePushToEngine, App.isStagingFull, App.stagedCount.
  destruct (6 <=? _)%nat eqn:Hfull.
  - split; [reflexivity|]. split; [reflexivity | discriminate].
  - split; [reflexivity|]. split; [discriminate|]. intros _.
    eexists _, _. split; [reflexivity|]. split; [reflexivity|].
    split; [reflexivity|].
    split; [apply pushKey_marked|].
    intros full. unfold AnswerExtractor.buttonDisabled. now rewrite pushKey_marked.
Qed.

(** The first question is pushed into an empty staging area. *)
Lemma push_click_witness :
  exists s' st',
    AnswerExtractor.pushFromApp Examples.q0 (Samples.scraper EmptyString)
      (Examples.staged EmptyString) Examples.w_blank
    = (Normal (s', st'), Examples.w_blank)
    /\ App.inputText st' = Scenario.one_question
    /\ AnswerExtractor.isPushed Examples.q0 s' = true.
Proof.
  destruct (proj2 (proj2 (push_click_never_alerts Examples.q0 (Samples.scraper EmptyString)
                            (Examples.staged EmptyString) Examples.w_blank)))
    as (s' & st' & Hrun & Htext & _ & Hp & _).
  - reflexivity.
  - exists s', st'. split; [exact Hrun|]. split; [exact Htext | exact Hp].
Defined.

End ExtractorProperties.

(** ** Further properties of the settings drawer *)

Module SettingsProperties.
Import Runtime Storage StoreSpec SessionSpec EffFacts ServiceFacts SettingsFacts.

(** X22.  Saving the settings stores the Gemini key trimmed, and removes
    the stored key when the field is blank: afterwards [getApiKey] finds
    the trimmed key, or falls back on the key of the build environment
    when the field was blank, and the drawer opens with the trimmed key
    in its field.  Saving alerts once, drops the cached Firestore handle
    with the reload, and leaves the vault alone. *)
Theorem settings_key_round_trip `{Platform} `{SettingsDrawer.Stringify}
  (s : SettingsDrawer.State) (w : World) :
  (SettingsDrawer.save s w).1 = Normal tt
  /\ apiKey (SettingsDrawer.save s w).2 =
     (if bool_decide (JS.trim (SettingsDrawer.geminiApiKey s) = EmptyString)
      then or_else (env w !! "VITE_API_KEY") EmptyString
      else JS.trim (SettingsDrawer.geminiApiKey s))
  /\ Gemini.getApiKey (SettingsDrawer.save s w).2 =
     (Normal (apiKey (SettingsDrawer.save s w).2), (SettingsDrawer.save s w).2)
  /\ (SettingsDrawer.initialGeminiApiKey (SettingsDrawer.save s w).2).1 =
     Normal (JS.trim (SettingsDrawer.geminiApiKey s))
  /\ events (SettingsDrawer.save s w).2 =
     (events w ++ [EvAlert SettingsDrawer.configuration_saved])%list
  /\ vault (SettingsDrawer.save s w).2 = vault w
  /\ dbInstance (SettingsDrawer.save s w).2 = false.
Proof.
  destruct (save_spec s w) as (Hn & _ & Henv & Hdb & Hv & _ & Hev).
  pose proof (saved_key s w) as Hkey.
  split; [exact Hn|]. split; [|split; [apply getApiKey_spec|split]].
  - unfold apiKey. rewrite Hkey, Henv.
    case_bool_decide as Hblank; [reflexivity|].
    destruct (JS.trim (SettingsDrawer.geminiApiKey s)); [congruence | reflexivity].
  - unfold SettingsDrawer.initialGeminiApiKey, bind, localStorage_getItem, ret. simpl.
    rewrite Hkey. case_bool_decide as Hblank; [now rewrite Hblank|].
    destruct (JS.trim (SettingsDrawer.geminiApiKey s)); [congruence | reflexivity].
  - split; [exact Hev|]. split; [exact Hv | exact Hdb].
Qed.

(** X23.  The saved form shadows the build environment.  After a save,
    whether a Firestore handle can be had depends on the project of the
    form alone, whatever the environment names and whatever handle was
    cached before: a form without a project leaves the application
    without vault, so that the duplicate check answers false, nothing is
    written and the vault reads as empty.  ([JSON.parse] is taken to read
    back the project that [JSON.stringify] wrote.) *)
Theorem settings_config_shadows_environment `{Platform} `{SettingsDrawer.Stringify}
  (s : SettingsDrawer.State) (w : World) :
  SettingsDrawer.JSON_stringify_config (SettingsDrawer.config s) <> EmptyString ->
  JSON_parse_config (SettingsDrawer.JSON_stringify_config (SettingsDrawer.config s))
  = Some {| projectId := SettingsDrawer.projectId (SettingsDrawer.config s) |} ->
  configured (SettingsDrawer.save s w).2 =
    negb (bool_decide (SettingsDrawer.projectId (SettingsDrawer.config s) = EmptyString))
  /\ (SettingsDrawer.projectId (SettingsDrawer.config s) = EmptyString ->
      forall h d r,
        (Firebase.checkDuplicate h (SettingsDrawer.save s w).2).1 = Normal false
        /\ events (Firebase.saveToVault h d r (SettingsDrawer.save s w).2).2
           = events (SettingsDrawer.save s w).2
        /\ vault (Firebase.saveToVault h d r (SettingsDrawer.save s w).2).2
           = vault (SettingsDrawer.save s w).2
        /\ (Firebase.fetchVault (SettingsDrawer.save s w).2).1 = Normal []).
Proof.
  intros Hne Hparse.
  destruct (save_spec s w) as (_ & _ & _ & Hdb & _).
  pose proof (saved_config s w) as Hcfg.
  assert (Hc : configured (SettingsDrawer.save s w).2 =
               negb (bool_decide
                       (SettingsDrawer.projectId (SettingsDrawer.config s) = EmptyString))).
  { unfold configured. rewrite Hdb, Hcfg. simpl orb.
    destruct (SettingsDrawer.JSON_stringify_config (SettingsDrawer.config s)) as [|c t];
      [congruence|].
    now rewrite Hparse. }
  split; [exact Hc|].
  intros Hp h d r. rewrite Hp in Hc. simpl in Hc.
  destruct (checkDuplicate_spec h (SettingsDrawer.save s w).2) as (Hr & _).
  destruct (saveToVault_spec h d r (SettingsDrawer.save s w).2) as (_ & _ & Hv & He & _).
  destruct (fetchVault_spec (SettingsDrawer.save s w).2) as (Hf & _).
  rewrite Hc in Hr, Hv, He, Hf. simpl in Hr, Hv, He, Hf. rewrite app_nil_r in He.
  repeat split; assumption.
Qed.

(** The build environment names a project; a form without project is
    saved. *)
Lemma settings_config_witness :
  @configured (Samples.browser 0) Samples.w_env = true
  /\ @configured (Samples.browser 0)
       (@SettingsDrawer.save Samples.writer
          {| SettingsDrawer.geminiApiKey := EmptyString;
             SettingsDrawer.config := Samples.form EmptyString |} Samples.w_env).2
     = false.
Proof.
  split; [vm_compute; reflexivity|].
  assert (Hne : @SettingsDrawer.JSON_stringify_config Samples.writer
                  (Samples.form EmptyString) <> EmptyString)
    by (vm_compute; discriminate).
  assert (Hparse : @JSON_parse_config (Samples.browser 0)
                     (@SettingsDrawer.JSON_stringify_config Samples.writer
                        (Samples.form EmptyString))
                   = Some {| projectId := EmptyString |})
    by (vm_compute; reflexivity).
  exact (proj1 (@settings_config_shadows_environment (Samples.browser 0) Samples.writer
                  {| SettingsDrawer.geminiApiKey := EmptyString;
                     SettingsDrawer.config := Samples.form EmptyString |}
                  Samples.w_env Hne Hparse)).
Defined.

End SettingsProperties.

(** ** Further properties of a session *)

Module SessionProperties.
Import Runtime Storage StoreSpec SessionSpec EffFacts SessionFacts.

(** X24.  The staging text survives a reload.  From the first render on,
    whatever the user does, the text kept in local storage is the staging
    text, so that the application mounted again after a reload starts
    with the staging text it had; and a session touches no other entry of
    the local storage. *)
Theorem staging_text_survives_reload `{Platform} (actions : list App.Action) (w : World) :
  exists st0 st' st'',
    (AppSession.mount w).1 = Normal st0
    /\ (AppSession.session actions st0 (AppSession.mount w).2).1 = Normal st'
    /\ stored (AppSession.session actions st0 (AppSession.mount w).2).2 st'
    /\ (AppSession.restart (AppSession.session actions st0 (AppSession.mount w).2).2).1
       = Normal st''
    /\ App.inputText st'' = App.inputText st'
    /\ sameStorageBut AppSession.STORAGE_KEY_INPUT w
         (AppSession.session actions st0 (AppSession.mount w).2).2.
Proof.
  destruct (mount_spec w) as (st0 & Hmount & Htext0 & _).
  destruct (persistInput_spec st0 w) as (_ & Hst0 & Hbut0).
  rewrite Hmount. cbn [fst snd].
  destruct (session_stored actions st0 _ Hst0) as (st' & Hrun & Hst' & Hbut).
  set (w' := (AppSession.session actions st0 (AppSession.persistInput st0 w).2).2) in *.
  destruct (mount_spec (set_dbInstance false w').2) as (st'' & Hmount' & Htext' & _).
  exists st0, st', st''.
  split; [reflexivity|]. split; [exact Hrun|]. split; [exact Hst'|].
  split.
  { fold w'. change (AppSession.restart w') with (AppSession.mount (set_dbInstance false w').2).
    now rewrite Hmount'. }
  split; [rewrite Htext'; exact Hst'|].
  eapply sameStorageBut_trans; eassumption.
Qed.

End SessionProperties.

(** ** Further properties of the single-file variant *)

Module IndexProperties.
Import Runtime StoreSpec SessionSpec EffFacts ServiceFacts IndexVaultFacts.

(** X25.  [handleProcess] of [index.tsx] looks nothing up: no event of a
    run is a lookup of a document, so a question that is in the vault
    already is sent and stored again.  When the request to the AI fails,
    the run ends in the state ERROR with the text and the result as they
    were, and the vault is as before. *)
Theorem index_never_looks_up `{Platform} (st : Index.AppState) (w : World) :
  extends noLookup w (Index.handleProcess st w).2
  /\ forall e w1,
       JS.trim (Index.inputText st) <> EmptyString ->
       Index.processInsights
         (map (fun rq => {| Types.az_text := rq; Types.az_correctAnswer := "Verified";
                            Types.az_explanation := None |})
              (Index.raw (Index.inputText st))) w
       = (Throw e, w1) ->
       Index.handleProcess st w =
       (Normal {| Index.inputText := Index.inputText st; Index.result := Index.result st;
                  Index.status := Types.ERROR |}, w1)
       /\ vault w1 = vault w.
Proof.
  split; [apply handleProcess_no_lookup|].
  intros e w1 Hb Hai. split; [exact (handleProcess_failure st w e w1 Hb Hai)|].
  pose proof (processInsights_index_same_vault
                (map (fun rq => {| Types.az_text := rq; Types.az_correctAnswer := "Verified";
                                   Types.az_explanation := None |})
                     (Index.raw (Index.inputText st))) w) as Hv.
  now rewrite Hai in Hv.
Qed.

(** The question is in the vault; the single-file variant stores it again. *)
Lemma index_never_looks_up_witness :
  events (@Index.handleProcess (Scenario.platform 0)
            {| Index.inputText := Scenario.one_question; Index.result := None;
               Index.status := Types.IDLE |}
            (Scenario.world {[ Scenario.h0 := Scenario.old_item ]} []
               [AiResponds Scenario.result_json []])).2
  = [EvGenerateContent "gemini-3-pro-preview"
       (InsightRequest [{| Types.az_text := Scenario.one_question;
                           Types.az_correctAnswer := "Verified";
                           Types.az_explanation := None |}]);
     EvSetDoc Scenario.h0 Scenario.new_item]
  /\ extends noLookup
       (Scenario.world {[ Scenario.h0 := Scenario.old_item ]} []
          [AiResponds Scenario.result_json []])
       (@Index.handleProcess (Scenario.platform 0)
          {| Index.inputText := Scenario.one_question; Index.result := None;
             Index.status := Types.IDLE |}
          (Scenario.world {[ Scenario.h0 := Scenario.old_item ]} []
             [AiResponds Scenario.result_json []])).2.
Proof.
  split; [vm_compute; reflexivity|].
  apply (@index_never_looks_up (Scenario.platform 0)).
Defined.

(** X26.  The vault functions of [index.tsx] do what those of
    [firebase.ts] do, except that they cache no Firestore handle: started
    without a cached handle, [saveToVault] completes alike, sends the same
    write and leaves the same vault, and [fetchVault] returns the same
    list after the same query. *)
Theorem index_vault_functions_agree `{Platform} (h d r : string) (w : World) :
  dbInstance w = false ->
  (Index.saveToVault h d r w).1 = (Firebase.saveToVault h d r w).1
  /\ vault (Index.saveToVault h d r w).2 = vault (Firebase.saveToVault h d r w).2
  /\ events (Index.saveToVault h d r w).2 = events (Firebase.saveToVault h d r w).2
  /\ storeOutcomes (Index.saveToVault h d r w).2
     = storeOutcomes (Firebase.saveToVault h d r w).2
  /\ dbInstance (Index.saveToVault h d r w).2 = false
  /\ (IndexVault.fetchVault w).1 = (Firebase.fetchVault w).1
  /\ events (IndexVault.fetchVault w).2 = events (Firebase.fetchVault w).2.
Proof.
  intros Hdb.
  destruct (saveToVault_index_spec h d r w Hdb) as (Hn & Hv & He & Ho & Hd).
  destruct (saveToVault_spec h d r w) as (Hn' & _ & Hv' & He' & Ho' & _).
  destruct (fetchVault_index_spec w Hdb) as (Hf & _ & Hfe).
  destruct (fetchVault_spec w) as (Hf' & _ & _ & Hfe' & _).
  repeat split; congruence.
Qed.

(** The browser of the scenarios, which has no handle yet. *)
Lemma index_vault_witness :
  events (@Index.saveToVault (Scenario.platform 0) Scenario.h0 "Networking"
            "Peering is not transitive." Scenario.w_known).2
  = events (@Firebase.saveToVault (Scenario.platform 0) Scenario.h0 "Networking"
              "Peering is not transitive." Scenario.w_known).2.
Proof.
  apply (@index_vault_functions_agree (Scenario.platform 0) Scenario.h0 "Networking"
           "Peering is not transitive." Scenario.w_known eq_refl).
Defined.

End IndexProperties.

(** ** The two counters of the staging area *)

Module CounterFacts.
Import JS Spec TextSpec StringFacts StagingFacts Runtime SplitFacts.

Lemma charMatches_ignoreCase p c :
  charMatches false p c = true -> charMatches true p c = true.
Proof.
  unfold charMatches. intros E. apply bool_decide_eq_true in E. subst c.
  apply N.eqb_refl.
Qed.

Lemma matchesAt_ignoreCase pat : forall s,
  matchesAt false pat s = true -> matchesAt true pat s = true.
Proof.
  unfold matchesAt. induction pat as [|p pat IH]; intros s; [reflexivity|].
  destruct s as [|c s]; [simpl; discriminate|]. cbn [matchLiteral].
  destruct (charMatches false p c) eqn:E; [|discriminate].
  rewrite (charMatches_ignoreCase _ _ E). specialize (IH s).
  destruct (matchLiteral false pat s) as [[? ?]|]; [|discriminate].
  destruct (matchLiteral true pat s) as [[? ?]|]; [reflexivity|].
  intros _. now specialize (IH eq_refl).
Qed.

Lemma occurrences_ignoreCase pat s :
  occurrences false pat s <= occurrences true pat s.
Proof.
  induction s as [|c s IH].
  - simpl. destruct (matchesAt false pat "") eqn:E; [|lia].
    now rewrite (matchesAt_ignoreCase _ _ E).
  - rewrite !occurrences_cons.
    destruct (matchesAt false pat (String c s)) eqn:E; [|lia].
    rewrite (matchesAt_ignoreCase _ _ E). lia.
Qed.

End CounterFacts.

Module CounterProperties.
Import JS Spec TextSpec StringFacts StagingFacts Runtime SplitFacts CounterFacts.

(** X28.  The two variants count the staged questions differently, and
    the counter of index.tsx is never the smaller one: a staging text
    that App.tsx takes as full is full for index.tsx as well, whose push
    then leaves the text as it is.  The converse fails: six markers in
    lower case fill the staging area of index.tsx and count as none in
    App.tsx. *)
Theorem index_counter_not_smaller (text : string) :
  App.stagedCount text <= Index.currentStagedCount text
  /\ (App.isStagingFull text = true ->
      forall q, Index.handlePushToEngine q text = text)
  /\ exists lower, App.stagedCount lower = 0 /\ Index.currentStagedCount lower = 6.
Proof.
  assert (Hle : App.stagedCount text <= Index.currentStagedCount text).
  { rewrite stagedCount_occurrences, currentStagedCount_occurrences.
    etransitivity; [|apply occurrences_ignoreCase].
    exact (occurrences_prefix false "Question:" " " text). }
  split; [exact Hle|]. split.
  - intros Hfull q. unfold App.isStagingFull in Hfull. apply Nat.leb_le in Hfull.
    unfold Index.handlePushToEngine. fold (Index.currentStagedCount text).
    destruct (Nat.leb_spec 6 (Index.currentStagedCount text)); [reflexivity | lia].
  - exists "question: a question: b question: c question: d question: e question: f".
    split; vm_compute; reflexivity.
Qed.

End CounterProperties.

(** ** From one scan to the next *)

Module RescanFacts.
Import Runtime StoreSpec AppSpec SessionSpec EffFacts ServiceFacts AppFacts.
Import HashFacts HandlerFacts FailureFacts StagingFacts.

Lemma getQuestionHash_nonempty q : Firebase.getQuestionHash q <> EmptyString.
Proof.
  intros E. pose proof (f_equal String.length E) as Hl.
  rewrite getQuestionHash_hex, hex_length, digest_length in Hl. discriminate Hl.
Qed.

Lemma blockWrites_keys w domain hashes blocks :
  Forall (fun h => h <> EmptyString) hashes ->
  length hashes <= length blocks ->
  map fst (blockWrites w domain hashes blocks) = hashes.
Proof.
  intros Hne. revert blocks. induction Hne as [|h hs Hh Hhs IH]; intros blocks Hlen.
  - reflexivity.
  - destruct blocks as [|b bs]; [simpl in Hlen; lia|].
    rewrite blockWrites_cons, bool_decide_eq_false_2 by exact Hh.
    simpl. f_equal. apply IH. simpl in Hlen. lia.
Qed.

Lemma foldl_insert_is_Some (l : list (string * VaultItem)) :
  forall (v : gmap string VaultItem) (h : string),
  h ∈ map fst l \/ is_Some (v !! h) ->
  is_Some (foldl (fun (v : gmap string VaultItem) p => <[p.1 := p.2]> v) v l !! h).
Proof.
  induction l as [|[k d] l IH]; intros v h Hh; simpl.
  - destruct Hh as [Hin | Hs]; [inversion Hin | exact Hs].
  - apply IH. destruct (decide (k = h)) as [->|Hne].
    + right. rewrite lookup_insert_eq. eauto.
    + destruct Hh as [Hin | Hs].
      * left. simpl in Hin. apply elem_of_cons in Hin as [E | Hin]; [congruence | exact Hin].
      * right. now rewrite lookup_insert_ne.
Qed.

Section WithPlatform.
Context `{Platform}.

Lemma processInsights_store qs w :
  storeOutcomes (Gemini.processInsights qs w).2 = storeOutcomes w
  /\ configured (Gemini.processInsights qs w).2 = configured w.
Proof.
  unfold Gemini.processInsights, bind. rewrite getApiKey_spec.
  destruct (bool_decide _); [split; reflexivity|].
  unfold generateContent, bind, emit. simpl.
  destruct (aiReplies w) as [|[msg|t cs] rs]; simpl; [split; reflexivity ..|].
  destruct (JSON_parse_result _); split; reflexivity.
Qed.

Lemma processInsights_healthy qs w :
  healthy w -> healthy (Gemini.processInsights qs w).2.
Proof.
  intros [Hc Ho]. destruct (processInsights_store qs w) as [Ho' Hc'].
  split; [congruence | now rewrite Ho'].
Qed.

Lemma saveBlocks_healthy i blocks domain hashes w :
  healthy w -> healthy (App.saveBlocks i blocks domain hashes w).2.
Proof.
  revert i w. induction blocks as [|b bs IH]; intros i w Hw; [exact Hw|].
  simpl. unfold bind. destruct (truthy (hashes !! i)).
  - destruct (saveToVault_spec (or_else (hashes !! i) EmptyString) domain
                (Types.foundationalRule b) w) as (Hn & _ & _ & _ & Ho & Hc1).
    destruct (healthy_served w Hw) as [Hc _]. rewrite Hc in Ho.
    destruct (Firebase.saveToVault _ _ _ w) as [r w1]. simpl in *. subst r.
    apply IH. now apply (healthy_after w).
  - simpl. now apply IH.
Qed.

(** The lookups of a batch none of whose questions is in the vault. *)
Lemma lookups_all_new hashes w :
  healthy w -> Forall (fun h => vault w !! h = None) hashes ->
  exists w1,
    mapM Firebase.checkDuplicate hashes w = (Normal (repeat false (length hashes)), w1)
    /\ vault w1 = vault w /\ healthy w1.
Proof.
  intros Hw Hnew.
  destruct (checkDuplicates_spec hashes w) as (dups & Hd & _ & Hv & _ & _ & _ & Hgood).
  destruct (Hgood Hw) as (Hdups & _ & Hw1).
  destruct (mapM Firebase.checkDuplicate hashes w) as [c w1]. simpl in *. subst c.
  exists w1. split; [|split; assumption]. f_equal. f_equal. rewrite Hdups.
  clear -Hnew. induction Hnew as [|h hs Hh Hhs IH]; [reflexivity|].
  simpl. rewrite IH. f_equal. apply bool_decide_eq_false. rewrite Hh.
  intros [x Hx]. discriminate Hx.
Qed.

(** The lookups of a batch all of whose questions are in the vault. *)
Lemma lookups_all_known hashes w :
  healthy w -> Forall (fun h => is_Some (vault w !! h)) hashes ->
  exists w1,
    mapM Firebase.checkDuplicate hashes w = (Normal (repeat true (length hashes)), w1)
    /\ vault w1 = vault w.
Proof.
  intros Hw Hknown.
  destruct (checkDuplicates_spec hashes w) as (dups & Hd & _ & Hv & _ & _ & _ & Hgood).
  destruct (Hgood Hw) as (Hdups & _ & Hw1).
  destruct (mapM Firebase.checkDuplicate hashes w) as [c w1]. simpl in *. subst c.
  exists w1. split; [|assumption]. f_equal. f_equal. rewrite Hdups.
  clear -Hknown. induction Hknown as [|h hs Hh Hhs IH]; [reflexivity|].
  simpl. rewrite IH. f_equal. now apply bool_decide_eq_true.
Qed.

Lemma duplicateIndicesOf_none n : App.duplicateIndicesOf (repeat false n) = [].
Proof.
  destruct (App.duplicateIndicesOf (repeat false n)) as [|i l] eqn:E; [reflexivity|].
  assert (Hi : i ∈ App.duplicateIndicesOf (repeat false n)) by (rewrite E; left).
  apply duplicateIndicesOf_elem in Hi as (k & _ & Hk).
  apply list_elem_of_lookup_2, list_elem_of_In, repeat_spec in Hk. discriminate Hk.
Qed.

Lemma duplicateIndicesOf_all n k :
  k < n -> Z.of_nat k ∈ App.duplicateIndicesOf (repeat true n).
Proof.
  intros Hk. apply duplicateIndicesOf_elem. exists k. split; [reflexivity|].
  revert k Hk. induction n as [|n IH]; intros k Hk; [lia|].
  destruct k as [|k]; [reflexivity|]. simpl. apply IH. lia.
Qed.

End WithPlatform.
End RescanFacts.

Module RescanProperties.
Import Runtime StoreSpec AppSpec SessionSpec EffFacts ServiceFacts AppFacts.
Import HandlerFacts FailureFacts RescanFacts.

(** X27.  What has been processed is recognised by the next scan.  With a
    working store and a key, a scan of questions none of which is in the
    vault, answered by the AI with at least one block per question, ends
    in the state SUCCESS with every hash of the batch in the vault; a
    scan of the same staging text right after it reports every question
    as a duplicate and holds the batch, sending nothing to the AI. *)
Theorem processed_questions_found_by_next_scan `{Platform} (st : App.AppState)
  (w : World) (extraction : Types.ExtractionResult) :
  healthy w ->
  App.isApiKeySet st = true ->
  JS.trim (App.inputText st) <> EmptyString ->
  App.rawQuestions (App.inputText st) <> [] ->
  Forall (fun h => vault w !! h = None)
         (map Firebase.getQuestionHash (App.rawQuestions (App.inputText st))) ->
  (Gemini.processInsights (verified (App.rawQuestions (App.inputText st)))
     (mapM Firebase.checkDuplicate
        (map Firebase.getQuestionHash (App.rawQuestions (App.inputText st))) w).2).1
  = Normal extraction ->
  length (App.rawQuestions (App.inputText st)) <= length (Types.blocks extraction) ->
  exists st',
    (App.handleInitialScan st w).1 = Normal st'
    /\ App.status st' = Types.SUCCESS
    /\ App.result st' = Some extraction
    /\ App.inputText st' = App.inputText st
    /\ Forall (fun h => is_Some (vault (App.handleInitialScan st w).2 !! h))
              (map Firebase.getQuestionHash (App.rawQuestions (App.inputText st)))
    /\ exists st'' pb,
         (App.handleInitialScan st' (App.handleInitialScan st w).2).1 = Normal st''
         /\ App.status st'' = Types.IDLE
         /\ App.pendingBatch st'' = Some pb
         /\ App.questions pb = App.rawQuestions (App.inputText st)
         /\ (forall k, k < length (App.rawQuestions (App.inputText st)) ->
                       Z.of_nat k ∈ App.duplicateIndices pb)
         /\ extends isLookup (App.handleInitialScan st w).2
              (App.handleInitialScan st' (App.handleInitialScan st w).2).2.
Proof.
  intros Hw Hkey Hb Hraw Hnew Hai Hblocks.
  set (batch := App.rawQuestions (App.inputText st)) in *.
  set (hashes := map Firebase.getQuestionHash batch) in *.
  destruct (lookups_all_new hashes w Hw Hnew) as (w1 & Hrun & Hv1 & Hw1).
  rewrite Hrun in Hai. cbn [fst snd] in Hai.
  pose proof (handleInitialScan_spec st w Hb Hraw _ w1 Hrun) as Hscan.
  rewrite duplicateIndicesOf_none in Hscan.
  rewrite bool_decide_eq_false_2 in Hscan by (simpl; lia).
  fold batch hashes in Hscan.
  pose proof (processInsights_healthy (verified batch) w1 Hw1) as Hw2.
  destruct (Gemini.processInsights (verified batch) w1) as [c w2] eqn:Hai2.
  simpl in Hai. subst c.
  rewrite (executeProcessing_success batch hashes
             (App.setError None (App.setStatus Types.LOADING st)) w1 extraction w2
             Hraw Hkey Hai2) in Hscan.
  simpl in Hw2.
  set (w' := (App.saveBlocks 0 (Types.blocks extraction) (Types.domain extraction)
                hashes w2).2) in *.
  assert (Hw' : healthy w') by now apply saveBlocks_healthy.
  assert (Hknown : Forall (fun h => is_Some (vault w' !! h)) hashes).
  { destruct (healthy_served w2 Hw2) as [Hc2 _].
    destruct (saveBlocks_events 0 (Types.blocks extraction) (Types.domain extraction)
                hashes w2 Hc2) as (_ & Hvault).
    specialize (Hvault Hw2). fold w' in Hvault. rewrite drop_0 in Hvault.
    apply Forall_forall. intros h Hh. rewrite Hvault.
    apply foldl_insert_is_Some. left.
    rewrite blockWrites_keys; [exact Hh | | unfold hashes; now rewrite length_map].
    apply Forall_forall. intros k Hk. unfold hashes in Hk.
    apply list_elem_of_fmap in Hk as (q & -> & _). apply getQuestionHash_nonempty. }
  rewrite Hscan. cbn [fst snd].
  eexists. split; [reflexivity|]. split; [reflexivity|]. split; [reflexivity|].
  split; [reflexivity|]. split; [exact Hknown|].
  destruct (lookups_all_known hashes w' Hw' Hknown) as (w3 & Hrun' & Hv3).
  match goal with |- context [App.handleInitialScan ?s w'] => set (st' := s) end.
  assert (Htext : App.inputText st' = App.inputText st) by reflexivity.
  pose proof (handleInitialScan_spec st' w') as Hscan'.
  rewrite Htext in Hscan'. fold batch hashes in Hscan'.
  specialize (Hscan' Hb Hraw _ w3 Hrun').
  assert (Hdup : 0 < length (App.duplicateIndicesOf (repeat true (length hashes)))).
  { assert (Hin : Z.of_nat 0 ∈ App.duplicateIndicesOf (repeat true (length hashes))).
    { apply duplicateIndicesOf_all. unfold hashes. rewrite length_map.
      destruct batch; [congruence | simpl; lia]. }
    destruct (App.duplicateIndicesOf _); [inversion Hin | simpl; lia]. }
  rewrite bool_decide_eq_true_2 in Hscan' by exact Hdup.
  rewrite Hscan'. cbn [fst snd].
  eexists _, _. split; [reflexivity|]. split; [reflexivity|]. split; [reflexivity|].
  split; [reflexivity|]. split.
  - intros k Hk. simpl. apply duplicateIndicesOf_all. unfold hashes. now rewrite length_map.
  - destruct (checkDuplicates_spec hashes w') as (d & _ & _ & _ & _ & Hx & _).
    now rewrite Hrun' in Hx.
Qed.

(** The browser of the scenarios with an empty vault: the answer is
    stored, and the second scan holds the batch. *)
Lemma processed_questions_witness :
  exists st',
    (@App.handleInitialScan (Scenario.platform 0) (Examples.staged Scenario.one_question)
       (Scenario.world ∅ [] [Scenario.fenced_reply])).1 = Normal st'
    /\ App.status st' = Types.SUCCESS
    /\ exists st'' pb,
         (@App.handleInitialScan (Scenario.platform 0) st'
            (@App.handleInitialScan (Scenario.platform 0)
               (Examples.staged Scenario.one_question)
               (Scenario.world ∅ [] [Scenario.fenced_reply])).2).1 = Normal st''
         /\ App.pendingBatch st'' = Some pb
         /\ App.questions pb = [Scenario.one_question].
Proof.
  destruct (@processed_questions_found_by_next_scan (Scenario.platform 0)
              (Examples.staged Scenario.one_question)
              (Scenario.world ∅ [] [Scenario.fenced_reply]) Scenario.parsed_result)
    as (st' & Hrun & Hstatus & _ & _ & _ & st'' & pb & Hrun' & _ & Hpb & Hq & _).
  - split; [vm_compute; reflexivity | constructor].
  - reflexivity.
  - vm_compute. discriminate.
  - vm_compute. discriminate.
  - repeat constructor.
  - vm_compute. reflexivity.
  - vm_compute. lia.
  - exists st'. split; [exact Hrun|]. split; [exact Hstatus|].
    exists st'', pb. split; [exact Hrun'|]. split; [exact Hpb | exact Hq].
Defined.

End RescanProperties.

(** ** The built-ins on strings of UTF-16 code units *)

Module UStringFacts.
Import UString UStringSpec.
Local Open Scope list_scope.
Local Open Scope N_scope.

(** *** Trimming *)







(** *** Lower case *)

Section WithCaseData.
Context `{CaseData}.



End WithCaseData.

(** *** Strings of code units below U+0100 *)


Lemma ofString_nil_iff s : ofString s = [] <-> s = EmptyString.
Proof. destruct s; split; intros E; try reflexivity; discriminate. Qed.













(** The sample letters agree with [JS.toLowerChar] below U+0100. *)
Lemma letters_latin1 : @latin1_agrees Letters.caseData.
Proof.
  assert (Hall : forallb (fun n => Letters.lower n
                                   =? N_of_ascii (JS.toLowerChar (ascii_of_N n)))
                         (map N.of_nat (seq 0 256)) = true)
    by (vm_compute; reflexivity).
  intros n Hn. rewrite forallb_forall in Hall.
  apply N.eqb_eq, Hall. apply in_map_iff. exists (N.to_nat n).
  split; [apply N2Nat.id|]. apply in_seq. lia.
Qed.

End UStringFacts.

(** ** UTF-16 and UTF-8 *)

Module Utf8Facts.
Import UString UStringSpec UStringFacts EncodingFacts.
Local Open Scope list_scope.
Local Open Scope N_scope.

(** Linear arithmetic with quotients and remainders. *)
Ltac lia_div := zify; Z.to_euclidean_division_equations; lia.

Lemma continuation_low_byte x :
  x < 0x40 -> continuation (Sha256.low_byte (0x80 + x)) = Some x.
Proof.
  intros Hx. unfold continuation. rewrite to_N_low_byte by lia.
  destruct (N.leb_spec 0x80 (0x80 + x)); [|lia].
  destruct (N.leb_spec (0x80 + x) 0xBF); [|lia].
  simpl. f_equal. lia.
Qed.

Lemma utf8_decode_one b r :
  Byte.to_N b < 0x80 ->
  utf8_decode (b :: r) = option_map (cons (Byte.to_N b)) (utf8_decode r).
Proof.
  intros Hb. cbn [utf8_decode].
  destruct (N.ltb_spec (Byte.to_N b) 0x80); [reflexivity | lia].
Qed.

Lemma utf8_decode_two b0 b1 r x1 :
  0x80 <= Byte.to_N b0 < 0xE0 -> continuation b1 = Some x1 ->
  utf8_decode (b0 :: b1 :: r)
  = option_map (cons ((Byte.to_N b0 - 0xC0) * 0x40 + x1)) (utf8_decode r).
Proof.
  intros Hb H1. cbn [utf8_decode].
  destruct (N.ltb_spec (Byte.to_N b0) 0x80); [lia|].
  destruct (N.ltb_spec (Byte.to_N b0) 0xE0); [|lia].
  now rewrite H1.
Qed.

Lemma utf8_decode_three b0 b1 b2 r x1 x2 :
  0xE0 <= Byte.to_N b0 < 0xF0 -> continuation b1 = Some x1 -> continuation b2 = Some x2 ->
  utf8_decode (b0 :: b1 :: b2 :: r)
  = option_map (cons ((Byte.to_N b0 - 0xE0) * 0x1000 + x1 * 0x40 + x2)) (utf8_decode r).
Proof.
  intros Hb H1 H2. cbn [utf8_decode].
  destruct (N.ltb_spec (Byte.to_N b0) 0x80); [lia|].
  destruct (N.ltb_spec (Byte.to_N b0) 0xE0); [lia|].
  destruct (N.ltb_spec (Byte.to_N b0) 0xF0); [|lia].
  now rewrite H1, H2.
Qed.

Lemma utf8_decode_four b0 b1 b2 b3 r x1 x2 x3 :
  0xF0 <= Byte.to_N b0 ->
  continuation b1 = Some x1 -> continuation b2 = Some x2 -> continuation b3 = Some x3 ->
  utf8_decode (b0 :: b1 :: b2 :: b3 :: r)
  = option_map (cons ((Byte.to_N b0 - 0xF0) * 0x40000 + x1 * 0x1000 + x2 * 0x40 + x3))
               (utf8_decode r).
Proof.
  intros Hb H1 H2 H3. cbn [utf8_decode].
  destruct (N.ltb_spec (Byte.to_N b0) 0x80); [lia|].
  destruct (N.ltb_spec (Byte.to_N b0) 0xE0); [lia|].
  destruct (N.ltb_spec (Byte.to_N b0) 0xF0); [lia|].
  now rewrite H1, H2, H3.
Qed.

(** The bytes of a scalar value read back as the scalar value. *)
Lemma utf8_decode_utf8 c rest :
  c < 0x200000 ->
  utf8_decode (utf8 c ++ rest) = option_map (cons c) (utf8_decode rest).
Proof.
  intros Hc. unfold utf8.
  destruct (N.ltb_spec c 0x80) as [H1|H1].
  { cbn [app]. rewrite utf8_decode_one by (rewrite to_N_low_byte; lia).
    now rewrite to_N_low_byte by lia. }
  destruct (N.ltb_spec c 0x800) as [H2|H2].
  { cbn [app].
    rewrite (utf8_decode_two _ _ _ (c mod 0x40));
      [| rewrite to_N_low_byte by lia_div; lia_div
       | apply continuation_low_byte; lia_div].
    rewrite to_N_low_byte by lia_div. f_equal. f_equal. lia_div. }
  destruct (N.ltb_spec c 0x10000) as [H3|H3].
  { cbn [app].
    rewrite (utf8_decode_three _ _ _ _ ((c / 0x40) mod 0x40) (c mod 0x40));
      [| rewrite to_N_low_byte by lia_div; lia_div
       | apply continuation_low_byte; lia_div
       | apply continuation_low_byte; lia_div].
    rewrite to_N_low_byte by lia_div. f_equal. f_equal. lia_div. }
  cbn [app].
  rewrite (utf8_decode_four _ _ _ _ _ ((c / 0x1000) mod 0x40) ((c / 0x40) mod 0x40)
             (c mod 0x40));
    [| rewrite to_N_low_byte by lia_div; lia_div
     | apply continuation_low_byte; lia_div
     | apply continuation_low_byte; lia_div
     | apply continuation_low_byte; lia_div].
  rewrite to_N_low_byte by lia_div. f_equal. f_equal. lia_div.
Qed.

Lemma utf8_decode_flat_map cs :
  Forall (fun c => c < 0x200000) cs -> utf8_decode (flat_map utf8 cs) = Some cs.
Proof.
  induction 1 as [|c cs Hc Hcs IH]; [reflexivity|].
  simpl. now rewrite (utf8_decode_utf8 c _ Hc), IH.
Qed.

(** *** Code points *)

Lemma codePoints_pair a b s :
  codePoints (a :: b :: s) =
  if isLeadSurrogate a && isTrailSurrogate b
  then (0x10000 + (a - 0xD800) * 0x400 + (b - 0xDC00)) :: codePoints s
  else a :: codePoints (b :: s).
Proof. reflexivity. Qed.

Lemma surrogate_pair a b :
  isLeadSurrogate a && isTrailSurrogate b = true ->
  0xD800 <= a <= 0xDBFF /\ 0xDC00 <= b <= 0xDFFF.
Proof.
  unfold isLeadSurrogate, isTrailSurrogate.
  rewrite !andb_true_iff, !N.leb_le. tauto.
Qed.

(** A property of strings proved two code units at a time. *)
Lemma string_ind2 (P : ustring -> Prop) :
  P [] -> (forall a, P [a]) ->
  (forall a b s, P s -> P (b :: s) -> P (a :: b :: s)) ->
  forall s, P s.
Proof.
  intros H0 H1 H2 s. enough (P s /\ forall a, P (a :: s)) by tauto.
  induction s as [|b s [IHs IHb]]; [split; [exact H0 | exact H1]|].
  split; [apply IHb|]. intros a. apply H2; [exact IHs | apply IHb].
Qed.

Lemma codePoints_bound s :
  isString s -> Forall (fun c => c < 0x110000) (codePoints s).
Proof.
  induction s as [| a | a b s IHs IHb] using string_ind2; intros Hs.
  - constructor.
  - inversion Hs; subst. repeat constructor. lia.
  - rewrite codePoints_pair. inversion Hs as [|? ? Ha Hs']; subst.
    destruct (isLeadSurrogate a && isTrailSurrogate b) eqn:E.
    + apply surrogate_pair in E. inversion Hs'; subst.
      constructor; [lia | now apply IHs].
    + constructor; [lia | now apply IHb].
Qed.

Lemma ofCodePoints_codePoints s : isString s -> ofCodePoints (codePoints s) = s.
Proof.
  induction s as [| a | a b s IHs IHb] using string_ind2; intros Hs.
  - reflexivity.
  - inversion Hs; subst. unfold ofCodePoints. simpl. unfold utf16.
    destruct (N.ltb_spec a 0x10000); [reflexivity | lia].
  - rewrite codePoints_pair. inversion Hs as [|? ? Ha Hs']; subst.
    destruct (isLeadSurrogate a && isTrailSurrogate b) eqn:E.
    + apply surrogate_pair in E. inversion Hs'; subst.
      unfold ofCodePoints in *. cbn [flat_map]. rewrite IHs by assumption.
      unfold utf16.
      destruct (N.ltb_spec (0x10000 + (a - 0xD800) * 0x400 + (b - 0xDC00)) 0x10000);
        [lia|].
      cbn [app]. f_equal; [lia_div|]. f_equal. lia_div.
    + unfold ofCodePoints in *. cbn [flat_map]. rewrite IHb by assumption.
      unfold utf16. destruct (N.ltb_spec a 0x10000); [reflexivity | lia].
Qed.

Lemma codePoints_inj s t :
  isString s -> isString t -> codePoints s = codePoints t -> s = t.
Proof.
  intros Hs Ht E. rewrite <- (ofCodePoints_codePoints s Hs), E.
  now apply ofCodePoints_codePoints.
Qed.

Lemma scalarValue_bound c : c < 0x110000 -> scalarValue c < 0x200000.
Proof. unfold scalarValue. destruct (isSurrogate c); lia. Qed.

Lemma TextEncoder_encode_scalarValues s :
  TextEncoder_encode s = flat_map utf8 (scalarValues s).
Proof.
  unfold TextEncoder_encode, scalarValues.
  induction (codePoints s) as [|c cs IH]; [reflexivity|]. simpl. now rewrite IH.
Qed.

(** What the encoder writes reads back as the scalar values of the
    string. *)
Lemma utf8_decode_scalarValues s :
  isString s -> utf8_decode (TextEncoder_encode s) = Some (scalarValues s).
Proof.
  intros Hs. rewrite TextEncoder_encode_scalarValues.
  apply utf8_decode_flat_map. unfold scalarValues.
  apply Forall_map. eapply Forall_impl; [apply (codePoints_bound s Hs)|].
  intros c Hc. now apply scalarValue_bound.
Qed.

Lemma TextEncoder_encode_eq s t :
  isString s -> isString t ->
  TextEncoder_encode s = TextEncoder_encode t <-> scalarValues s = scalarValues t.
Proof.
  intros Hs Ht. split.
  - intros E. pose proof (utf8_decode_scalarValues s Hs) as Ds.
    rewrite E, (utf8_decode_scalarValues t Ht) in Ds. congruence.
  - intros E. now rewrite !TextEncoder_encode_scalarValues, E.
Qed.

Lemma scalarValues_wellFormed s : wellFormed s -> scalarValues s = codePoints s.
Proof.
  unfold wellFormed, scalarValues. induction 1 as [|c cs Hc Hcs IH]; [reflexivity|].
  simpl. unfold scalarValue at 1. now rewrite Hc, IH.
Qed.

End Utf8Facts.

(** ** The question hash of a string (C2) *)

Module QuestionHashFacts.
Import Spec HashFacts EncodingFacts UStringFacts Utf8Facts.
Local Open Scope list_scope.
Local Open Scope N_scope.

Lemma getQuestionHash_digest `{UString.CaseData} (s : UString.ustring) :
  UString.getQuestionHash s
  = hex (Sha256.digest
           (UString.TextEncoder_encode (UString.toLowerCase (UString.trim s)))).
Proof. reflexivity. Qed.




End QuestionHashFacts.

(** ** What the question hash forgets *)

Module EncodingProperties.
Import Spec HashFacts EncodingFacts UStringFacts Utf8Facts QuestionHashFacts.
Local Open Scope list_scope.
Local Open Scope N_scope.

(** X3.  The UTF-8 encoding inside [getQuestionHash] forgets lone
    surrogates and nothing else: the bytes read back as the scalar values
    of the string, a lone surrogate being U+FFFD, so two strings have the
    same bytes exactly when they have the same scalar values, and two
    well-formed strings with the same bytes are the same string, while
    two lone surrogates are encoded alike.  Two strings have the same
    hash exactly when the SHA-256 digests of their normalised texts are
    the same.  Hence two questions whose normalised texts have different
    scalar values share a hash only when SHA-256 collides on two
    different messages. *)
Theorem question_hash_loses_only_in_digest `{UString.CaseData} :
  (forall s, UString.isString s ->
     UStringSpec.utf8_decode (UString.TextEncoder_encode s)
     = Some (UStringSpec.scalarValues s))
  /\ (forall s t, UString.isString s -> UString.isString t ->
        (UString.TextEncoder_encode s = UString.TextEncoder_encode t
         <-> UStringSpec.scalarValues s = UStringSpec.scalarValues t))
  /\ (forall s t, UString.isString s -> UString.isString t ->
        UStringSpec.wellFormed s -> UStringSpec.wellFormed t ->
        UString.TextEncoder_encode s = UString.TextEncoder_encode t -> s = t)
  /\ UString.TextEncoder_encode [0xD800] = UString.TextEncoder_encode [0xDFFF]
  /\ (forall s t,
        UString.getQuestionHash s = UString.getQuestionHash t
        <-> Sha256.digest
              (UString.TextEncoder_encode (UString.toLowerCase (UString.trim s)))
            = Sha256.digest
                (UString.TextEncoder_encode (UString.toLowerCase (UString.trim t))))
  /\ (forall s t,
        UString.isString (UString.toLowerCase (UString.trim s)) ->
        UString.isString (UString.toLowerCase (UString.trim t)) ->
        UString.getQuestionHash s = UString.getQuestionHash t ->
        UStringSpec.scalarValues (UString.toLowerCase (UString.trim s))
        <> UStringSpec.scalarValues (UString.toLowerCase (UString.trim t)) ->
        exists m1 m2, m1 <> m2 /\ Sha256.digest m1 = Sha256.digest m2).
Proof.
  split; [apply utf8_decode_scalarValues|]. split; [apply TextEncoder_encode_eq|].
  split.
  { intros s t Hs Ht Ws Wt E. apply (codePoints_inj s t Hs Ht).
    rewrite <- (scalarValues_wellFormed s Ws), <- (scalarValues_wellFormed t Wt).
    now apply TextEncoder_encode_eq. }
  split; [reflexivity|]. split.
  { intros s t. rewrite !getQuestionHash_digest. split.
    - apply hex_inj.
    - now intros ->. }
  intros s t Hs Ht Hh Hne. rewrite !getQuestionHash_digest in Hh. apply hex_inj in Hh.
  exists (UString.TextEncoder_encode (UString.toLowerCase (UString.trim s))),
         (UString.TextEncoder_encode (UString.toLowerCase (UString.trim t))).
  split; [|exact Hh]. intros E. apply Hne. now apply TextEncoder_encode_eq.
Qed.

(** A letter of Latin-1, the euro sign and a character beyond the basic
    plane, written as a surrogate pair. *)
Lemma question_hash_witness :
  UStringSpec.utf8_decode (UString.TextEncoder_encode [0xE9; 0x20AC; 0xD83D; 0xDE00])
  = Some [0xE9; 0x20AC; 0x1F600].
Proof.
  assert (Hs : UString.isString [0xE9; 0x20AC; 0xD83D; 0xDE00])
    by (repeat constructor).
  exact (proj1 (@question_hash_loses_only_in_digest Letters.caseData) _ Hs).
Defined.

End EncodingProperties.
